(** * lutron-caseta-mcp: validators, pairing flow, connection manager, tools

    A shallow embedding of [lutron_caseta_mcp/validation.py],
    [lutron_caseta_mcp/pairing.py] and [lutron_caseta_mcp/server.py].

    Conventions.
    - A Python [str] is a Rocq [string] holding the UTF-8 bytes of the text.
    - A raised exception is a value [exc]: its class and the text [str(e)].
      [except C] catches exactly the instances of [C] (subclasses included).
    - Every call that leaves the repository (the pairing primitive, the
      bridge client, the filesystem, pathlib, the environment, logging) is
      answered by a [Platform] and recorded, in order, in a trace of
      [event]s.  Mutable objects are threaded explicitly as state. *)

From stdpp Require Import gmap strings list fin_maps pretty.
From Stdlib Require Import ZArith Ascii String.

Open Scope string_scope.
Open Scope list_scope.
Open Scope Z_scope.

(** ** Python text *)

Module PyStr.

Definition byte_in (lo hi : N) (c : ascii) : bool :=
  ((lo <=? N_of_ascii c) && (N_of_ascii c <=? hi))%N.

Definition byte_is (n : N) (c : ascii) : bool := (N_of_ascii c =? n)%N.

(** Whitespace of [str.strip()] and [str.isspace()]: the code points
    U+0009..000D, U+001C..001F, U+0020, U+0085, U+00A0, U+1680,
    U+2000..200A, U+2028, U+2029, U+202F, U+205F, U+3000, here by the
    length of their UTF-8 encoding. *)
Definition ws1 (c : ascii) : bool :=
  byte_in 9 13 c || byte_in 28 32 c.

Definition ws2 (c d : ascii) : bool :=
  byte_is 194 c && (byte_is 133 d || byte_is 160 d).

Definition ws3 (c d e : ascii) : bool :=
  (byte_is 225 c && byte_is 154 d && byte_is 128 e)
  || (byte_is 226 c && byte_is 128 d
      && (byte_in 128 138 e || byte_in 168 169 e || byte_is 175 e))
  || (byte_is 226 c && byte_is 129 d && byte_is 159 e)
  || (byte_is 227 c && byte_is 128 d && byte_is 128 e).

(** Drop the leading tokens recognised by [w1], [w2], [w3]. *)
Fixpoint drop_tokens (w1 : ascii -> bool) (w2 : ascii -> ascii -> bool)
    (w3 : ascii -> ascii -> ascii -> bool) (s : string) : string :=
  match s with
  | String c s1 =>
      if w1 c then drop_tokens w1 w2 w3 s1 else
      match s1 with
      | String d s2 =>
          if w2 c d then drop_tokens w1 w2 w3 s2 else
          match s2 with
          | String e s3 =>
              if w3 c d e then drop_tokens w1 w2 w3 s3 else s
          | EmptyString => s
          end
      | EmptyString => s
      end
  | EmptyString => s
  end.

Definition lstrip (s : string) : string := drop_tokens ws1 ws2 ws3 s.

(** The trailing side reads the bytes backwards. *)
Definition rstrip (s : string) : string :=
  String.rev
    (drop_tokens ws1 (fun d c => ws2 c d) (fun e d c => ws3 c d e)
       (String.rev s)).

Definition strip (s : string) : string := rstrip (lstrip s).

(** A text that is a sequence of tokens recognised by [w1], [w2], [w3]. *)
Inductive tokens (w1 : ascii -> bool) (w2 : ascii -> ascii -> bool)
    (w3 : ascii -> ascii -> ascii -> bool) : string -> Prop :=
| tk_nil : tokens w1 w2 w3 ""
| tk_one c s :
    w1 c = true -> tokens w1 w2 w3 s -> tokens w1 w2 w3 (String c s)
| tk_two c d s :
    w2 c d = true -> tokens w1 w2 w3 s ->
    tokens w1 w2 w3 (String c (String d s))
| tk_three c d e s :
    w3 c d e = true -> tokens w1 w2 w3 s ->
    tokens w1 w2 w3 (String c (String d (String e s))).

(** A text made of whitespace characters only (the empty text included). *)
Definition whitespace_only (s : string) : Prop := tokens ws1 ws2 ws3 s.

(** *** [str.lower()]

    Python lowers a text character by character, by the tables of the
    Unicode Character Database.  The text is read as UTF-8; a byte that
    is not part of a well-formed sequence (no Python [str] encodes to
    one) stands for itself. *)
Inductive item :=
| Char (cp : N)
| Stray (b : ascii).

(** A continuation byte. *)
Definition cont (c : ascii) : bool := byte_in 128 191 c.

(** The first byte of a two-byte sequence, and the first two bytes of a
    three-byte and of a four-byte sequence: neither overlong forms, nor
    surrogates, nor code points beyond U+10FFFF. *)
Definition lead2 (a : ascii) : bool := byte_in 194 223 a.

Definition lead3 (a b : ascii) : bool :=
  (byte_is 224 a && byte_in 160 191 b)
  || (byte_in 225 236 a && cont b)
  || (byte_is 237 a && byte_in 128 159 b)
  || (byte_in 238 239 a && cont b).

Definition lead4 (a b : ascii) : bool :=
  (byte_is 240 a && byte_in 144 191 b)
  || (byte_in 241 243 a && cont b)
  || (byte_is 244 a && byte_in 128 143 b).

Definition cp2 (a b : ascii) : N :=
  ((N_of_ascii a - 192) * 64 + (N_of_ascii b - 128))%N.

Definition cp3 (a b c : ascii) : N :=
  ((N_of_ascii a - 224) * 4096 + (N_of_ascii b - 128) * 64
   + (N_of_ascii c - 128))%N.

Definition cp4 (a b c d : ascii) : N :=
  ((N_of_ascii a - 240) * 262144 + (N_of_ascii b - 128) * 4096
   + (N_of_ascii c - 128) * 64 + (N_of_ascii d - 128))%N.

Fixpoint decode (s : string) : list item :=
  match s with
  | EmptyString => []
  | String a s1 =>
      if byte_in 0 127 a then Char (N_of_ascii a) :: decode s1 else
      match s1 with
      | String b s2 =>
          if lead2 a && cont b then Char (cp2 a b) :: decode s2 else
          match s2 with
          | String c s3 =>
              if lead3 a b && cont c then Char (cp3 a b c) :: decode s3 else
              match s3 with
              | String d s4 =>
                  if lead4 a b && cont c && cont d
                  then Char (cp4 a b c d) :: decode s4
                  else Stray a :: decode s1
              | EmptyString => Stray a :: decode s1
              end
          | EmptyString => Stray a :: decode s1
          end
      | EmptyString => Stray a :: decode s1
      end
  end.

(** The UTF-8 bytes of a code point. *)
Definition encode_cp (c : N) : string :=
  (if c <? 128 then String (ascii_of_N c) ""
   else if c <? 2048 then
     String (ascii_of_N (192 + (c / 64) mod 32))
       (String (ascii_of_N (128 + c mod 64)) "")
   else if c <? 65536 then
     String (ascii_of_N (224 + (c / 4096) mod 16))
       (String (ascii_of_N (128 + (c / 64) mod 64))
          (String (ascii_of_N (128 + c mod 64)) ""))
   else
     String (ascii_of_N (240 + (c / 262144) mod 8))
       (String (ascii_of_N (128 + (c / 4096) mod 64))
          (String (ascii_of_N (128 + (c / 64) mod 64))
             (String (ascii_of_N (128 + c mod 64)) ""))))%N.

Fixpoint encode (l : list N) : string :=
  match l with
  | [] => ""
  | c :: l' => encode_cp c +:+ encode l'
  end.

(** The simple lowercase mappings of the Unicode Character Database
    (version 14.0, the one of CPython 3.11), in runs: [(first, last, step,
    target)] maps [first + k * step], up to [last], to [target + k * step]. *)
Definition lowercase_runs : list (N * N * N * N) :=
  [(65, 90, 1, 97); (192, 214, 1, 224); (216, 222, 1, 248);
   (256, 302, 2, 257); (306, 310, 2, 307); (313, 327, 2, 314);
   (330, 374, 2, 331); (376, 376, 1, 255); (377, 381, 2, 378);
   (385, 385, 1, 595); (386, 388, 2, 387); (390, 390, 1, 596);
   (391, 391, 1, 392); (393, 394, 1, 598); (395, 395, 1, 396);
   (398, 398, 1, 477); (399, 399, 1, 601); (400, 400, 1, 603);
   (401, 401, 1, 402); (403, 403, 1, 608); (404, 404, 1, 611);
   (406, 406, 1, 617); (407, 407, 1, 616); (408, 408, 1, 409);
   (412, 412, 1, 623); (413, 413, 1, 626); (415, 415, 1, 629);
   (416, 420, 2, 417); (422, 422, 1, 640); (423, 423, 1, 424);
   (425, 425, 1, 643); (428, 428, 1, 429); (430, 430, 1, 648);
   (431, 431, 1, 432); (433, 434, 1, 650); (435, 437, 2, 436);
   (439, 439, 1, 658); (440, 440, 1, 441); (444, 444, 1, 445);
   (452, 452, 1, 454); (453, 453, 1, 454); (455, 455, 1, 457);
   (456, 456, 1, 457); (458, 458, 1, 460); (459, 475, 2, 460);
   (478, 494, 2, 479); (497, 497, 1, 499); (498, 500, 2, 499);
   (502, 502, 1, 405); (503, 503, 1, 447); (504, 542, 2, 505);
   (544, 544, 1, 414); (546, 562, 2, 547); (570, 570, 1, 11365);
   (571, 571, 1, 572); (573, 573, 1, 410); (574, 574, 1, 11366);
   (577, 577, 1, 578); (579, 579, 1, 384); (580, 580, 1, 649);
   (581, 581, 1, 652); (582, 590, 2, 583); (880, 882, 2, 881);
   (886, 886, 1, 887); (895, 895, 1, 1011); (902, 902, 1, 940);
   (904, 906, 1, 941); (908, 908, 1, 972); (910, 911, 1, 973);
   (913, 929, 1, 945); (932, 939, 1, 964); (975, 975, 1, 983);
   (984, 1006, 2, 985); (1012, 1012, 1, 952); (1015, 1015, 1, 1016);
   (1017, 1017, 1, 1010); (1018, 1018, 1, 1019); (1021, 1023, 1, 891);
   (1024, 1039, 1, 1104); (1040, 1071, 1, 1072); (1120, 1152, 2, 1121);
   (1162, 1214, 2, 1163); (1216, 1216, 1, 1231); (1217, 1229, 2, 1218);
   (1232, 1326, 2, 1233); (1329, 1366, 1, 1377); (4256, 4293, 1, 11520);
   (4295, 4295, 1, 11559); (4301, 4301, 1, 11565); (5024, 5103, 1, 43888);
   (5104, 5109, 1, 5112); (7312, 7354, 1, 4304); (7357, 7359, 1, 4349);
   (7680, 7828, 2, 7681); (7838, 7838, 1, 223); (7840, 7934, 2, 7841);
   (7944, 7951, 1, 7936); (7960, 7965, 1, 7952); (7976, 7983, 1, 7968);
   (7992, 7999, 1, 7984); (8008, 8013, 1, 8000); (8025, 8031, 2, 8017);
   (8040, 8047, 1, 8032); (8072, 8079, 1, 8064); (8088, 8095, 1, 8080);
   (8104, 8111, 1, 8096); (8120, 8121, 1, 8112); (8122, 8123, 1, 8048);
   (8124, 8124, 1, 8115); (8136, 8139, 1, 8050); (8140, 8140, 1, 8131);
   (8152, 8153, 1, 8144); (8154, 8155, 1, 8054); (8168, 8169, 1, 8160);
   (8170, 8171, 1, 8058); (8172, 8172, 1, 8165); (8184, 8185, 1, 8056);
   (8186, 8187, 1, 8060); (8188, 8188, 1, 8179); (8486, 8486, 1, 969);
   (8490, 8490, 1, 107); (8491, 8491, 1, 229); (8498, 8498, 1, 8526);
   (8544, 8559, 1, 8560); (8579, 8579, 1, 8580); (9398, 9423, 1, 9424);
   (11264, 11311, 1, 11312); (11360, 11360, 1, 11361);
   (11362, 11362, 1, 619); (11363, 11363, 1, 7549); (11364, 11364, 1, 637);
   (11367, 11371, 2, 11368); (11373, 11373, 1, 593); (11374, 11374, 1, 625);
   (11375, 11375, 1, 592); (11376, 11376, 1, 594); (11378, 11378, 1, 11379);
   (11381, 11381, 1, 11382); (11390, 11391, 1, 575);
   (11392, 11490, 2, 11393); (11499, 11501, 2, 11500);
   (11506, 11506, 1, 11507); (42560, 42604, 2, 42561);
   (42624, 42650, 2, 42625); (42786, 42798, 2, 42787);
   (42802, 42862, 2, 42803); (42873, 42875, 2, 42874);
   (42877, 42877, 1, 7545); (42878, 42886, 2, 42879);
   (42891, 42891, 1, 42892); (42893, 42893, 1, 613);
   (42896, 42898, 2, 42897); (42902, 42920, 2, 42903);
   (42922, 42922, 1, 614); (42923, 42923, 1, 604); (42924, 42924, 1, 609);
   (42925, 42925, 1, 620); (42926, 42926, 1, 618); (42928, 42928, 1, 670);
   (42929, 42929, 1, 647); (42930, 42930, 1, 669); (42931, 42931, 1, 43859);
   (42932, 42946, 2, 42933); (42948, 42948, 1, 42900);
   (42949, 42949, 1, 642); (42950, 42950, 1, 7566); (42951, 42953, 2, 42952);
   (42960, 42960, 1, 42961); (42966, 42968, 2, 42967);
   (42997, 42997, 1, 42998); (65313, 65338, 1, 65345);
   (66560, 66599, 1, 66600); (66736, 66771, 1, 66776);
   (66928, 66938, 1, 66967); (66940, 66954, 1, 66979);
   (66956, 66962, 1, 66995); (66964, 66965, 1, 67003);
   (68736, 68786, 1, 68800); (71840, 71871, 1, 71872);
   (93760, 93791, 1, 93792); (125184, 125217, 1, 125218)]%N.

(** The code points with the property Cased that are not Case_Ignorable,
    in ranges [(first, last)]. *)
Definition cased_ranges : list (N * N) :=
  [(65, 90); (97, 122); (170, 170); (181, 181); (186, 186); (192, 214);
   (216, 246); (248, 442); (444, 447); (452, 659); (661, 687); (880, 883);
   (886, 887); (891, 893); (895, 895); (902, 902); (904, 906); (908, 908);
   (910, 929); (931, 1013); (1015, 1153); (1162, 1327); (1329, 1366);
   (1376, 1416); (4256, 4293); (4295, 4295); (4301, 4301); (4304, 4346);
   (4349, 4351); (5024, 5109); (5112, 5117); (7296, 7304); (7312, 7354);
   (7357, 7359); (7424, 7467); (7531, 7543); (7545, 7578); (7680, 7957);
   (7960, 7965); (7968, 8005); (8008, 8013); (8016, 8023); (8025, 8025);
   (8027, 8027); (8029, 8029); (8031, 8061); (8064, 8116); (8118, 8124);
   (8126, 8126); (8130, 8132); (8134, 8140); (8144, 8147); (8150, 8155);
   (8160, 8172); (8178, 8180); (8182, 8188); (8450, 8450); (8455, 8455);
   (8458, 8467); (8469, 8469); (8473, 8477); (8484, 8484); (8486, 8486);
   (8488, 8488); (8490, 8493); (8495, 8500); (8505, 8505); (8508, 8511);
   (8517, 8521); (8526, 8526); (8544, 8575); (8579, 8580); (9398, 9449);
   (11264, 11387); (11390, 11492); (11499, 11502); (11506, 11507);
   (11520, 11557); (11559, 11559); (11565, 11565); (42560, 42605);
   (42624, 42651); (42786, 42863); (42865, 42887); (42891, 42894);
   (42896, 42954); (42960, 42961); (42963, 42963); (42965, 42969);
   (42997, 42998); (43002, 43002); (43824, 43866); (43872, 43880);
   (43888, 43967); (64256, 64262); (64275, 64279); (65313, 65338);
   (65345, 65370); (66560, 66639); (66736, 66771); (66776, 66811);
   (66928, 66938); (66940, 66954); (66956, 66962); (66964, 66965);
   (66967, 66977); (66979, 66993); (66995, 67001); (67003, 67004);
   (68736, 68786); (68800, 68850); (71840, 71903); (93760, 93823);
   (119808, 119892); (119894, 119964); (119966, 119967); (119970, 119970);
   (119973, 119974); (119977, 119980); (119982, 119993); (119995, 119995);
   (119997, 120003); (120005, 120069); (120071, 120074); (120077, 120084);
   (120086, 120092); (120094, 120121); (120123, 120126); (120128, 120132);
   (120134, 120134); (120138, 120144); (120146, 120485); (120488, 120512);
   (120514, 120538); (120540, 120570); (120572, 120596); (120598, 120628);
   (120630, 120654); (120656, 120686); (120688, 120712); (120714, 120744);
   (120746, 120770); (120772, 120779); (122624, 122633); (122635, 122654);
   (125184, 125251); (127280, 127305); (127312, 127337); (127344, 127369)]%N.

(** The code points with the property Case_Ignorable. *)
Definition case_ignorable_ranges : list (N * N) :=
  [(39, 39); (46, 46); (58, 58); (94, 94); (96, 96); (168, 168); (173, 173);
   (175, 175); (180, 180); (183, 184); (688, 879); (884, 885); (890, 890);
   (900, 901); (903, 903); (1155, 1161); (1369, 1369); (1375, 1375);
   (1425, 1469); (1471, 1471); (1473, 1474); (1476, 1477); (1479, 1479);
   (1524, 1524); (1536, 1541); (1552, 1562); (1564, 1564); (1600, 1600);
   (1611, 1631); (1648, 1648); (1750, 1757); (1759, 1768); (1770, 1773);
   (1807, 1807); (1809, 1809); (1840, 1866); (1958, 1968); (2027, 2037);
   (2042, 2042); (2045, 2045); (2070, 2093); (2137, 2139); (2184, 2184);
   (2192, 2193); (2200, 2207); (2249, 2306); (2362, 2362); (2364, 2364);
   (2369, 2376); (2381, 2381); (2385, 2391); (2402, 2403); (2417, 2417);
   (2433, 2433); (2492, 2492); (2497, 2500); (2509, 2509); (2530, 2531);
   (2558, 2558); (2561, 2562); (2620, 2620); (2625, 2626); (2631, 2632);
   (2635, 2637); (2641, 2641); (2672, 2673); (2677, 2677); (2689, 2690);
   (2748, 2748); (2753, 2757); (2759, 2760); (2765, 2765); (2786, 2787);
   (2810, 2815); (2817, 2817); (2876, 2876); (2879, 2879); (2881, 2884);
   (2893, 2893); (2901, 2902); (2914, 2915); (2946, 2946); (3008, 3008);
   (3021, 3021); (3072, 3072); (3076, 3076); (3132, 3132); (3134, 3136);
   (3142, 3144); (3146, 3149); (3157, 3158); (3170, 3171); (3201, 3201);
   (3260, 3260); (3263, 3263); (3270, 3270); (3276, 3277); (3298, 3299);
   (3328, 3329); (3387, 3388); (3393, 3396); (3405, 3405); (3426, 3427);
   (3457, 3457); (3530, 3530); (3538, 3540); (3542, 3542); (3633, 3633);
   (3636, 3642); (3654, 3662); (3761, 3761); (3764, 3772); (3782, 3782);
   (3784, 3789); (3864, 3865); (3893, 3893); (3895, 3895); (3897, 3897);
   (3953, 3966); (3968, 3972); (3974, 3975); (3981, 3991); (3993, 4028);
   (4038, 4038); (4141, 4144); (4146, 4151); (4153, 4154); (4157, 4158);
   (4184, 4185); (4190, 4192); (4209, 4212); (4226, 4226); (4229, 4230);
   (4237, 4237); (4253, 4253); (4348, 4348); (4957, 4959); (5906, 5908);
   (5938, 5939); (5970, 5971); (6002, 6003); (6068, 6069); (6071, 6077);
   (6086, 6086); (6089, 6099); (6103, 6103); (6109, 6109); (6155, 6159);
   (6211, 6211); (6277, 6278); (6313, 6313); (6432, 6434); (6439, 6440);
   (6450, 6450); (6457, 6459); (6679, 6680); (6683, 6683); (6742, 6742);
   (6744, 6750); (6752, 6752); (6754, 6754); (6757, 6764); (6771, 6780);
   (6783, 6783); (6823, 6823); (6832, 6862); (6912, 6915); (6964, 6964);
   (6966, 6970); (6972, 6972); (6978, 6978); (7019, 7027); (7040, 7041);
   (7074, 7077); (7080, 7081); (7083, 7085); (7142, 7142); (7144, 7145);
   (7149, 7149); (7151, 7153); (7212, 7219); (7222, 7223); (7288, 7293);
   (7376, 7378); (7380, 7392); (7394, 7400); (7405, 7405); (7412, 7412);
   (7416, 7417); (7468, 7530); (7544, 7544); (7579, 7679); (8125, 8125);
   (8127, 8129); (8141, 8143); (8157, 8159); (8173, 8175); (8189, 8190);
   (8203, 8207); (8216, 8217); (8228, 8228); (8231, 8231); (8234, 8238);
   (8288, 8292); (8294, 8303); (8305, 8305); (8319, 8319); (8336, 8348);
   (8400, 8432); (11388, 11389); (11503, 11505); (11631, 11631);
   (11647, 11647); (11744, 11775); (11823, 11823); (12293, 12293);
   (12330, 12333); (12337, 12341); (12347, 12347); (12441, 12446);
   (12540, 12542); (40981, 40981); (42232, 42237); (42508, 42508);
   (42607, 42610); (42612, 42621); (42623, 42623); (42652, 42655);
   (42736, 42737); (42752, 42785); (42864, 42864); (42888, 42890);
   (42994, 42996); (43000, 43001); (43010, 43010); (43014, 43014);
   (43019, 43019); (43045, 43046); (43052, 43052); (43204, 43205);
   (43232, 43249); (43263, 43263); (43302, 43309); (43335, 43345);
   (43392, 43394); (43443, 43443); (43446, 43449); (43452, 43453);
   (43471, 43471); (43493, 43494); (43561, 43566); (43569, 43570);
   (43573, 43574); (43587, 43587); (43596, 43596); (43632, 43632);
   (43644, 43644); (43696, 43696); (43698, 43700); (43703, 43704);
   (43710, 43711); (43713, 43713); (43741, 43741); (43756, 43757);
   (43763, 43764); (43766, 43766); (43867, 43871); (43881, 43883);
   (44005, 44005); (44008, 44008); (44013, 44013); (64286, 64286);
   (64434, 64450); (65024, 65039); (65043, 65043); (65056, 65071);
   (65106, 65106); (65109, 65109); (65279, 65279); (65287, 65287);
   (65294, 65294); (65306, 65306); (65342, 65342); (65344, 65344);
   (65392, 65392); (65438, 65439); (65507, 65507); (65529, 65531);
   (66045, 66045); (66272, 66272); (66422, 66426); (67456, 67461);
   (67463, 67504); (67506, 67514); (68097, 68099); (68101, 68102);
   (68108, 68111); (68152, 68154); (68159, 68159); (68325, 68326);
   (68900, 68903); (69291, 69292); (69446, 69456); (69506, 69509);
   (69633, 69633); (69688, 69702); (69744, 69744); (69747, 69748);
   (69759, 69761); (69811, 69814); (69817, 69818); (69821, 69821);
   (69826, 69826); (69837, 69837); (69888, 69890); (69927, 69931);
   (69933, 69940); (70003, 70003); (70016, 70017); (70070, 70078);
   (70089, 70092); (70095, 70095); (70191, 70193); (70196, 70196);
   (70198, 70199); (70206, 70206); (70367, 70367); (70371, 70378);
   (70400, 70401); (70459, 70460); (70464, 70464); (70502, 70508);
   (70512, 70516); (70712, 70719); (70722, 70724); (70726, 70726);
   (70750, 70750); (70835, 70840); (70842, 70842); (70847, 70848);
   (70850, 70851); (71090, 71093); (71100, 71101); (71103, 71104);
   (71132, 71133); (71219, 71226); (71229, 71229); (71231, 71232);
   (71339, 71339); (71341, 71341); (71344, 71349); (71351, 71351);
   (71453, 71455); (71458, 71461); (71463, 71467); (71727, 71735);
   (71737, 71738); (71995, 71996); (71998, 71998); (72003, 72003);
   (72148, 72151); (72154, 72155); (72160, 72160); (72193, 72202);
   (72243, 72248); (72251, 72254); (72263, 72263); (72273, 72278);
   (72281, 72283); (72330, 72342); (72344, 72345); (72752, 72758);
   (72760, 72765); (72767, 72767); (72850, 72871); (72874, 72880);
   (72882, 72883); (72885, 72886); (73009, 73014); (73018, 73018);
   (73020, 73021); (73023, 73029); (73031, 73031); (73104, 73105);
   (73109, 73109); (73111, 73111); (73459, 73460); (78896, 78904);
   (92912, 92916); (92976, 92982); (92992, 92995); (94031, 94031);
   (94095, 94111); (94176, 94177); (94179, 94180); (110576, 110579);
   (110581, 110587); (110589, 110590); (113821, 113822); (113824, 113827);
   (118528, 118573); (118576, 118598); (119143, 119145); (119155, 119170);
   (119173, 119179); (119210, 119213); (119362, 119364); (121344, 121398);
   (121403, 121452); (121461, 121461); (121476, 121476); (121499, 121503);
   (121505, 121519); (122880, 122886); (122888, 122904); (122907, 122913);
   (122915, 122916); (122918, 122922); (123184, 123197); (123566, 123566);
   (123628, 123631); (125136, 125142); (125252, 125259); (127995, 127999);
   (917505, 917505); (917536, 917631); (917760, 917999)]%N.

Definition in_ranges (ranges : list (N * N)) (c : N) : bool :=
  existsb (fun r => (fst r <=? c) && (c <=? snd r))%N ranges.

Definition in_run (c : N) (r : N * N * N * N) : bool :=
  let '(first, last, step, _) := r in
  ((first <=? c) && (c <=? last) && ((c - first) mod step =? 0))%N.

(** The lowercase form of a code point, of one or more code points: the
    full mapping of U+0130 has two, every other is simple.  (CPython:
    [_PyUnicode_ToLowerFull].) *)
Definition to_lower_full (c : N) : list N :=
  if (c =? 304)%N then [105; 775]%N
  else
    match find (in_run c) lowercase_runs with
    | Some (first, _, _, target) => [target + (c - first)]%N
    | None => [c]
    end.

Definition case_ignorable (i : item) : bool :=
  match i with
  | Char c => in_ranges case_ignorable_ranges c
  | Stray _ => false
  end.

(** Whether a character that is not case-ignorable is cased. *)
Definition cased (i : item) : bool :=
  match i with
  | Char c => in_ranges cased_ranges c
  | Stray _ => false
  end.

(** Whether a cased letter follows, case-ignorable characters skipped. *)
Fixpoint cased_follows (l : list item) : bool :=
  match l with
  | [] => false
  | i :: l' => if case_ignorable i then cased_follows l' else cased i
  end.

(** One character lowered.  The capital sigma U+03A3 becomes the final
    sigma U+03C2 at the end of a word, after a cased letter and not
    before one, and U+03C3 elsewhere.  (CPython: [lower_ucs4] and
    [handle_capital_sigma].) *)
Definition lower_item (cased_before : bool) (i : item) (rest : list item)
    : string :=
  match i with
  | Stray b => String b ""
  | Char c =>
      if (c =? 931)%N then
        encode_cp (if cased_before && negb (cased_follows rest)
                   then 962 else 963)%N
      else encode (to_lower_full c)
  end.

(** [cased_before]: the last character that is not case-ignorable, if
    any, is cased. *)
Fixpoint lower_items (cased_before : bool) (l : list item) : string :=
  match l with
  | [] => ""
  | i :: l' =>
      lower_item cased_before i l'
      +:+ lower_items (if case_ignorable i then cased_before else cased i) l'
  end.

Definition lower (s : string) : string := lower_items false (decode s).

(** [needle in hay]. *)
Definition contains (hay needle : string) : Prop :=
  exists pre post, hay = pre +:+ needle +:+ post.

(** Truthiness of a [str]: non-empty. *)
Definition truthy (s : string) : bool :=
  match s with EmptyString => false | String _ _ => true end.

End PyStr.

(** ** Exceptions and outcomes *)

Inductive exc_class :=
| BaseException
| KeyboardInterrupt      (* BaseException *)
| CancelledError         (* BaseException: asyncio task cancellation *)
| Exception              (* BaseException *)
| RuntimeError           (* Exception *)
| OSError                (* Exception *)
| KeyError               (* Exception *)
| TypeError              (* Exception *)
| ValueError             (* Exception *)
| AttributeError         (* Exception *)
| ValidationError.       (* validation.py: class ValidationError(ValueError) *)

#[global] Instance exc_class_eq_dec : EqDecision exc_class.
Proof. solve_decision. Defined.

(** The direct base class. *)
Definition base_of (c : exc_class) : option exc_class :=
  match c with
  | BaseException => None
  | KeyboardInterrupt | CancelledError | Exception => Some BaseException
  | RuntimeError | OSError | KeyError | TypeError | ValueError
  | AttributeError => Some Exception
  | ValidationError => Some ValueError
  end.

(** The class and its ancestors; the hierarchy is three levels deep. *)
Definition ancestry (c : exc_class) : list exc_class :=
  c :: match base_of c with
       | None => []
       | Some b1 =>
           b1 :: match base_of b1 with
                 | None => []
                 | Some b2 =>
                     b2 :: match base_of b2 with
                           | None => []
                           | Some b3 => [b3]
                           end
                 end
       end.

Definition issubclass (c d : exc_class) : bool := bool_decide (d ∈ ancestry c).

Record exc := RaiseOf { exc_cls : exc_class; exc_str : string }.

(** [isinstance(e, C)], the test made by [except C]. *)
Definition isinstance_exc (e : exc) (c : exc_class) : bool :=
  issubclass (exc_cls e) c.

Inductive outcome (A : Type) :=
| Ok (a : A)
| Raise (e : exc).
Arguments Ok {A} a.
Arguments Raise {A} e.

Definition raise_new {A} (c : exc_class) (msg : string) : outcome A :=
  Raise (RaiseOf c msg).

(** ** Python values reaching the validators *)

(** Instances of [int]; [bool] is a subclass of [int]. *)
Inductive pyint :=
| IntObj (n : Z)
| BoolObj (b : bool).

Definition int_value (i : pyint) : Z :=
  match i with
  | IntObj n => n
  | BoolObj b => Z.b2z b
  end.

(** [str(i)], as an f-string renders it. *)
Definition int_str (i : pyint) : string :=
  match i with
  | IntObj n => pretty n
  | BoolObj true => "True"
  | BoolObj false => "False"
  end.

(** A float is given as mantissa and binary exponent; no validator looks
    at its value. *)
#[warnings="-register-all"] Inductive pyval :=
| PyInt (i : pyint)
| PyStr (s : string)
| PyFloat (m e : Z)
| PyNone
| PyList (l : list pyval)
| PyTuple (l : list pyval)
| PyDict (kv : list (pyval * pyval)).

(** [isinstance(v, int)] *)
Definition isinstance_int (v : pyval) : bool :=
  match v with
  | PyInt _ => true
  | _ => false
  end.

(** [type(v).__name__] *)
Definition type_name (v : pyval) : string :=
  match v with
  | PyInt (IntObj _) => "int"
  | PyInt (BoolObj _) => "bool"
  | PyStr _ => "str"
  | PyFloat _ _ => "float"
  | PyNone => "NoneType"
  | PyList _ => "list"
  | PyTuple _ => "tuple"
  | PyDict _ => "dict"
  end.

(** ** validation.py *)

Section Validation.

(** [ipaddress.ip_address(s)] of the Python library: [true] when it
    returns an address, [false] when it raises [ValueError]. *)
Variable ip_address : string -> bool.

Definition validate_host_ip (host : string) : outcome string :=
  if negb (PyStr.truthy host) || negb (PyStr.truthy (PyStr.strip host)) then
    raise_new ValidationError "Host IP cannot be empty"
  else
    let host := PyStr.strip host in
    if ip_address host then Ok host
    else raise_new ValidationError ("Invalid IP address format: " +:+ host).

End Validation.

Definition validate_device_level (level : pyval) : outcome pyint :=
  match level with
  | PyInt i =>
      if negb ((0 <=? int_value i)%Z && (int_value i <=? 100)%Z) then
        raise_new ValidationError
          ("Device level must be between 0 and 100, got " +:+ int_str i)
      else Ok i
  | _ =>
      raise_new ValidationError
        ("Device level must be an integer, got " +:+ type_name level)
  end.

Definition valid_domains : list string :=
  ["light"; "switch"; "cover"; "sensor"; "fan"].

(** [sorted(...)] of texts: Python orders [str] by code point, which on
    UTF-8 is the order of the bytes. *)
Fixpoint insort (x : string) (l : list string) : list string :=
  match l with
  | [] => [x]
  | y :: l' => if String.leb x y then x :: l else y :: insort x l'
  end.

Definition sorted (l : list string) : list string := fold_right insort [] l.

(** [', '.join(sorted(valid_domains))] *)
Definition valid_domains_sorted : string :=
  String.concat ", " (sorted valid_domains).

Definition validate_domain (domain : string) : outcome string :=
  if negb (PyStr.truthy domain) || negb (PyStr.truthy (PyStr.strip domain)) then
    raise_new ValidationError "Domain cannot be empty"
  else
    let domain := PyStr.lower (PyStr.strip domain) in
    if bool_decide (domain ∈ valid_domains) then Ok domain
    else
      raise_new ValidationError
        ("Invalid domain '" +:+ domain +:+ "'. Valid domains are: "
         +:+ valid_domains_sorted).

(** ** The outside world *)

(** A [Smartbridge] object of the bridge client library. *)
Definition handle := nat.

(** A callable passed as the ready notification. *)
Inductive callable := Callable (name : string).

(** Device records belong to the bridge client. *)
Definition device := list (string * string).

Inductive log_level := INFO | WARNING | ERROR.

(** Calls that leave the repository, as they appear in a run. *)
Inductive event :=
| EvAsyncPair (host : string)
| EvReadyCallback (c : callable)
| EvPrint (line : string)
| EvLog (lvl : log_level) (msg : string)
| EvGetenv (name : string)
| EvExpanduser (p : string)
| EvResolve (p : string)
| EvHome
| EvGettempdir
| EvAbsolute (p : string)
| EvMkdir (p : string)                    (* parents=True, exist_ok=True *)
| EvOpen (p : string)                     (* mode "w" *)
| EvWrite (p : string) (text : string)
| EvClose (p : string)
| EvChmod (p : string) (mode : Z)
| EvCreateTls (bridge_ip key_path cert_path ca_path : string)
| EvConnect (b : handle)
| EvCloseBridge (b : handle)
| EvGetDevices (b : handle) (domain : string)
| EvTurnOn (b : handle) (device_id : string)
| EvTurnOff (b : handle) (device_id : string)
| EvSetValue (b : handle) (device_id : string) (value : pyint).

Definition trace := list event.

(** Events of the filesystem that create or change something. *)
Definition is_fs_write (ev : event) : bool :=
  match ev with
  | EvMkdir _ | EvOpen _ | EvWrite _ _ | EvClose _ | EvChmod _ _ => true
  | _ => false
  end.

(** Events that reach the bridge client. *)
Definition is_bridge_call (ev : event) : bool :=
  match ev with
  | EvCreateTls _ _ _ _ | EvConnect _ | EvCloseBridge _ | EvGetDevices _ _
  | EvTurnOn _ _ | EvTurnOff _ _ | EvSetValue _ _ _ => true
  | _ => false
  end.

(** What the libraries and the machine answer.  The pure operations of
    pathlib come first; every other answer may depend on the run so far. *)
Record Platform := {
  Path : Type;
  path_new : string -> Path;                     (* Path(s) *)
  path_div : Path -> string -> Path;             (* p / name *)
  path_str : Path -> string;                     (* str(p), os.fspath(p) *)
  path_is_relative_to : Path -> Path -> bool;    (* p.is_relative_to(q) *)
  ip_address : string -> bool;                   (* ipaddress.ip_address *)
  DEFAULT_CERT_DIR : string;  (* os.path.expanduser("~/.config/lutron-caseta-mcp") *)

  (** [async_pair(host, ready)]: whether it invoked [ready], and its result. *)
  async_pair : string -> trace -> bool * outcome (gmap string string);
  getenv : string -> trace -> option string;
  expanduser : Path -> trace -> outcome Path;
  resolve : Path -> trace -> outcome Path;
  home : trace -> outcome Path;
  gettempdir : trace -> outcome string;
  absolute : Path -> trace -> outcome Path;
  mkdir : Path -> trace -> outcome unit;
  open_w : Path -> trace -> outcome unit;
  file_write : Path -> string -> trace -> outcome unit;
  file_close : Path -> trace -> outcome unit;
  chmod : Path -> Z -> trace -> outcome unit;
  create_tls : string -> string -> string -> string -> trace -> outcome handle;
  bridge_connect : handle -> trace -> outcome unit;
  bridge_close : handle -> trace -> outcome unit;
  bridge_get_devices : handle -> string -> trace -> outcome (option (list device));
  bridge_turn_on : handle -> string -> trace -> outcome unit;
  bridge_turn_off : handle -> string -> trace -> outcome unit;
  bridge_set_value : handle -> string -> pyint -> trace -> outcome unit;
}.

(** ** Computations: state, trace and exceptions *)

Definition M (S A : Type) : Type := S -> trace -> outcome A * S * trace.

Definition ret {S A} (a : A) : M S A := fun s tr => (Ok a, s, tr).

Definition bind {S A B} (m : M S A) (k : A -> M S B) : M S B :=
  fun s tr =>
    match m s tr with
    | (Ok a, s', tr') => k a s' tr'
    | (Raise e, s', tr') => (Raise e, s', tr')
    end.

Notation "'do' x <- m ; k" := (bind m (fun x => k))
  (at level 10, x name, m at level 100, k at level 200,
   format "'[v' 'do'  x  <-  m ; '/' k ']'").
Notation "'run' m ; k" := (bind m (fun _ => k))
  (at level 10, m at level 100, k at level 200,
   format "'[v' 'run'  m ; '/' k ']'").

(** [raise C(msg)] *)
Definition throw {S A} (c : exc_class) (msg : string) : M S A :=
  fun s tr => (raise_new c msg, s, tr).

Definition lift {S A} (o : outcome A) : M S A := fun s tr => (o, s, tr).

(** [try: body  except (C1, ..., Cn) as e: handler] *)
Definition try_except {S A} (body : M S A) (classes : list exc_class)
    (handler : exc -> M S A) : M S A :=
  fun s tr =>
    match body s tr with
    | (Raise e, s', tr') =>
        if existsb (isinstance_exc e) classes then handler e s' tr'
        else (Raise e, s', tr')
    | done => done
    end.

(** A call to the outside: answered on the trace so far, then recorded. *)
Definition extern {S A} (ev : event) (answer : trace -> outcome A) : M S A :=
  fun s tr => (answer tr, s, tr ++ [ev]).

(** An effect that has no answer to wait for. *)
Definition emit {S} (ev : event) : M S unit :=
  fun s tr => (Ok tt, s, tr ++ [ev]).

Definition get {S} : M S S := fun s tr => (Ok s, s, tr).
Definition put {S} (s : S) : M S unit := fun _ tr => (Ok tt, s, tr).

(** [d[k]] on a dict with [str] keys; [str(KeyError(k))] is [repr(k)]. *)
Definition getitem {S} (d : gmap string string) (k : string) : M S string :=
  match d !! k with
  | Some v => ret v
  | None => throw KeyError ("'" +:+ k +:+ "'")
  end.

(** ** pairing.py *)

Record PairingResult := {
  success : bool;
  message : string;
  data : option (gmap string string);
}.

Section Pairing.

Variable P : Platform.
Context {S : Type}.

(** validation.py, [validate_cert_directory] *)
Definition validate_cert_directory (cert_dir : string) : M S string :=
  if negb (PyStr.truthy cert_dir) || negb (PyStr.truthy (PyStr.strip cert_dir))
  then throw ValidationError "Certificate directory cannot be empty"
  else
    try_except
      (do expanded <- extern (EvExpanduser cert_dir)
                        (expanduser P (path_new P cert_dir));
       do cert_dir_path <- extern (EvResolve (path_str P expanded))
                             (resolve P expanded);
       do home0 <- extern EvHome (home P);
       do home_dir <- extern (EvResolve (path_str P home0)) (resolve P home0);
       do tmp0 <- extern EvGettempdir (gettempdir P);
       do tmp_dir <- extern (EvResolve (path_str P (path_new P tmp0)))
                       (resolve P (path_new P tmp0));
       if negb (path_is_relative_to P cert_dir_path home_dir
                || path_is_relative_to P cert_dir_path tmp_dir)
       then
         throw ValidationError
           ("Certificate directory must be within home directory or temp directory: "
            +:+ path_str P cert_dir_path)
       else ret (path_str P cert_dir_path))
      [OSError; ValueError]
      (fun _ =>
         throw ValidationError
           ("Invalid certificate directory path: " +:+ cert_dir)).

Definition get_cert_dir : M S string :=
  do env <- extern (EvGetenv "LUTRON_CERT_DIR")
              (fun tr => Ok (getenv P "LUTRON_CERT_DIR" tr));
  let cert_dir := default (DEFAULT_CERT_DIR P) env in
  try_except
    (validate_cert_directory cert_dir)
    [ValidationError]
    (fun e =>
       run emit (EvLog WARNING
                   ("Certificate directory validation failed: " +:+ exc_str e));
       run emit (EvLog WARNING
                   ("Falling back to default directory: " +:+ DEFAULT_CERT_DIR P));
       ret (DEFAULT_CERT_DIR P)).

(** The nested [_ready] of [pair_bridge], run when the primitive calls it. *)
Definition _ready (ready_callback : option callable) : list event :=
  match ready_callback with
  | Some c => [EvReadyCallback c]
  | None =>
      [EvPrint "Press the small black button on the back of the bridge.";
       EvPrint "You have 30 seconds..."]
  end.

(** [await async_pair(host, _ready)] *)
Definition call_async_pair (host : string) (ready_callback : option callable)
    : M S (gmap string string) :=
  fun s tr =>
    let '(ready, result) := async_pair P host tr in
    (result, s,
     tr ++ EvAsyncPair host :: (if ready then _ready ready_callback else [])).

(** [with open(p, "w") as f: f.write(text())], where evaluating [text]
    may raise; the file is closed on both exits. *)
Definition write_file (p : Path P) (text : M S string) : M S unit :=
  run extern (EvOpen (path_str P p)) (open_w P p);
  fun s tr =>
    let '(r, s1, tr1) :=
      (do t <- text;
       extern (EvWrite (path_str P p) t) (file_write P p t)) s tr in
    let closed := file_close P p tr1 in
    let tr2 := tr1 ++ [EvClose (path_str P p)] in
    match closed with
    | Raise e => (Raise e, s1, tr2)
    | Ok _ => (r, s1, tr2)
    end.

Definition pair_bridge (host output_dir : string)
    (ready_callback : option callable) : M S PairingResult :=
  try_except
    (do data <- call_async_pair host ready_callback;
     do output_path <- extern (EvExpanduser output_dir)
                         (expanduser P (path_new P output_dir));
     run extern (EvMkdir (path_str P output_path)) (mkdir P output_path);
     let ca_path := path_div P output_path "caseta-bridge.crt" in
     let cert_path := path_div P output_path "caseta.crt" in
     let key_path := path_div P output_path "caseta.key" in
     run write_file ca_path (getitem data "ca");
     run write_file cert_path (getitem data "cert");
     run write_file key_path (getitem data "key");
     run extern (EvChmod (path_str P key_path) 384) (chmod P key_path 384);
     do version <- getitem data "version";
     do shown <- extern (EvAbsolute (path_str P output_path))
                   (absolute P output_path);
     let message :=
       "Successfully paired with " +:+ version
       +:+ ". Certificate files saved to: " +:+ path_str P shown in
     do version' <- getitem data "version";
     ret {| success := true;
            message := message;
            data := Some (<["version" := version']>
                           (<["ca_path" := path_str P ca_path]>
                             (<["cert_path" := path_str P cert_path]>
                               (<["key_path" := path_str P key_path]> ∅)))) |})
    [Exception]
    (fun e =>
       ret {| success := false;
              message := "Pairing failed: " +:+ exc_str e;
              data := None |}).

End Pairing.

(** ** server.py *)

Record LutronConfig := {
  cfg_bridge_ip : string;
  cfg_cert_dir : string;
  cfg_key_path : string;
  cfg_cert_path : string;
  cfg_ca_path : string;
}.

Record LutronCasetaManager := {
  bridge_ip : string;
  key_path : string;
  cert_path : string;
  ca_path : string;
  bridge : option handle;
  connected : bool;
}.

Record MCPServerState := {
  config : option LutronConfig;
  caseta_manager : option LutronCasetaManager;
  state_connected : bool;                   (* MCPServerState.connected *)
}.

(** The dict returned by [pair_bridge_tool]; [certificate_files] is [None]
    when the key is absent. *)
Record PairToolResult := {
  pt_success : bool;
  pt_message : string;
  pt_status : string;
  pt_connected : bool;
  pt_certificate_files : option (option (gmap string string));
}.

(** The dict returned by the device tools; [dr_level] is [None] when the
    key is absent. *)
Record DeviceResult := {
  dr_device_id : string;
  dr_action : string;
  dr_level : option pyint;
  dr_success : bool;
}.

(** [os.path.join(a, b)] of posixpath. *)
Definition os_path_join (a b : string) : string :=
  match b with
  | String "/" _ => b
  | _ =>
      match String.rev a with
      | EmptyString => b
      | String "/" _ => a +:+ b
      | _ => a +:+ "/" +:+ b
      end
  end.

(** [LutronCasetaManager.__init__] *)
Definition new_manager (bridge_ip key_path cert_path ca_path : string)
    : LutronCasetaManager :=
  {| bridge_ip := bridge_ip; key_path := key_path; cert_path := cert_path;
     ca_path := ca_path; bridge := None; connected := false |}.

Definition set_bridge (b : handle) (m : LutronCasetaManager) :=
  {| bridge_ip := bridge_ip m; key_path := key_path m;
     cert_path := cert_path m; ca_path := ca_path m;
     bridge := Some b; connected := connected m |}.

Definition set_connected (c : bool) (m : LutronCasetaManager) :=
  {| bridge_ip := bridge_ip m; key_path := key_path m;
     cert_path := cert_path m; ca_path := ca_path m;
     bridge := bridge m; connected := c |}.

Definition not_connected_msg : string := "Not connected to Lutron Caseta bridge".

Section Manager.

Variable P : Platform.

Definition connect : M LutronCasetaManager bool :=
  try_except
    (do self <- get;
     do b <- extern
               (EvCreateTls (bridge_ip self) (key_path self)
                  (cert_path self) (ca_path self))
               (create_tls P (bridge_ip self) (key_path self)
                  (cert_path self) (ca_path self));
     run put (set_bridge b self);
     run extern (EvConnect b) (bridge_connect P b);
     do self <- get;
     run put (set_connected true self);
     ret true)
    [Exception]
    (fun e =>
       run emit (EvLog ERROR
                   ("Failed to connect to Lutron Caseta bridge: " +:+ exc_str e));
       ret false).

Definition disconnect : M LutronCasetaManager unit :=
  do self <- get;
  match bridge self with
  | Some b =>
      if connected self then
        run extern (EvCloseBridge b) (bridge_close P b);
        do self <- get;
        put (set_connected false self)
      else ret tt
  | None => ret tt
  end.

(** The guard shared by the device operations:
    [if not self.connected or not self.bridge: raise RuntimeError(...)]. *)
Definition guarded {A} (op : handle -> M LutronCasetaManager A)
    : M LutronCasetaManager A :=
  do self <- get;
  if negb (connected self) then throw RuntimeError not_connected_msg
  else
    match bridge self with
    | None => throw RuntimeError not_connected_msg
    | Some b => op b
    end.

Definition get_devices_by_domain (domain : string)
    : M LutronCasetaManager (list device) :=
  guarded (fun b =>
    do devices <- extern (EvGetDevices b domain) (bridge_get_devices P b domain);
    ret (default [] devices)).

Definition turn_on (device_id : string) : M LutronCasetaManager bool :=
  guarded (fun b =>
    try_except
      (run extern (EvTurnOn b device_id) (bridge_turn_on P b device_id);
       ret true)
      [Exception]
      (fun e =>
         run emit (EvLog ERROR
                     ("Failed to turn on device " +:+ device_id +:+ ": "
                      +:+ exc_str e));
         ret false)).

Definition turn_off (device_id : string) : M LutronCasetaManager bool :=
  guarded (fun b =>
    try_except
      (run extern (EvTurnOff b device_id) (bridge_turn_off P b device_id);
       ret true)
      [Exception]
      (fun e =>
         run emit (EvLog ERROR
                     ("Failed to turn off device " +:+ device_id +:+ ": "
                      +:+ exc_str e));
         ret false)).

Definition set_level (device_id : string) (level : pyint)
    : M LutronCasetaManager bool :=
  guarded (fun b =>
    if negb ((0 <=? int_value level)%Z && (int_value level <=? 100)%Z) then
      throw ValueError "Level must be between 0 and 100"
    else
      try_except
        (run extern (EvSetValue b device_id level)
               (bridge_set_value P b device_id level);
         ret true)
        [Exception]
        (fun e =>
           run emit (EvLog ERROR
                       ("Failed to set value for device " +:+ device_id
                        +:+ ": " +:+ exc_str e));
           ret false)).

End Manager.

(** The module-level [server_state: MCPServerState | None]. *)
Definition Global := option MCPServerState.

Definition set_config (c : option LutronConfig) (st : MCPServerState) :=
  {| config := c; caseta_manager := caseta_manager st;
     state_connected := state_connected st |}.

Definition set_caseta_manager (m : option LutronCasetaManager)
    (st : MCPServerState) :=
  {| config := config st; caseta_manager := m;
     state_connected := state_connected st |}.

Definition set_state_connected (c : bool) (st : MCPServerState) :=
  {| config := config st; caseta_manager := caseta_manager st;
     state_connected := c |}.

Definition set_cfg_bridge_ip (ip : string) (c : LutronConfig) :=
  {| cfg_bridge_ip := ip; cfg_cert_dir := cfg_cert_dir c;
     cfg_key_path := cfg_key_path c; cfg_cert_path := cfg_cert_path c;
     cfg_ca_path := cfg_ca_path c |}.

(** Run a method on an object held in a field of the state; an attribute
    access on [None] raises [AttributeError]. *)
Definition zoom {S T A} (field : S -> option T) (update : T -> S -> S)
    (m : M T A) : M S A :=
  fun s tr =>
    match field s with
    | Some t => let '(r, t', tr') := m t tr in (r, update t' s, tr')
    | None =>
        (raise_new AttributeError "'NoneType' object has no attribute", s, tr)
    end.

(** A method of the global [server_state]. *)
Definition on_state {A} (m : M MCPServerState A) : M Global A :=
  zoom (fun g => g) (fun st _ => Some st) m.

(** A method of [server_state.caseta_manager]. *)
Definition on_manager {A} (m : M LutronCasetaManager A) : M Global A :=
  on_state (zoom caseta_manager (fun mg st => set_caseta_manager (Some mg) st) m).

Definition tool_not_connected_msg : string :=
  "Not connected to Lutron Caseta bridge. Use pair_bridge tool first.".

Section Tools.

Variable P : Platform.

(** [LutronConfig.from_env] *)
Definition from_env {S} : M S LutronConfig :=
  do cert_dir <- get_cert_dir P;
  do ip <- extern (EvGetenv "LUTRON_BRIDGE_IP")
             (fun tr => Ok (getenv P "LUTRON_BRIDGE_IP" tr));
  ret {| cfg_bridge_ip := default "" ip;
         cfg_cert_dir := cert_dir;
         cfg_key_path := os_path_join cert_dir "caseta.key";
         cfg_cert_path := os_path_join cert_dir "caseta.crt";
         cfg_ca_path := os_path_join cert_dir "caseta-bridge.crt" |}.

(** [MCPServerState.update_config] *)
Definition update_config (bridge_ip : string) : M MCPServerState bool :=
  do self <- get;
  run match config self with
      | None =>
          do c <- from_env;
          do self <- get;
          put (set_config (Some c) self)
      | Some _ => ret tt
      end;
  run zoom config (fun c st => set_config (Some c) st)
        (do c <- get; put (set_cfg_bridge_ip bridge_ip c));
  ret true.

Definition ready_callback : callable := Callable "ready_callback".

Definition pair_bridge_tool (host : string) : M Global PairToolResult :=
  do checked <-
    try_except
      (do host <- lift (validate_host_ip (ip_address P) host);
       ret (inl host))
      [ValidationError]
      (fun e =>
         ret (inr {| pt_success := false;
                     pt_message := "❌ INVALID INPUT: " +:+ exc_str e;
                     pt_status := "Please provide a valid IP address for your Lutron Caseta bridge.";
                     pt_connected := false;
                     pt_certificate_files := None |}));
  match checked with
  | inr result => ret result
  | inl host =>
      do server_state <- get;
      match server_state with
      | None =>
          ret {| pt_success := false;
                 pt_message := "❌ ERROR: Server state not initialized";
                 pt_status := "Internal server error. Please restart the MCP server.";
                 pt_connected := false;
                 pt_certificate_files := None |}
      | Some _ =>
          do cert_dir <- get_cert_dir P;
          try_except
            (do result <- pair_bridge P host cert_dir (Some ready_callback);
             if success result then
               run on_state (update_config host);
               let key_path := os_path_join cert_dir "caseta.key" in
               let cert_path := os_path_join cert_dir "caseta.crt" in
               let ca_path := os_path_join cert_dir "caseta-bridge.crt" in
               run on_state
                     (do st <- get;
                      put (set_caseta_manager
                             (Some (new_manager host key_path cert_path ca_path))
                             st));
               do connected <- on_manager (connect P);
               run on_state
                     (do st <- get; put (set_state_connected connected st));
               ret {| pt_success := true;
                      pt_message :=
                        "✅ SUCCESS: Bridge paired successfully! "
                        +:+ message result;
                      pt_status := "Your Lutron Caseta bridge is now connected and ready to control lights.";
                      pt_connected := connected;
                      pt_certificate_files := Some (data result) |}
             else
               ret {| pt_success := false;
                      pt_message := "❌ FAILED: " +:+ message result;
                      pt_status := "Pairing failed. Please try again and make sure to press the small black button on the back of your bridge when the pairing starts.";
                      pt_connected := false;
                      pt_certificate_files := None |})
            [Exception]
            (fun e =>
               ret {| pt_success := false;
                      pt_message :=
                        "❌ ERROR: Pairing process failed with error: "
                        +:+ exc_str e;
                      pt_status := "An unexpected error occurred. Please check that your bridge IP is correct and try again.";
                      pt_connected := false;
                      pt_certificate_files := None |})
      end
  end.

(** The first statement of every device tool:
    [if not server_state or not server_state.caseta_manager
        or not server_state.connected: raise RuntimeError(...)]. *)
Definition require_connection : M Global unit :=
  do server_state <- get;
  match server_state with
  | None => throw RuntimeError tool_not_connected_msg
  | Some st =>
      match caseta_manager st with
      | None => throw RuntimeError tool_not_connected_msg
      | Some _ =>
          if negb (state_connected st)
          then throw RuntimeError tool_not_connected_msg
          else ret tt
      end
  end.

(** [try: v = validate(x)  except ValidationError as e:
         raise ValueError(str(e)) from e] *)
Definition revalidate {A} (checked : outcome A) : M Global A :=
  try_except (lift checked) [ValidationError]
    (fun e => throw ValueError (exc_str e)).

Definition list_devices (domain : string) : M Global (list device) :=
  run require_connection;
  do domain <- revalidate (validate_domain domain);
  do devices <- on_manager (get_devices_by_domain P domain);
  ret devices.

Definition turn_on_device (device_id : string) : M Global DeviceResult :=
  run require_connection;
  do ok <- on_manager (turn_on P device_id);
  ret {| dr_device_id := device_id; dr_action := "turn_on";
         dr_level := None; dr_success := ok |}.

Definition turn_off_device (device_id : string) : M Global DeviceResult :=
  run require_connection;
  do ok <- on_manager (turn_off P device_id);
  ret {| dr_device_id := device_id; dr_action := "turn_off";
         dr_level := None; dr_success := ok |}.

Definition set_device_level (device_id : string) (level : pyval)
    : M Global DeviceResult :=
  run require_connection;
  do level <- revalidate (validate_device_level level);
  do ok <- on_manager (set_level P device_id level);
  ret {| dr_device_id := device_id; dr_action := "set_level";
         dr_level := Some level; dr_success := ok |}.

End Tools.

(** ** A concrete platform

    Paths are kept as the text handed to [Path]; the only addresses known
    are dotted quads.  The answers of the pairing primitive and of the
    bridge client are chosen by the caller. *)

Module Demo.

Fixpoint split_on (sep : ascii) (s : string) : list string :=
  match s with
  | EmptyString => [EmptyString]
  | String c rest =>
      if Ascii.eqb c sep then EmptyString :: split_on sep rest
      else
        match split_on sep rest with
        | [] => [String c EmptyString]
        | part :: parts => String c part :: parts
        end
  end.

Fixpoint digits_value (acc : N) (s : string) : option N :=
  match s with
  | EmptyString => Some acc
  | String c rest =>
      if PyStr.byte_in 48 57 c
      then digits_value (acc * 10 + (N_of_ascii c - 48))%N rest
      else None
  end.

Definition octet (s : string) : bool :=
  match s with
  | EmptyString => false
  | String "0" (String _ _) => false
  | _ =>
      (String.length s <=? 3)%nat
      && match digits_value 0%N s with
         | Some n => (n <=? 255)%N
         | None => false
         end
  end.

Definition dotted_quad (s : string) : bool :=
  match split_on "." s with
  | [a; b; c; d] => octet a && octet b && octet c && octet d
  | _ => false
  end.

Fixpoint starts_with (prefix s : string) : bool :=
  match prefix, s with
  | EmptyString, _ => true
  | String a p', String b s' => Ascii.eqb a b && starts_with p' s'
  | String _ _, EmptyString => false
  end.

Definition bundle : gmap string string :=
  <["ca" := "mock ca certificate"]>
    (<["cert" := "mock client certificate"]>
      (<["key" := "mock private key"]>
        (<["version" := "1.0.0"]> ∅))).

Definition platform
    (pairing : bool * outcome (gmap string string))
    (connecting closing : outcome unit) : Platform :=
  {| Path := string;
     path_new := fun s => s;
     path_div := fun p name => p +:+ "/" +:+ name;
     path_str := fun p => p;
     path_is_relative_to := fun p q => starts_with q p;
     ip_address := dotted_quad;
     DEFAULT_CERT_DIR := "/home/user/.config/lutron-caseta-mcp";
     async_pair := fun _ _ => pairing;
     getenv := fun _ _ => None;
     expanduser := fun p _ => Ok p;
     resolve := fun p _ => Ok p;
     home := fun _ => Ok "/home/user";
     gettempdir := fun _ => Ok "/tmp";
     absolute := fun p _ => Ok p;
     mkdir := fun _ _ => Ok tt;
     open_w := fun _ _ => Ok tt;
     file_write := fun _ _ _ => Ok tt;
     file_close := fun _ _ => Ok tt;
     chmod := fun _ _ _ => Ok tt;
     create_tls := fun _ _ _ _ _ => Ok 1%nat;
     bridge_connect := fun _ _ => connecting;
     bridge_close := fun _ _ => closing;
     bridge_get_devices := fun _ _ _ => Ok None;
     bridge_turn_on := fun _ _ _ => Ok tt;
     bridge_turn_off := fun _ _ _ => Ok tt;
     bridge_set_value := fun _ _ _ _ => Ok tt |}.

(** Everything succeeds. *)
Definition happy : Platform := platform (true, Ok bundle) (Ok tt) (Ok tt).

(** The pairing primitive times out. *)
Definition timeout : Platform :=
  platform (true, Raise (RaiseOf Exception "Pairing timeout")) (Ok tt) (Ok tt).

(** The environment names a certificate directory outside the home and
    the temporary directory. *)
Definition stray : Platform :=
  {| Path := string;
     path_new := fun s => s;
     path_div := fun p name => p +:+ "/" +:+ name;
     path_str := fun p => p;
     path_is_relative_to := fun p q => starts_with q p;
     ip_address := dotted_quad;
     DEFAULT_CERT_DIR := "/home/user/.config/lutron-caseta-mcp";
     async_pair := fun _ _ => (true, Ok bundle);
     getenv := fun name _ =>
       if String.eqb name "LUTRON_CERT_DIR" then Some "/etc/ssl"
       else if String.eqb name "LUTRON_BRIDGE_IP" then Some " 192.168.1.100 "
       else None;
     expanduser := fun p _ => Ok p;
     resolve := fun p _ => Ok p;
     home := fun _ => Ok "/home/user";
     gettempdir := fun _ => Ok "/tmp";
     absolute := fun p _ => Ok p;
     mkdir := fun _ _ => Ok tt;
     open_w := fun _ _ => Ok tt;
     file_write := fun _ _ _ => Ok tt;
     file_close := fun _ _ => Ok tt;
     chmod := fun _ _ _ => Ok tt;
     create_tls := fun _ _ _ _ _ => Ok 1%nat;
     bridge_connect := fun _ _ => Ok tt;
     bridge_close := fun _ _ => Ok tt;
     bridge_get_devices := fun _ _ _ => Ok None;
     bridge_turn_on := fun _ _ _ => Raise (RaiseOf OSError "bridge busy");
     bridge_turn_off := fun _ _ _ => Ok tt;
     bridge_set_value := fun _ _ _ _ => Ok tt |}.

(** The client certificate file cannot be opened for writing. *)
Definition read_only_cert : Platform :=
  {| Path := string;
     path_new := fun s => s;
     path_div := fun p name => p +:+ "/" +:+ name;
     path_str := fun p => p;
     path_is_relative_to := fun p q => starts_with q p;
     ip_address := dotted_quad;
     DEFAULT_CERT_DIR := "/home/user/.config/lutron-caseta-mcp";
     async_pair := fun _ _ => (false, Ok bundle);
     getenv := fun _ _ => None;
     expanduser := fun p _ => Ok p;
     resolve := fun p _ => Ok p;
     home := fun _ => Ok "/home/user";
     gettempdir := fun _ => Ok "/tmp";
     absolute := fun p _ => Ok p;
     mkdir := fun _ _ => Ok tt;
     open_w := fun p _ =>
       if String.eqb p "/tmp/certs/caseta.crt"
       then Raise (RaiseOf OSError "Permission denied") else Ok tt;
     file_write := fun _ _ _ => Ok tt;
     file_close := fun _ _ => Ok tt;
     chmod := fun _ _ _ => Ok tt;
     create_tls := fun _ _ _ _ _ => Ok 1%nat;
     bridge_connect := fun _ _ => Ok tt;
     bridge_close := fun _ _ => Ok tt;
     bridge_get_devices := fun _ _ _ => Ok None;
     bridge_turn_on := fun _ _ _ => Ok tt;
     bridge_turn_off := fun _ _ _ => Ok tt;
     bridge_set_value := fun _ _ _ _ => Ok tt |}.

(** The environment names a certificate directory under the temporary
    directory. *)
Definition configured : Platform :=
  {| Path := string;
     path_new := fun s => s;
     path_div := fun p name => p +:+ "/" +:+ name;
     path_str := fun p => p;
     path_is_relative_to := fun p q => starts_with q p;
     ip_address := dotted_quad;
     DEFAULT_CERT_DIR := "/home/user/.config/lutron-caseta-mcp";
     async_pair := fun _ _ => (true, Ok bundle);
     getenv := fun name _ =>
       if String.eqb name "LUTRON_CERT_DIR" then Some "/tmp/test_certs"
       else None;
     expanduser := fun p _ => Ok p;
     resolve := fun p _ => Ok p;
     home := fun _ => Ok "/home/user";
     gettempdir := fun _ => Ok "/tmp";
     absolute := fun p _ => Ok p;
     mkdir := fun _ _ => Ok tt;
     open_w := fun _ _ => Ok tt;
     file_write := fun _ _ _ => Ok tt;
     file_close := fun _ _ => Ok tt;
     chmod := fun _ _ _ => Ok tt;
     create_tls := fun _ _ _ _ _ => Ok 1%nat;
     bridge_connect := fun _ _ => Ok tt;
     bridge_close := fun _ _ => Ok tt;
     bridge_get_devices := fun _ _ _ => Ok None;
     bridge_turn_on := fun _ _ _ => Ok tt;
     bridge_turn_off := fun _ _ _ => Ok tt;
     bridge_set_value := fun _ _ _ _ => Ok tt |}.

(** The bridge refuses the connection. *)
Definition refused : Platform :=
  platform (true, Ok bundle) (Raise (RaiseOf OSError "Connection failed"))
    (Ok tt).

(** What a pairing run into [/tmp/certs] returns and does on [happy]. *)
Definition paired : PairingResult :=
  {| success := true;
     message := "Successfully paired with 1.0.0. Certificate files saved to: /tmp/certs";
     data := Some (<["version" := "1.0.0"]>
                    (<["ca_path" := "/tmp/certs/caseta-bridge.crt"]>
                      (<["cert_path" := "/tmp/certs/caseta.crt"]>
                        (<["key_path" := "/tmp/certs/caseta.key"]> ∅)))) |}.

Definition paired_trace : trace :=
  [EvAsyncPair "192.168.1.100";
   EvPrint "Press the small black button on the back of the bridge.";
   EvPrint "You have 30 seconds...";
   EvExpanduser "/tmp/certs"; EvMkdir "/tmp/certs";
   EvOpen "/tmp/certs/caseta-bridge.crt";
   EvWrite "/tmp/certs/caseta-bridge.crt" "mock ca certificate";
   EvClose "/tmp/certs/caseta-bridge.crt";
   EvOpen "/tmp/certs/caseta.crt";
   EvWrite "/tmp/certs/caseta.crt" "mock client certificate";
   EvClose "/tmp/certs/caseta.crt";
   EvOpen "/tmp/certs/caseta.key";
   EvWrite "/tmp/certs/caseta.key" "mock private key";
   EvClose "/tmp/certs/caseta.key";
   EvChmod "/tmp/certs/caseta.key" 384;
   EvAbsolute "/tmp/certs"].

Definition manager : LutronCasetaManager :=
  new_manager "192.168.1.100" "/path/to/key" "/path/to/cert" "/path/to/ca".

Definition connected_manager : LutronCasetaManager :=
  set_connected true (set_bridge 1%nat manager).

Definition connected_state : Global :=
  Some {| config := None; caseta_manager := Some connected_manager;
          state_connected := true |}.

Definition idle_state : Global :=
  Some {| config := None; caseta_manager := None; state_connected := false |}.

End Demo.

(** ** Vocabulary of the properties *)

(** The events a run added to the trace it started from. *)
Definition added (before after : trace) : list event :=
  drop (List.length before) after.

(** An answer that, when it is an exception, is an instance of [Exception]
    (not a bare [BaseException] such as a task cancellation). *)
Definition raises_only_exceptions {A} (o : outcome A) : Prop :=
  forall e, o = Raise e -> isinstance_exc e Exception = true.

(** What the methods of [LutronCasetaManager] maintain: [connected] is set
    only after [bridge] is. *)
Definition manager_inv (m : LutronCasetaManager) : Prop :=
  connected m = true -> is_Some (bridge m).

(** A failed call as the caller sees it: the malformed-request failure of
    the tools is a [ValueError], the state failure a [RuntimeError]. *)
Definition is_validation_failure {A} (o : outcome A) : bool :=
  match o with
  | Raise e => isinstance_exc e ValueError
  | Ok _ => false
  end.

Definition is_not_connected_failure {A} (o : outcome A) : bool :=
  match o with
  | Raise e => isinstance_exc e RuntimeError
  | Ok _ => false
  end.

(** The global state in which the device tools pass their first check. *)
Definition tool_connected (g : Global) : bool :=
  match g with
  | Some st =>
      match caseta_manager st with
      | Some _ => state_connected st
      | None => false
      end
  | None => false
  end.

(** The value returned or the exception raised by a run. *)
Definition result_of {S A} (ran : outcome A * S * trace) : outcome A :=
  fst (fst ran).

(** The persist step as the specification words it: make the directory,
    then write the CA certificate, the client certificate and the private
    key, then restrict the key file to its owner. *)
Definition persist_events (P : Platform) (output_dir : string)
    (output_path : Path P) (ca cert key : string) : list event :=
  let ca_path := path_str P (path_div P output_path "caseta-bridge.crt") in
  let cert_path := path_str P (path_div P output_path "caseta.crt") in
  let key_path := path_str P (path_div P output_path "caseta.key") in
  [EvExpanduser output_dir; EvMkdir (path_str P output_path);
   EvOpen ca_path; EvWrite ca_path ca; EvClose ca_path;
   EvOpen cert_path; EvWrite cert_path cert; EvClose cert_path;
   EvOpen key_path; EvWrite key_path key; EvClose key_path;
   EvChmod key_path 384].

(** A filesystem on which the successful events of a trace are replayed:
    directories, and files with their text and permission bits. *)
Record file := { content : string; mode : Z }.

Record filesystem := {
  dirs : gset string;
  files : gmap string file;
}.

Definition fs_step (create_mode : Z) (fs : filesystem) (ev : event)
    : filesystem :=
  match ev with
  | EvMkdir p => {| dirs := {[p]} ∪ dirs fs; files := files fs |}
  | EvOpen p =>
      let m := match files fs !! p with
               | Some f => mode f
               | None => create_mode
               end in
      {| dirs := dirs fs;
         files := <[p := {| content := ""; mode := m |}]> (files fs) |}
  | EvWrite p t =>
      match files fs !! p with
      | Some f =>
          {| dirs := dirs fs;
             files := <[p := {| content := content f +:+ t; mode := mode f |}]>
                        (files fs) |}
      | None => fs
      end
  | EvChmod p m =>
      match files fs !! p with
      | Some f =>
          {| dirs := dirs fs;
             files := <[p := {| content := content f; mode := m |}]> (files fs) |}
      | None => fs
      end
  | _ => fs
  end.

Definition fs_run (create_mode : Z) (fs : filesystem) (evs : list event)
    : filesystem :=
  fold_left (fs_step create_mode) evs fs.

(** A filesystem and a pathlib that answer every request of the persist
    step. *)
Definition persist_reliable (P : Platform) : Prop :=
  (forall p t, exists q, expanduser P p t = Ok q)
  /\ (forall p t, exists q, absolute P p t = Ok q)
  /\ (forall p t, mkdir P p t = Ok tt)
  /\ (forall p t, open_w P p t = Ok tt)
  /\ (forall p x t, file_write P p x t = Ok tt)
  /\ (forall p t, file_close P p t = Ok tt)
  /\ (forall p m t, chmod P p m t = Ok tt).

(** ** The remaining functions of the three modules

    Existence tests read the filesystem and leave no event; they are
    answered on a [filesystem] value, the one a trace is replayed on. *)

(** [Path.exists()] *)
Definition fs_exists (fs : filesystem) (p : string) : bool :=
  bool_decide (is_Some (files fs !! p)) || bool_decide (p ∈ dirs fs).

(** [MCPServerState.__init__] *)
Definition new_server_state : MCPServerState :=
  {| config := None; caseta_manager := None; state_connected := false |}.

(** [LutronConfig.is_complete] *)
Definition is_complete (c : LutronConfig) : bool :=
  PyStr.truthy (cfg_bridge_ip c) && PyStr.truthy (cfg_cert_dir c).

(** The dict returned by [check_connection]. *)
Record ConnectionStatus := {
  cs_bridge_ip : string;
  cs_cert_dir : string;
  cs_certificates : gmap string bool;
  cs_connected : bool;
}.

Section Rest.

Variable P : Platform.

(** validation.py, [validate_environment_variable] *)
Definition validate_environment_variable {S} (var_name : string)
    (required : bool) : M S (option string) :=
  if negb (PyStr.truthy var_name) || negb (PyStr.truthy (PyStr.strip var_name))
  then throw ValidationError "Environment variable name cannot be empty"
  else
    do value <- extern (EvGetenv var_name)
                  (fun tr => Ok (getenv P var_name tr));
    match value with
    | None =>
        if required then
          throw ValidationError
            ("Required environment variable not set: " +:+ var_name)
        else ret None
    | Some value =>
        let value := PyStr.strip value in
        if negb (PyStr.truthy value) && required then
          throw ValidationError
            ("Required environment variable cannot be empty: " +:+ var_name)
        else ret (if PyStr.truthy value then Some value else None)
    end.

(** pairing.py, [check_certificates] *)
Definition check_certificates {S} (fs : filesystem) (cert_dir : string)
    : M S (gmap string bool) :=
  do cert_path <- extern (EvExpanduser cert_dir)
                    (expanduser P (path_new P cert_dir));
  ret (<["ca" := fs_exists fs
                   (path_str P (path_div P cert_path "caseta-bridge.crt"))]>
        (<["cert" := fs_exists fs
                       (path_str P (path_div P cert_path "caseta.crt"))]>
          (<["key" := fs_exists fs
                        (path_str P (path_div P cert_path "caseta.key"))]> ∅))).

(** pairing.py, [certificates_exist]: [all(certs.values())] *)
Definition certificates_exist {S} (fs : filesystem) (cert_dir : string)
    : M S bool :=
  do certs <- check_certificates fs cert_dir;
  ret (bool_decide (map_Forall (fun _ present => present = true) certs)).

(** [MCPServerState.initialize] *)
Definition initialize (fs : filesystem) : M MCPServerState bool :=
  do c <- from_env P;
  do self <- get;
  run put (set_config (Some c) self);
  if negb (is_complete c) then
    run emit (EvLog WARNING "LUTRON_BRIDGE_IP environment variable not set");
    run emit (EvLog WARNING
                "Bridge connection will not be established. Use pair_bridge tool to configure.");
    ret false
  else
    do present <- certificates_exist fs (cfg_cert_dir c);
    if negb present then
      run emit (EvLog WARNING
                  ("Certificate files not found in " +:+ cfg_cert_dir c));
      run emit (EvLog WARNING
                  "Use the pair_bridge tool or run the standalone pairing utility first.");
      ret false
    else
      do self <- get;
      run put (set_caseta_manager
                 (Some (new_manager (cfg_bridge_ip c) (cfg_key_path c)
                          (cfg_cert_path c) (cfg_ca_path c)))
                 self);
      do ok <- zoom caseta_manager
                 (fun mg st => set_caseta_manager (Some mg) st) (connect P);
      do self <- get;
      run put (set_state_connected ok self);
      run (if ok then
             emit (EvLog INFO
                     ("Connected to Lutron Caseta bridge at " +:+ cfg_bridge_ip c))
           else emit (EvLog ERROR "Failed to connect to Lutron Caseta bridge"));
      ret ok.

(** [MCPServerState.cleanup] *)
Definition cleanup : M MCPServerState unit :=
  do self <- get;
  run match caseta_manager self with
      | Some _ =>
          run zoom caseta_manager
                (fun mg st => set_caseta_manager (Some mg) st) (disconnect P);
          emit (EvLog INFO "Disconnected from Lutron Caseta bridge")
      | None => ret tt
      end;
  do self <- get;
  put (set_state_connected false self).

(** The tool [check_connection] *)
Definition check_connection (fs : filesystem) : M Global ConnectionStatus :=
  do ip <- extern (EvGetenv "LUTRON_BRIDGE_IP")
             (fun tr => Ok (getenv P "LUTRON_BRIDGE_IP" tr));
  let current_bridge_ip := default "" ip in
  do current_cert_dir <- get_cert_dir P;
  do cert_status <- check_certificates fs current_cert_dir;
  do server_state <- get;
  ret {| cs_bridge_ip := current_bridge_ip;
         cs_cert_dir := current_cert_dir;
         cs_certificates := cert_status;
         cs_connected := match server_state with
                         | Some st => state_connected st
                         | None => false
                         end |}.

End Rest.

(** What the operations on the global state maintain: the server counts as
    connected only while it holds a manager that is itself connected to a
    session. *)
Definition server_inv (g : Global) : Prop :=
  match g with
  | Some st =>
      state_connected st = true ->
      exists mg, caseta_manager st = Some mg
                 /\ connected mg = true /\ is_Some (bridge mg)
  | None => True
  end.

(** Every byte of a text passes a test. *)
Fixpoint all_bytes (test : ascii -> bool) (s : string) : bool :=
  match s with
  | EmptyString => true
  | String c s' => test c && all_bytes test s'
  end.

(** An ASCII byte that is not whitespace. *)
Definition plain_byte (c : ascii) : bool :=
  negb (PyStr.ws1 c) && (N_of_ascii c <? 128)%N.

(** An ASCII letter. *)
Definition letter_byte (c : ascii) : bool :=
  PyStr.byte_in 65 90 c || PyStr.byte_in 97 122 c.

(** A lower-case ASCII letter other than k, the one lower-case ASCII
    letter that is also the lowercase form of a character beyond ASCII
    (the Kelvin sign, U+212A).  No domain has a k. *)
Definition domain_byte (c : ascii) : bool :=
  PyStr.byte_in 97 122 c && negb (PyStr.byte_is 107 c).

(** An ASCII letter, as a character of a text. *)
Definition letter_item (i : PyStr.item) : Prop :=
  match i with
  | PyStr.Char c => (65 <= c <= 90 \/ 97 <= c <= 122)%N
  | PyStr.Stray b => letter_byte b = true
  end.

(** A run of the lowercase table that maps no character beyond A-Z to a
    lower-case ASCII letter other than k. *)
Definition run_plain (r : N * N * N * N) : bool :=
  let '(first, last, _, target) := r in
  ((122 <? target) || ((65 <=? first) && (last <=? 90))
   || ((first =? last) && (target =? 107)))%N.

(** A computation that leaves the state it runs on as it was. *)
Definition stateless {S A} (m : M S A) : Prop :=
  forall s tr o s' tr', m s tr = (o, s', tr') -> s' = s.

(** The state a run ends in. *)
Definition state_of {S A} (ran : outcome A * S * trace) : S :=
  snd (fst ran).

(** The log line of an operation that failed, none when it succeeded. *)
Definition failure_log {A} (render : string -> string) (answer : outcome A)
    : list event :=
  match answer with
  | Ok _ => []
  | Raise e => [EvLog ERROR (render (exc_str e))]
  end.

(** Whether an answer is a value. *)
Definition succeeded {A} (answer : outcome A) : bool :=
  match answer with
  | Ok _ => true
  | Raise _ => false
  end.

(** What [LutronConfig.from_env] establishes: the three paths are the
    certificate directory joined with the fixed file names. *)
Definition config_inv (c : LutronConfig) : Prop :=
  cfg_key_path c = os_path_join (cfg_cert_dir c) "caseta.key"
  /\ cfg_cert_path c = os_path_join (cfg_cert_dir c) "caseta.crt"
  /\ cfg_ca_path c = os_path_join (cfg_cert_dir c) "caseta-bridge.crt".

(** * Properties *)

Example strip_ex1 : PyStr.strip "  192.168.1.1  " = "192.168.1.1".
Proof. reflexivity. Qed.

Example lower_ex :
  PyStr.lower "Switch" = "switch"
  /\ PyStr.lower "LÜFTER" = "lüfter"
  /\ PyStr.lower "İstanbul" = "i̇stanbul"
  /\ PyStr.lower "ΟΔΟΣ ΣΟΦΟΣ" = "οδος σοφος".
Proof. vm_compute. repeat split. Qed.

Example sorted_ex :
  sorted valid_domains = ["cover"; "fan"; "light"; "sensor"; "switch"].
Proof. reflexivity. Qed.

Example quad_ex :
  Demo.dotted_quad "192.168.1.100" = true
  /\ Demo.dotted_quad "256.256.256.256" = false
  /\ Demo.dotted_quad "192.168.1" = false
  /\ Demo.dotted_quad "invalid.ip" = false.
Proof. repeat split; reflexivity. Qed.

Example level_150 :
  validate_device_level (PyInt (IntObj 150))
  = raise_new ValidationError "Device level must be between 0 and 100, got 150".
Proof. reflexivity. Qed.

Example level_str :
  validate_device_level (PyStr "50")
  = raise_new ValidationError "Device level must be an integer, got str".
Proof. reflexivity. Qed.

Example domain_upper : validate_domain "  SWITCH " = Ok "switch".
Proof. reflexivity. Qed.

Example domain_bad :
  validate_domain "lights"
  = raise_new ValidationError
      "Invalid domain 'lights'. Valid domains are: cover, fan, light, sensor, switch".
Proof. reflexivity. Qed.

Example pair_happy :
  pair_bridge Demo.happy "192.168.1.100" "/tmp/certs" None tt []
  = (Ok Demo.paired, tt, Demo.paired_trace).
Proof. vm_compute. reflexivity. Qed.

(** ** Text lemmas *)

Module PyStrFacts.
Import PyStr.

Lemma app_cons c s t : String c s +:+ t = String c (s +:+ t).
Proof. reflexivity. Qed.

Lemma app_nil_l s : "" +:+ s = s.
Proof. reflexivity. Qed.

Lemma app_nil_r s : s +:+ "" = s.
Proof. induction s as [|c s IH]; [reflexivity|]. by rewrite app_cons, IH. Qed.

Lemma app_assoc a b c : (a +:+ b) +:+ c = a +:+ (b +:+ c).
Proof.
  induction a as [|x a IH]; [reflexivity|]. by rewrite !app_cons, IH.
Qed.

Lemma app_eq_nil a b : a +:+ b = "" -> a = "" /\ b = "".
Proof. destruct a; [auto|discriminate]. Qed.

Lemma rev_app_spec s acc : String.rev_app s acc = String.rev s +:+ acc.
Proof.
  revert acc. induction s as [|c s IH]; intros acc; [reflexivity|].
  unfold String.rev. simpl. rewrite (IH (String c acc)), (IH (String c "")).
  by rewrite app_assoc.
Qed.

Lemma rev_cons c s : String.rev (String c s) = String.rev s +:+ String c "".
Proof. unfold String.rev at 1. simpl. apply rev_app_spec. Qed.

Lemma rev_app a b : String.rev (a +:+ b) = String.rev b +:+ String.rev a.
Proof.
  induction a as [|c a IH]; [by rewrite app_nil_l, app_nil_r|].
  by rewrite app_cons, !rev_cons, IH, app_assoc.
Qed.

Lemma rev_involutive s : String.rev (String.rev s) = s.
Proof.
  induction s as [|c s IH]; [reflexivity|].
  by rewrite rev_cons, rev_app, IH.
Qed.

Lemma rev_eq_nil s : String.rev s = "" -> s = "".
Proof. intros H. by rewrite <- (rev_involutive s), H. Qed.

Ltac byte_facts :=
  unfold ws1, ws2, ws3, byte_in, byte_is in *;
  repeat match goal with
    | H : _ && _ = true |- _ => apply andb_true_iff in H; destruct H
    | H : _ || _ = true |- _ => apply orb_true_iff in H; destruct H
    | H : (_ <=? _)%N = true |- _ => apply N.leb_le in H
    | H : (_ =? _)%N = true |- _ => apply N.eqb_eq in H
    end.

(** Close a goal [b = false] that the byte ranges in context force. *)
Ltac byte_false :=
  match goal with
  | |- ?b = false =>
      let E := fresh "E" in
      destruct b eqn:E; [exfalso; byte_facts; lia|reflexivity]
  end.

Lemma ws2_not_ws1 c d : ws2 c d = true -> ws1 c = false.
Proof. intros H. byte_false. Qed.

Lemma ws3_not_ws1 c d e : ws3 c d e = true -> ws1 c = false.
Proof. intros H. byte_false. Qed.

Lemma ws3_not_ws2 c d e : ws3 c d e = true -> ws2 c d = false.
Proof. intros H. byte_false. Qed.

Lemma ws2_rev_not_ws1 c d : ws2 c d = true -> ws1 d = false.
Proof. intros H. byte_false. Qed.

Lemma ws3_rev_not_ws1 c d e : ws3 c d e = true -> ws1 e = false.
Proof. intros H. byte_false. Qed.

Lemma ws3_rev_not_ws2 c d e : ws3 c d e = true -> ws2 d e = false.
Proof. intros H. byte_false. Qed.

Section Tokens.

Variable w1 : ascii -> bool.
Variable w2 : ascii -> ascii -> bool.
Variable w3 : ascii -> ascii -> ascii -> bool.

(** No token is the beginning of a longer one. *)
Hypothesis w2_w1 : forall c d, w2 c d = true -> w1 c = false.
Hypothesis w3_w1 : forall c d e, w3 c d e = true -> w1 c = false.
Hypothesis w3_w2 : forall c d e, w3 c d e = true -> w2 c d = false.

Lemma tokens_app a b :
  tokens w1 w2 w3 a -> tokens w1 w2 w3 b -> tokens w1 w2 w3 (a +:+ b).
Proof.
  induction 1; intros Hb; rewrite ?app_cons; auto.
  - apply tk_one; auto.
  - apply tk_two; auto.
  - apply tk_three; auto.
Qed.

Lemma drop_tokens_app w s :
  tokens w1 w2 w3 w ->
  drop_tokens w1 w2 w3 (w +:+ s) = drop_tokens w1 w2 w3 s.
Proof.
  induction 1 as [|c t Hc _ IH|c d t Hcd _ IH|c d e t Hcde _ IH];
    rewrite ?app_cons; simpl.
  - reflexivity.
  - rewrite Hc. exact IH.
  - rewrite (w2_w1 _ _ Hcd), Hcd. exact IH.
  - rewrite (w3_w1 _ _ _ Hcde), (w3_w2 _ _ _ Hcde), Hcde. exact IH.
Qed.

Lemma drop_tokens_all s :
  tokens w1 w2 w3 s -> drop_tokens w1 w2 w3 s = "".
Proof.
  intros H. pose proof (drop_tokens_app s "" H) as D.
  by rewrite app_nil_r in D.
Qed.

End Tokens.

(** What [drop_tokens] removes is a sequence of tokens. *)
Lemma drop_tokens_split w1 w2 w3 s :
  exists w, tokens w1 w2 w3 w /\ s = w +:+ drop_tokens w1 w2 w3 s.
Proof.
  remember (String.length s) as n eqn:Hn.
  revert s Hn. induction (lt_wf n) as [n _ IH]. intros s Hn.
  destruct s as [|c s1]; [exists ""; split; [constructor|reflexivity]|].
  simpl. destruct (w1 c) eqn:E1.
  { destruct (IH (String.length s1)) with (s := s1) as (w & Hw & Hs);
      [simpl in Hn; lia|reflexivity|].
    exists (String c w). split; [by apply tk_one|].
    by rewrite app_cons, <- Hs. }
  destruct s1 as [|d s2]; [exists ""; split; [constructor|reflexivity]|].
  destruct (w2 c d) eqn:E2.
  { destruct (IH (String.length s2)) with (s := s2) as (w & Hw & Hs);
      [simpl in Hn; lia|reflexivity|].
    exists (String c (String d w)). split; [by apply tk_two|].
    by rewrite !app_cons, <- Hs. }
  destruct s2 as [|e s3]; [exists ""; split; [constructor|reflexivity]|].
  destruct (w3 c d e) eqn:E3.
  { destruct (IH (String.length s3)) with (s := s3) as (w & Hw & Hs);
      [simpl in Hn; lia|reflexivity|].
    exists (String c (String d (String e w))). split; [by apply tk_three|].
    by rewrite !app_cons, <- Hs. }
  exists "". split; [constructor|reflexivity].
Qed.

Lemma tokens_rev w1 w2 w3 s :
  tokens w1 w2 w3 s ->
  tokens w1 (fun d c => w2 c d) (fun e d c => w3 c d e) (String.rev s).
Proof.
  induction 1 as [|c t Hc _ IH|c d t Hcd _ IH|c d e t Hcde _ IH].
  - constructor.
  - rewrite rev_cons. apply tokens_app; [exact IH|].
    apply tk_one; [exact Hc|constructor].
  - rewrite !rev_cons, app_assoc. apply tokens_app; [exact IH|].
    apply tk_two; [exact Hcd|constructor].
  - rewrite !rev_cons, !app_assoc. apply tokens_app; [exact IH|].
    apply tk_three; [exact Hcde|constructor].
Qed.

Lemma length_app a b :
  String.length (a +:+ b) = (String.length a + String.length b)%nat.
Proof.
  induction a as [|c a IH]; [reflexivity|].
  rewrite app_cons. simpl. by rewrite IH.
Qed.

Lemma drop_tokens_length w1 w2 w3 s :
  (String.length (drop_tokens w1 w2 w3 s) <= String.length s)%nat.
Proof.
  destruct (drop_tokens_split w1 w2 w3 s) as (w & _ & Hs).
  rewrite Hs at 2. rewrite length_app. lia.
Qed.

Lemma lstrip_app w s : whitespace_only w -> lstrip (w +:+ s) = lstrip s.
Proof.
  apply drop_tokens_app;
    eauto using ws2_not_ws1, ws3_not_ws1, ws3_not_ws2.
Qed.

Lemma rstrip_app s w : whitespace_only w -> rstrip (s +:+ w) = rstrip s.
Proof.
  intros Hw. unfold rstrip. rewrite rev_app. f_equal.
  apply drop_tokens_app; [..|by apply tokens_rev];
    eauto using ws2_rev_not_ws1, ws3_rev_not_ws1, ws3_rev_not_ws2.
Qed.

Lemma strip_whitespace_only s : whitespace_only s <-> strip s = "".
Proof.
  unfold strip. split.
  - intros Hs. unfold lstrip. rewrite drop_tokens_all;
      eauto using ws2_not_ws1, ws3_not_ws1, ws3_not_ws2.
  - intros Hs.
    destruct (drop_tokens_split ws1 ws2 ws3 s) as (w & Hw & Es).
    fold (lstrip s) in Es. rewrite Es. apply tokens_app; [exact Hw|].
    unfold rstrip in Hs. apply rev_eq_nil in Hs.
    destruct (drop_tokens_split ws1 (fun d c => ws2 c d)
                (fun e d c => ws3 c d e) (String.rev (lstrip s)))
      as (v & Hv & Ev).
    rewrite Hs, app_nil_r in Ev.
    rewrite <- (rev_involutive (lstrip s)), Ev.
    apply (tokens_rev _ _ _ _ Hv).
Qed.

Lemma truthy_false s : truthy s = false <-> s = "".
Proof. destruct s; simpl; split; congruence. Qed.

(** The first byte of a whitespace character is never a later byte of
    one, so no whitespace character straddles the end of a text that
    does not begin with whitespace. *)
Lemma lstrip_keeps lit post :
  lit <> "" -> lstrip lit = lit -> whitespace_only post ->
  lstrip (lit +:+ post) = lit +:+ post.
Proof.
  intros Hne Hfix Hpost. unfold lstrip in *.
  assert (forall t u, String.length u < String.length t ->
            drop_tokens ws1 ws2 ws3 u <> t)%nat as Hshort.
  { intros t u Hlt E. pose proof (drop_tokens_length ws1 ws2 ws3 u).
    rewrite E in *. lia. }
  destruct lit as [|c l1]; [done|]. clear Hne.
  rewrite app_cons. simpl in Hfix |- *.
  destruct (ws1 c) eqn:E1.
  { exfalso. eapply Hshort; [|exact Hfix]. simpl; lia. }
  destruct l1 as [|d l2].
  { rewrite app_nil_l.
    inversion Hpost as [|d t Hd _|d e t Hde _|d e f t Hdef _]; subst;
      try reflexivity.
    - assert (ws2 c d = false) as -> by byte_false.
      destruct t as [|e t']; [reflexivity|].
      assert (ws3 c d e = false) as -> by byte_false. reflexivity.
    - assert (ws2 c d = false) as -> by byte_false.
      assert (ws3 c d e = false) as -> by byte_false. reflexivity.
    - assert (ws2 c d = false) as -> by byte_false.
      assert (ws3 c d e = false) as -> by byte_false. reflexivity. }
  rewrite app_cons. destruct (ws2 c d) eqn:E2.
  { exfalso. eapply Hshort; [|exact Hfix]. simpl; lia. }
  destruct l2 as [|e l3].
  { rewrite app_nil_l.
    inversion Hpost as [|e t He _|e f t Hef _|e f g t Hefg _]; subst;
      try reflexivity;
      assert (ws3 c d e = false) as -> by byte_false;
      reflexivity. }
  rewrite app_cons. destruct (ws3 c d e) eqn:E3.
  { exfalso. eapply Hshort; [|exact Hfix]. simpl; lia. }
  reflexivity.
Qed.

(** Trimming a text wrapped in whitespace gives the text back. *)
Lemma strip_wrapped pre lit post :
  whitespace_only pre -> whitespace_only post ->
  lit <> "" -> lstrip lit = lit -> rstrip lit = lit ->
  strip (pre +:+ lit +:+ post) = lit.
Proof.
  intros Hpre Hpost Hne Hl Hr. unfold strip.
  rewrite lstrip_app by done. rewrite lstrip_keeps by done.
  by rewrite rstrip_app.
Qed.

End PyStrFacts.

(** ** The validators *)

Lemma contains_suffix pre s : PyStr.contains (pre +:+ s) s.
Proof. exists pre, "". by rewrite PyStrFacts.app_nil_r. Qed.

Lemma validate_host_ip_raises ip host e :
  validate_host_ip ip host = Raise e -> exc_cls e = ValidationError.
Proof.
  unfold validate_host_ip, raise_new.
  repeat case_match; intros [= <-]; reflexivity.
Qed.

Lemma validate_device_level_raises v e :
  validate_device_level v = Raise e -> exc_cls e = ValidationError.
Proof.
  unfold validate_device_level, raise_new.
  repeat case_match; intros [= <-]; reflexivity.
Qed.

Lemma validate_domain_raises d e :
  validate_domain d = Raise e -> exc_cls e = ValidationError.
Proof.
  unfold validate_domain, raise_new.
  repeat case_match; intros [= <-]; reflexivity.
Qed.

(** C4.  Level validation returns an [int] in [0, 100] unchanged, rejects
    every other [int] with a message that ends in the offending value, and
    rejects every value that is not an instance of [int] (a string, a
    float, [None], a list, a tuple, a dict) with a message naming its type,
    without converting it.  The accepted values are exactly the instances
    of [int] whose value lies in [0, 100]. *)
Theorem validate_device_level_spec :
  (forall n, 0 <= n <= 100 ->
     validate_device_level (PyInt (IntObj n)) = Ok (IntObj n))
  /\ (forall n, ~ (0 <= n <= 100) ->
        validate_device_level (PyInt (IntObj n))
        = raise_new ValidationError
            ("Device level must be between 0 and 100, got " +:+ pretty n)
        /\ PyStr.contains
             ("Device level must be between 0 and 100, got " +:+ pretty n)
             (pretty n))
  /\ (forall v, isinstance_int v = false ->
        validate_device_level v
        = raise_new ValidationError
            ("Device level must be an integer, got " +:+ type_name v))
  /\ (forall v i,
        validate_device_level v = Ok i
        <-> v = PyInt i /\ 0 <= int_value i <= 100).
Proof.
  split; [|split; [|split]]; cycle 3.
  { intros v i. unfold validate_device_level, raise_new. split.
    - destruct v as [j| | | | | |]; try discriminate.
      destruct (0 <=? int_value j) eqn:E1; [|discriminate].
      destruct (int_value j <=? 100) eqn:E2; [|discriminate].
      simpl. intros [= ->]. apply Z.leb_le in E1, E2. auto.
    - intros [-> [H1 H2]]. apply Z.leb_le in H1, H2. by rewrite H1, H2. }
  - intros n Hn. unfold validate_device_level. simpl.
    destruct (0 <=? n) eqn:E1; [|apply Z.leb_gt in E1; lia].
    destruct (n <=? 100) eqn:E2; [|apply Z.leb_gt in E2; lia].
    reflexivity.
  - intros n Hn. split; [|apply contains_suffix].
    unfold validate_device_level. simpl.
    destruct (0 <=? n) eqn:E1; [|reflexivity].
    destruct (n <=? 100) eqn:E2; [|reflexivity].
    apply Z.leb_le in E1, E2. lia.
  - intros v Hv. destruct v; try discriminate; reflexivity.
Qed.

Lemma validate_device_level_spec_witness :
  validate_device_level (PyInt (IntObj 50)) = Ok (IntObj 50)
  /\ validate_device_level (PyInt (IntObj 150))
     = raise_new ValidationError
         "Device level must be between 0 and 100, got 150"
  /\ validate_device_level (PyStr "50")
     = raise_new ValidationError "Device level must be an integer, got str".
Proof.
  destruct validate_device_level_spec as (Hin & Hout & Hty & _).
  split; [apply (Hin 50); lia|].
  split; [apply (Hout 150); lia|].
  apply (Hty (PyStr "50")). reflexivity.
Defined.

(** C9.  Level validation accepts [True] and [False]: a [bool] is an
    instance of [int] with value 1 or 0, and is returned as it came. *)
Theorem validate_device_level_accepts_bool :
  forall b : bool,
    isinstance_int (PyInt (BoolObj b)) = true
    /\ validate_device_level (PyInt (BoolObj b)) = Ok (BoolObj b).
Proof. intros []; split; reflexivity. Qed.

(** C5.  Host validation rejects the empty and the whitespace-only text
    with "Host IP cannot be empty"; rejects a text whose trimmed form is
    not an IP literal with "Invalid IP address format: " followed by the
    trimmed text; and accepts a text whose trimmed form is an IP literal,
    returning the trimmed form, so a literal wrapped in whitespace comes
    back as the literal. *)
Theorem validate_host_ip_spec (ip_address : string -> bool) :
  (forall host, PyStr.whitespace_only host ->
     validate_host_ip ip_address host
     = raise_new ValidationError "Host IP cannot be empty")
  /\ (forall host, ~ PyStr.whitespace_only host ->
        ip_address (PyStr.strip host) = false ->
        validate_host_ip ip_address host
        = raise_new ValidationError
            ("Invalid IP address format: " +:+ PyStr.strip host)
        /\ PyStr.contains
             ("Invalid IP address format: " +:+ PyStr.strip host)
             (PyStr.strip host))
  /\ (forall host, ~ PyStr.whitespace_only host ->
        ip_address (PyStr.strip host) = true ->
        validate_host_ip ip_address host = Ok (PyStr.strip host))
  /\ (forall pre lit post,
        PyStr.whitespace_only pre -> PyStr.whitespace_only post ->
        lit <> "" -> PyStr.lstrip lit = lit -> PyStr.rstrip lit = lit ->
        ip_address lit = true ->
        validate_host_ip ip_address (pre +:+ lit +:+ post) = Ok lit).
Proof.
  assert (forall host, PyStr.whitespace_only host ->
            negb (PyStr.truthy host) || negb (PyStr.truthy (PyStr.strip host))
            = true) as Hempty.
  { intros host Hw. apply PyStrFacts.strip_whitespace_only in Hw.
    rewrite Hw. simpl. apply orb_true_r. }
  assert (forall host, ~ PyStr.whitespace_only host ->
            negb (PyStr.truthy host) || negb (PyStr.truthy (PyStr.strip host))
            = false) as Hfull.
  { intros host Hw. apply orb_false_iff. split; apply negb_false_iff.
    - destruct host; [|reflexivity]. destruct Hw. constructor.
    - destruct (PyStr.strip host) eqn:E; [|reflexivity].
      destruct Hw. by apply PyStrFacts.strip_whitespace_only. }
  split; [|split; [|split]].
  - intros host Hw. unfold validate_host_ip. by rewrite Hempty.
  - intros host Hw Hip. split; [|apply contains_suffix].
    unfold validate_host_ip. by rewrite Hfull, Hip.
  - intros host Hw Hip. unfold validate_host_ip. by rewrite Hfull, Hip.
  - intros pre lit post Hpre Hpost Hne Hl Hr Hip.
    pose proof (PyStrFacts.strip_wrapped pre lit post Hpre Hpost Hne Hl Hr) as E.
    unfold validate_host_ip. rewrite Hfull, E, Hip; [reflexivity|].
    intros Hw. apply PyStrFacts.strip_whitespace_only in Hw. congruence.
Qed.

Lemma validate_host_ip_spec_witness :
  validate_host_ip Demo.dotted_quad "   "
  = raise_new ValidationError "Host IP cannot be empty"
  /\ validate_host_ip Demo.dotted_quad " 256.256.256.256"
     = raise_new ValidationError "Invalid IP address format: 256.256.256.256"
  /\ validate_host_ip Demo.dotted_quad "192.168.1.1 " = Ok "192.168.1.1"
  /\ validate_host_ip Demo.dotted_quad ("  " +:+ "10.0.0.1" +:+ "  ")
     = Ok "10.0.0.1".
Proof.
  destruct (validate_host_ip_spec Demo.dotted_quad) as (He & Hbad & Hok & Hwrap).
  assert (PyStr.whitespace_only "  ") as Hw2
    by (apply PyStrFacts.strip_whitespace_only; reflexivity).
  split; [apply (He "   "); apply PyStrFacts.strip_whitespace_only; reflexivity|].
  split.
  { apply (Hbad " 256.256.256.256"); [|reflexivity].
    intros H. apply PyStrFacts.strip_whitespace_only in H. discriminate H. }
  split.
  { apply (Hok "192.168.1.1 "); [|reflexivity].
    intros H. apply PyStrFacts.strip_whitespace_only in H. discriminate H. }
  apply (Hwrap "  " "10.0.0.1" "  " Hw2 Hw2); [discriminate|reflexivity..].
Defined.

(** ** Running computations *)

Lemma bind_ok {S A B} (m : M S A) (k : A -> M S B) s tr b s' tr' :
  bind m k s tr = (Ok b, s', tr') ->
  exists a s1 tr1, m s tr = (Ok a, s1, tr1) /\ k a s1 tr1 = (Ok b, s', tr').
Proof.
  unfold bind. destruct (m s tr) as [[[a|e] s1] tr1]; [eauto|discriminate].
Qed.

Lemma try_except_ok {S A} (body : M S A) classes handler s tr r s' tr' :
  try_except body classes handler s tr = (Ok r, s', tr') ->
  body s tr = (Ok r, s', tr')
  \/ exists e s1 tr1,
       body s tr = (Raise e, s1, tr1)
       /\ existsb (isinstance_exc e) classes = true
       /\ handler e s1 tr1 = (Ok r, s', tr').
Proof.
  unfold try_except. destruct (body s tr) as [[[a|e] s1] tr1]; [auto|].
  destruct (existsb _ _) eqn:E; [|discriminate]. right. eauto 10.
Qed.

Lemma extern_ok {S A} ev (answer : trace -> outcome A) (s : S) tr a s' tr' :
  extern ev answer s tr = (Ok a, s', tr') ->
  answer tr = Ok a /\ s' = s /\ tr' = tr ++ [ev].
Proof. unfold extern. by intros [= -> -> <-]. Qed.

Lemma getitem_ok {S} d k (s : S) tr v s' tr' :
  getitem d k s tr = (Ok v, s', tr') -> d !! k = Some v /\ s' = s /\ tr' = tr.
Proof.
  unfold getitem. destruct (d !! k); [|discriminate].
  unfold ret. by intros [= -> -> ->].
Qed.

Lemma added_app tr evs : added tr (tr ++ evs) = evs.
Proof. unfold added. by rewrite drop_app_length. Qed.

Lemma unit_outcome (o : outcome unit) u : o = Ok u -> o = Ok tt.
Proof. by destruct u. Qed.

(** ** The connection manager *)

(** C2.  Every guarded device operation of a manager whose [connected]
    flag is false raises the "not connected" [RuntimeError] at once: the
    manager is unchanged and nothing is added to the trace, so the bridge
    client is not called. *)
Theorem guarded_operations_require_connection
    (P : Platform) (m : LutronCasetaManager) (tr : trace)
    (domain device_id : string) (level : pyint) :
  connected m = false ->
  get_devices_by_domain P domain m tr
    = (raise_new RuntimeError not_connected_msg, m, tr)
  /\ turn_on P device_id m tr
     = (raise_new RuntimeError not_connected_msg, m, tr)
  /\ turn_off P device_id m tr
     = (raise_new RuntimeError not_connected_msg, m, tr)
  /\ set_level P device_id level m tr
     = (raise_new RuntimeError not_connected_msg, m, tr).
Proof.
  intros H.
  unfold get_devices_by_domain, turn_on, turn_off, set_level, guarded,
    bind, get, throw.
  rewrite H. simpl. auto.
Qed.

Lemma guarded_operations_require_connection_witness :
  get_devices_by_domain Demo.happy "light" Demo.manager []
    = (raise_new RuntimeError "Not connected to Lutron Caseta bridge",
       Demo.manager, [])
  /\ set_level Demo.happy "1" (IntObj 50) Demo.manager []
     = (raise_new RuntimeError "Not connected to Lutron Caseta bridge",
        Demo.manager, []).
Proof.
  destruct (guarded_operations_require_connection Demo.happy Demo.manager []
              "light" "1" (IntObj 50) eq_refl) as (H1 & _ & _ & H4).
  split; [exact H1|exact H4].
Defined.

(** The same guard stops a manager that has the flag set but no bridge. *)
Lemma guarded_without_bridge {A}
    (op : handle -> M LutronCasetaManager A) m tr :
  bridge m = None ->
  guarded op m tr = (raise_new RuntimeError not_connected_msg, m, tr).
Proof.
  intros H. unfold guarded, bind, get, throw. rewrite H.
  by destruct (connected m).
Qed.

Lemma caught_exception e :
  isinstance_exc e Exception = true ->
  existsb (isinstance_exc e) [Exception] = true.
Proof. intros H. simpl. by rewrite H. Qed.

(** C7.  [connect] returns a boolean and lets no exception through.  It
    returns [true] exactly when the TLS session is built and the handshake
    succeeds, and then the manager is connected to the new session.  When
    either step raises, it logs the cause and returns [false] with the
    [connected] flag as it was, so a disconnected manager stays
    disconnected. *)
Theorem connect_returns_bool (P : Platform) (m : LutronCasetaManager)
    (tr : trace) :
  let ev := EvCreateTls (bridge_ip m) (key_path m) (cert_path m) (ca_path m) in
  let tls := create_tls P (bridge_ip m) (key_path m) (cert_path m) (ca_path m) tr in
  raises_only_exceptions tls ->
  (forall b, tls = Ok b ->
     raises_only_exceptions (bridge_connect P b (tr ++ [ev]))) ->
  exists ok m' tr',
    connect P m tr = (Ok ok, m', tr')
    /\ (ok = true <->
        exists b, tls = Ok b /\ bridge_connect P b (tr ++ [ev]) = Ok tt)
    /\ (ok = true ->
        connected m' = true
        /\ exists b, bridge m' = Some b /\ tr' = tr ++ [ev; EvConnect b])
    /\ (ok = false ->
        connected m' = connected m
        /\ exists e,
             last tr'
             = Some (EvLog ERROR
                       ("Failed to connect to Lutron Caseta bridge: "
                        +:+ exc_str e)))
    /\ (connected m = false -> ok = false -> connected m' = false).
Proof.
  intros ev tls Htls Hconn. subst ev tls.
  unfold connect, try_except, bind, get, put, extern, emit, ret.
  destruct (create_tls P _ _ _ _ tr) as [b|e] eqn:Etls.
  - specialize (Hconn b eq_refl).
    destruct (bridge_connect P b _) as [[]|e] eqn:Econn.
    + eexists true, _, _. split; [reflexivity|].
      split; [split; [eauto|done]|].
      split; [intros _; split; [reflexivity|]|split; [discriminate|discriminate]].
      exists b. split; [reflexivity|]. by rewrite <- app_assoc.
    + rewrite (caught_exception e (Hconn e eq_refl)).
      eexists false, _, _. split; [reflexivity|].
      split; [split; [discriminate|intros (b' & [= <-] & ?); congruence]|].
      split; [discriminate|]. split; [|auto].
      intros _. split; [reflexivity|]. exists e. by rewrite last_snoc.
  - rewrite (caught_exception e (Htls e eq_refl)).
    eexists false, _, _. split; [reflexivity|].
    split; [split; [discriminate|intros (b' & [=] & ?)]|].
    split; [discriminate|]. split; [|auto].
    intros _. split; [reflexivity|]. exists e. by rewrite last_snoc.
Qed.

Lemma connect_returns_bool_witness :
  exists ok m' tr',
    connect Demo.refused Demo.manager [] = (Ok ok, m', tr')
    /\ ok = false /\ connected m' = false.
Proof.
  destruct (connect_returns_bool Demo.refused Demo.manager [])
    as (ok & m' & tr' & E & Hiff & _ & _ & Hoff).
  - discriminate.
  - intros b _ e [= <-]. reflexivity.
  - exists ok, m', tr'.
    assert (ok = false) as Hok.
    { destruct ok; [|reflexivity]. destruct Hiff as [H _].
      destruct (H eq_refl) as (b & _ & Hc). vm_compute in Hc. discriminate Hc. }
    split; [exact E|]. split; [exact Hok|]. apply Hoff; [reflexivity|exact Hok].
Defined.

Example connect_happy :
  connect Demo.happy Demo.manager []
  = (Ok true, Demo.connected_manager,
     [EvCreateTls "192.168.1.100" "/path/to/key" "/path/to/cert" "/path/to/ca";
      EvConnect 1%nat]).
Proof. reflexivity. Qed.

Example connect_refused :
  connect Demo.refused Demo.manager []
  = (Ok false, set_bridge 1%nat Demo.manager,
     [EvCreateTls "192.168.1.100" "/path/to/key" "/path/to/cert" "/path/to/ca";
      EvConnect 1%nat;
      EvLog ERROR "Failed to connect to Lutron Caseta bridge: Connection failed"]).
Proof. reflexivity. Qed.

(** A connected manager whose reconnection fails keeps its flag. *)
Example connect_refused_when_connected :
  connect Demo.refused Demo.connected_manager []
  = (Ok false, Demo.connected_manager,
     [EvCreateTls "192.168.1.100" "/path/to/key" "/path/to/cert" "/path/to/ca";
      EvConnect 1%nat;
      EvLog ERROR "Failed to connect to Lutron Caseta bridge: Connection failed"]).
Proof. reflexivity. Qed.

(** *** The invariant of the manager *)

Lemma new_manager_inv ip key cert ca : manager_inv (new_manager ip key cert ca).
Proof. intros H. discriminate H. Qed.

Lemma connect_inv P m tr r m' tr' :
  manager_inv m -> connect P m tr = (r, m', tr') -> manager_inv m'.
Proof.
  intros Hinv. unfold connect, try_except, bind, get, put, extern, emit, ret.
  destruct (create_tls P _ _ _ _ tr) as [b|e].
  - destruct (bridge_connect P b _) as [[]|e].
    + intros [= <- <- <-]. intros _. simpl. eauto.
    + destruct (existsb _ _); intros [= <- <- <-]; intros _; simpl; eauto.
  - destruct (existsb _ _); intros [= <- <- <-]; exact Hinv.
Qed.

Lemma disconnect_inv P m tr r m' tr' :
  manager_inv m -> disconnect P m tr = (r, m', tr') -> manager_inv m'.
Proof.
  intros Hinv. unfold disconnect, bind, get, put, extern, ret.
  destruct (bridge m) as [b|] eqn:Eb.
  - destruct (connected m) eqn:Ec.
    + destruct (bridge_close P b tr) as [[]|e]; intros [= <- <- <-].
      * intros H. discriminate H.
      * exact Hinv.
    + intros [= <- <- <-]. exact Hinv.
  - intros [= <- <- <-]. exact Hinv.
Qed.

(** The first call of [disconnect] cannot fail unless closing the session
    does. *)
Lemma disconnect_returns P m tr :
  (forall b, bridge m = Some b -> connected m = true ->
     bridge_close P b tr = Ok tt) ->
  exists m' tr', disconnect P m tr = (Ok tt, m', tr').
Proof.
  intros Hclose. unfold disconnect, bind, get, put, extern, ret.
  destruct (bridge m) as [b|] eqn:Eb; [|eauto].
  destruct (connected m) eqn:Ec; [|eauto].
  rewrite (Hclose b eq_refl eq_refl). eauto.
Qed.

(** C8.  [disconnect] is idempotent.  On every manager that keeps the
    invariant of the class, provided closing the session does not fail, a
    first call returns and leaves the manager disconnected, having closed
    the session exactly when the manager was connected; a second call then
    returns without error, leaves the manager as it is and adds nothing to
    the trace, so it closes nothing.  One call and two calls end in the
    same state. *)
Theorem disconnect_idempotent (P : Platform) (m : LutronCasetaManager)
    (tr : trace) :
  manager_inv m ->
  (forall b, bridge m = Some b -> connected m = true ->
     bridge_close P b tr = Ok tt) ->
  let m1 := set_connected false m in
  let tr1 := tr ++ match bridge m with
                   | Some b => if connected m then [EvCloseBridge b] else []
                   | None => []
                   end in
  disconnect P m tr = (Ok tt, m1, tr1)
  /\ connected m1 = false
  /\ disconnect P m1 tr1 = (Ok tt, m1, tr1)
  /\ added tr1 (snd (disconnect P m1 tr1)) = []
  /\ state_of (disconnect P m1 tr1) = state_of (disconnect P m tr).
Proof.
  intros Hinv Hclose m1 tr1.
  assert (disconnect P m tr = (Ok tt, m1, tr1)) as Hfirst.
  { subst m1 tr1. unfold disconnect, bind, get, put, extern, ret.
    destruct (bridge m) as [b|] eqn:Eb.
    - destruct (connected m) eqn:Ec.
      + by rewrite (Hclose b eq_refl eq_refl).
      + rewrite app_nil_r. f_equal. f_equal.
        destruct m; simpl in *; by subst.
    - destruct (connected m) eqn:Ec.
      + destruct (Hinv Ec) as [b Hb]. congruence.
      + rewrite app_nil_r. f_equal. f_equal.
        destruct m; simpl in *; by subst. }
  assert (disconnect P m1 tr1 = (Ok tt, m1, tr1)) as Hagain.
  { unfold disconnect, bind, get, ret. simpl. by destruct (bridge m). }
  split; [exact Hfirst|]. split; [reflexivity|]. split; [exact Hagain|].
  rewrite Hagain, Hfirst. split; [|reflexivity].
  simpl. unfold added. apply drop_all.
Qed.

Lemma disconnect_idempotent_witness :
  disconnect Demo.happy Demo.connected_manager []
  = (Ok tt, set_connected false Demo.connected_manager, [EvCloseBridge 1%nat])
  /\ connected (set_connected false Demo.connected_manager) = false
  /\ disconnect Demo.happy (set_connected false Demo.connected_manager)
       [EvCloseBridge 1%nat]
     = (Ok tt, set_connected false Demo.connected_manager,
        [EvCloseBridge 1%nat])
  /\ added [EvCloseBridge 1%nat]
       (snd (disconnect Demo.happy
               (set_connected false Demo.connected_manager)
               [EvCloseBridge 1%nat])) = []
  /\ state_of (disconnect Demo.happy
                 (set_connected false Demo.connected_manager)
                 [EvCloseBridge 1%nat])
     = state_of (disconnect Demo.happy Demo.connected_manager []).
Proof.
  apply (disconnect_idempotent Demo.happy Demo.connected_manager []).
  - intros _. simpl. eauto.
  - intros b _ _. reflexivity.
Defined.

(** When closing the session fails, [disconnect] has no handler: the
    exception reaches the caller and the manager stays connected. *)
Lemma disconnect_close_fails P m b tr e :
  bridge m = Some b -> connected m = true ->
  bridge_close P b tr = Raise e ->
  disconnect P m tr = (Raise e, m, tr ++ [EvCloseBridge b]).
Proof.
  intros Hb Hc He. unfold disconnect, bind, get, put, extern, ret.
  by rewrite Hb, Hc, He.
Qed.

(** ** The pairing flow *)

Lemma ready_events_no_fs_write cb (ready : bool) :
  existsb is_fs_write (if ready then @_ready cb else []) = false.
Proof. destruct ready; [|reflexivity]. by destruct cb. Qed.

(** C1.  When the pairing primitive raises an exception, [pair_bridge]
    returns a failure result: [success] is false and the message is
    "Pairing failed: " followed by the text of the exception.  Nothing is
    raised to the caller, and the run adds no filesystem event to the
    trace: no credential file is written. *)
Theorem pair_bridge_primitive_raises (P : Platform) {S : Type}
    (host output_dir : string) (cb : option callable) (s : S) (tr : trace)
    (ready : bool) (e : exc) :
  async_pair P host tr = (ready, Raise e) ->
  isinstance_exc e Exception = true ->
  exists r tr',
    pair_bridge P host output_dir cb s tr = (Ok r, s, tr')
    /\ success r = false
    /\ message r = "Pairing failed: " +:+ exc_str e
    /\ PyStr.contains (message r) (exc_str e)
    /\ data r = None
    /\ tr' = tr ++ EvAsyncPair host :: (if ready then _ready cb else [])
    /\ existsb is_fs_write (added tr tr') = false.
Proof.
  intros Hpair Hexc.
  eexists _, _. split.
  { unfold pair_bridge, try_except. unfold bind at 1. unfold call_async_pair.
    rewrite Hpair, (caught_exception e Hexc). reflexivity. }
  simpl. repeat split; try reflexivity.
  - apply contains_suffix.
  - rewrite added_app. simpl. apply ready_events_no_fs_write.
Qed.

Lemma pair_bridge_primitive_raises_witness :
  exists r tr',
    pair_bridge Demo.timeout "192.168.1.100" "/tmp/certs" None tt []
    = (Ok r, tt, tr')
    /\ success r = false
    /\ message r = "Pairing failed: Pairing timeout"
    /\ existsb is_fs_write (added [] tr') = false.
Proof.
  destruct (pair_bridge_primitive_raises Demo.timeout "192.168.1.100"
              "/tmp/certs" None tt [] true
              (RaiseOf Exception "Pairing timeout") eq_refl eq_refl)
    as (r & tr' & E & Hs & Hm & _ & _ & _ & Hfs).
  exists r, tr'. repeat split; assumption.
Defined.

(** A file written without error was opened, written once, and closed. *)
Lemma write_file_ok (P : Platform) {S} (p : Path P) d k (s : S) tr u s' tr' :
  write_file P p (getitem d k) s tr = (Ok u, s', tr') ->
  exists t,
    d !! k = Some t /\ s' = s
    /\ tr' = tr ++ [EvOpen (path_str P p); EvWrite (path_str P p) t;
                    EvClose (path_str P p)].
Proof.
  unfold write_file, bind, extern, getitem, ret, throw.
  destruct (open_w P p tr) as [[]|e]; [|discriminate].
  destruct (d !! k) as [t|]; simpl.
  - destruct (file_write P p t _) as [[]|e];
      destruct (file_close P p _) as [[]|e']; try discriminate.
    intros H. inversion H; subst. exists t. by rewrite <- !app_assoc.
  - destruct (file_close P p _) as [[]|e']; discriminate.
Qed.








(** The converse direction: with a bundle that has its four entries and a
    filesystem that answers, [pair_bridge] does report success. *)
Lemma pair_bridge_succeeds (P : Platform) {S : Type}
    (host output_dir : string) (cb : option callable) (s : S) (tr : trace)
    (ready : bool) (bundle : gmap string string) :
  persist_reliable P ->
  async_pair P host tr = (ready, Ok bundle) ->
  is_Some (bundle !! "ca") -> is_Some (bundle !! "cert") ->
  is_Some (bundle !! "key") -> is_Some (bundle !! "version") ->
  exists r tr',
    pair_bridge P host output_dir cb s tr = (Ok r, s, tr')
    /\ success r = true.
Proof.
  intros (Hexp & Habs & Hmk & Hop & Hwr & Hcl & Hch) Hpair
    [ca Hca] [cert Hcert] [key Hkey] [version Hver].
  unfold pair_bridge, try_except, bind, call_async_pair, write_file, extern,
    getitem, ret, bind.
  rewrite Hpair.
  destruct (Hexp (path_new P output_dir)
              (tr ++ EvAsyncPair host :: (if ready then _ready cb else [])))
    as [q ->].
  rewrite Hmk, Hca, Hcert, Hkey, Hver. simpl.
  repeat first [rewrite Hop | rewrite Hwr | rewrite Hcl | rewrite Hch]; simpl.
  repeat first [rewrite Hop | rewrite Hwr | rewrite Hcl | rewrite Hch]; simpl.
  match goal with
  | |- context [absolute P q ?t] => destruct (Habs q t) as [a ->]
  end.
  eauto.
Qed.

(** ** The tools *)

Lemma require_connection_fails g tr :
  tool_connected g = false ->
  require_connection g tr = (raise_new RuntimeError tool_not_connected_msg, g, tr).
Proof.
  unfold tool_connected, require_connection, bind, get, throw.
  destruct g as [st|]; [|reflexivity].
  destruct (caseta_manager st); [|reflexivity].
  by intros ->.
Qed.

Lemma require_connection_passes g tr :
  tool_connected g = true -> require_connection g tr = (Ok tt, g, tr).
Proof.
  unfold tool_connected, require_connection, bind, get, throw, ret.
  destruct g as [st|]; [|discriminate].
  destruct (caseta_manager st); [|discriminate].
  by intros ->.
Qed.

Lemma revalidate_raises {A} (checked : outcome A) e g tr :
  checked = Raise e -> exc_cls e = ValidationError ->
  revalidate checked g tr = (raise_new ValueError (exc_str e), g, tr).
Proof.
  intros -> Hc. unfold revalidate, try_except, lift, throw.
  unfold isinstance_exc. rewrite Hc. reflexivity.
Qed.

(** The claim C3 fails on a server that is not connected: an invalid
    domain and an out-of-range level are then answered with the "not
    connected" failure, not with a validation failure. *)
Lemma device_tools_validate_first_counterexample :
  validate_domain "invalid_domain"
  = raise_new ValidationError
      "Invalid domain 'invalid_domain'. Valid domains are: cover, fan, light, sensor, switch"
  /\ result_of (list_devices Demo.happy "invalid_domain" Demo.idle_state [])
     = raise_new RuntimeError tool_not_connected_msg
  /\ is_validation_failure
       (result_of (list_devices Demo.happy "invalid_domain" Demo.idle_state []))
     = false
  /\ validate_device_level (PyInt (IntObj 150))
     = raise_new ValidationError
         "Device level must be between 0 and 100, got 150"
  /\ result_of (set_device_level Demo.happy "1" (PyInt (IntObj 150)) None [])
     = raise_new RuntimeError tool_not_connected_msg
  /\ is_validation_failure
       (result_of (set_device_level Demo.happy "1" (PyInt (IntObj 150)) None []))
     = false.
Proof. repeat split; reflexivity. Qed.

(** C3, amended.  The device tools check the connection first.  On a
    server that is not connected every device tool fails with the "not
    connected" [RuntimeError], whatever its input.  On a connected server
    an input that fails validation makes list-devices and set-level fail
    with a [ValueError] carrying the validator's message; the server state
    is unchanged and nothing is added to the trace.  A [ValueError] is not
    a [RuntimeError] and conversely, so the caller can tell the two
    failures apart. *)
Theorem device_tools_check_connection_then_validate
    (P : Platform) (g : Global) (tr : trace) :
  (tool_connected g = false ->
   forall (domain device_id : string) (level : pyval),
     list_devices P domain g tr
       = (raise_new RuntimeError tool_not_connected_msg, g, tr)
     /\ set_device_level P device_id level g tr
        = (raise_new RuntimeError tool_not_connected_msg, g, tr)
     /\ turn_on_device P device_id g tr
        = (raise_new RuntimeError tool_not_connected_msg, g, tr)
     /\ turn_off_device P device_id g tr
        = (raise_new RuntimeError tool_not_connected_msg, g, tr))
  /\ (tool_connected g = true ->
      (forall domain e,
         validate_domain domain = Raise e ->
         list_devices P domain g tr = (raise_new ValueError (exc_str e), g, tr))
      /\ (forall device_id level e,
            validate_device_level level = Raise e ->
            set_device_level P device_id level g tr
            = (raise_new ValueError (exc_str e), g, tr)))
  /\ (forall msg,
        is_validation_failure (@raise_new unit ValueError msg) = true
        /\ is_not_connected_failure (@raise_new unit ValueError msg) = false
        /\ is_validation_failure (@raise_new unit RuntimeError msg) = false
        /\ is_not_connected_failure (@raise_new unit RuntimeError msg) = true).
Proof.
  split; [|split].
  - intros Hoff domain device_id level.
    unfold list_devices, set_device_level, turn_on_device, turn_off_device.
    unfold bind. rewrite (require_connection_fails g tr Hoff). auto.
  - intros Hon. split.
    + intros domain e He. unfold list_devices. unfold bind at 1.
      rewrite (require_connection_passes g tr Hon). unfold bind at 1.
      by rewrite (revalidate_raises _ e g tr He (validate_domain_raises _ _ He)).
    + intros device_id level e He. unfold set_device_level. unfold bind at 1.
      rewrite (require_connection_passes g tr Hon). unfold bind at 1.
      by rewrite (revalidate_raises _ e g tr He
                    (validate_device_level_raises _ _ He)).
  - intros msg. repeat split; reflexivity.
Qed.

Lemma device_tools_check_connection_then_validate_witness :
  list_devices Demo.happy "invalid_domain" Demo.idle_state []
    = (raise_new RuntimeError tool_not_connected_msg, Demo.idle_state, [])
  /\ list_devices Demo.happy "invalid_domain" Demo.connected_state []
     = (raise_new ValueError
          "Invalid domain 'invalid_domain'. Valid domains are: cover, fan, light, sensor, switch",
        Demo.connected_state, [])
  /\ set_device_level Demo.happy "1" (PyStr "50") Demo.connected_state []
     = (raise_new ValueError "Device level must be an integer, got str",
        Demo.connected_state, []).
Proof.
  destruct (device_tools_check_connection_then_validate Demo.happy
              Demo.idle_state []) as (Hoff & _ & _).
  destruct (device_tools_check_connection_then_validate Demo.happy
              Demo.connected_state []) as (_ & Hon & _).
  destruct (Hon eq_refl) as (Hdom & Hlvl).
  split; [apply (Hoff eq_refl "invalid_domain" "1" PyNone)|].
  split.
  - apply (Hdom "invalid_domain" (RaiseOf ValidationError _)). reflexivity.
  - apply (Hlvl "1" (PyStr "50") (RaiseOf ValidationError _)). reflexivity.
Defined.

Example set_level_50_connected :
  set_device_level Demo.happy "1" (PyInt (IntObj 50)) Demo.connected_state []
  = (Ok {| dr_device_id := "1"; dr_action := "set_level";
           dr_level := Some (IntObj 50); dr_success := true |},
     Demo.connected_state,
     [EvSetValue 1%nat "1" (IntObj 50)]).
Proof. reflexivity. Qed.

(** C10.  [pair_bridge_tool] called with a host that fails validation
    returns a failure result with [success] and [connected] false, whose
    message is "INVALID INPUT" with the validator's text.  The global
    server state (configuration, manager, connected flag) is the one it was
    called with, and nothing is added to the trace: no pairing attempt and
    no filesystem write. *)
Theorem pair_bridge_tool_rejects_invalid_host
    (P : Platform) (host : string) (g : Global) (tr : trace) (e : exc) :
  validate_host_ip (ip_address P) host = Raise e ->
  exists r,
    pair_bridge_tool P host g tr = (Ok r, g, tr)
    /\ pt_success r = false
    /\ pt_connected r = false
    /\ pt_message r = "❌ INVALID INPUT: " +:+ exc_str e
    /\ pt_certificate_files r = None
    /\ added tr (snd (pair_bridge_tool P host g tr)) = [].
Proof.
  intros He. pose proof (validate_host_ip_raises _ _ _ He) as Hc.
  eexists. split.
  { unfold pair_bridge_tool. unfold bind at 1.
    unfold try_except, bind, lift. rewrite He.
    unfold isinstance_exc. rewrite Hc. reflexivity. }
  repeat split.
  unfold pair_bridge_tool. unfold bind at 1.
  unfold try_except, bind, lift. rewrite He.
  unfold isinstance_exc. rewrite Hc. simpl. unfold added. apply drop_all.
Qed.

Lemma pair_bridge_tool_rejects_invalid_host_witness :
  exists r,
    pair_bridge_tool Demo.happy "invalid.ip" Demo.connected_state []
    = (Ok r, Demo.connected_state, [])
    /\ pt_success r = false
    /\ pt_connected r = false
    /\ pt_message r = "❌ INVALID INPUT: Invalid IP address format: invalid.ip".
Proof.
  destruct (pair_bridge_tool_rejects_invalid_host Demo.happy "invalid.ip"
              Demo.connected_state []
              (RaiseOf ValidationError "Invalid IP address format: invalid.ip")
              eq_refl)
    as (r & E & Hs & Hc & Hm & _).
  exists r. repeat split; assumption.
Defined.

Example pair_tool_happy :
  exists r g tr,
    pair_bridge_tool Demo.happy "192.168.1.100" Demo.idle_state [] = (Ok r, g, tr)
    /\ pt_success r = true /\ pt_connected r = true
    /\ tool_connected g = true.
Proof. eexists _, _, _. split; [vm_compute; reflexivity|]. repeat split. Qed.

(** * Further properties *)

(** ** Trimming *)

Module StripFacts.
Import PyStr PyStrFacts.

Lemma drop_tokens_idem w1 w2 w3 s :
  drop_tokens w1 w2 w3 (drop_tokens w1 w2 w3 s) = drop_tokens w1 w2 w3 s.
Proof.
  remember (String.length s) as n eqn:Hn.
  revert s Hn. induction (lt_wf n) as [n _ IH]. intros s Hn.
  destruct s as [|c s1]; [reflexivity|].
  simpl. destruct (w1 c) eqn:E1.
  { apply (IH (String.length s1)); [simpl in Hn; lia|reflexivity]. }
  destruct s1 as [|d s2]; [simpl; by rewrite E1|].
  destruct (w2 c d) eqn:E2.
  { apply (IH (String.length s2)); [simpl in Hn; lia|reflexivity]. }
  destruct s2 as [|e s3]; [simpl; by rewrite E1, E2|].
  destruct (w3 c d e) eqn:E3.
  { apply (IH (String.length s3)); [simpl in Hn; lia|reflexivity]. }
  simpl. by rewrite E1, E2, E3.
Qed.

Lemma lstrip_idem s : lstrip (lstrip s) = lstrip s.
Proof. apply drop_tokens_idem. Qed.

Lemma rstrip_idem s : rstrip (rstrip s) = rstrip s.
Proof. unfold rstrip. by rewrite rev_involutive, drop_tokens_idem. Qed.

(** What [rstrip] removes is whitespace. *)
Lemma rstrip_split s : exists w, whitespace_only w /\ s = rstrip s +:+ w.
Proof.
  destruct (drop_tokens_split ws1 (fun d c => ws2 c d)
              (fun e d c => ws3 c d e) (String.rev s)) as (v & Hv & Ev).
  exists (String.rev v). split.
  - apply (tokens_rev _ _ _ _ Hv).
  - unfold rstrip. rewrite <- rev_app, <- Ev. by rewrite rev_involutive.
Qed.

(** Trimming the end does not uncover whitespace at the beginning. *)
Lemma lstrip_rstrip_fixed t : lstrip t = t -> lstrip (rstrip t) = rstrip t.
Proof.
  intros Hfix. destruct (rstrip_split t) as (w & Hw & Et).
  destruct (rstrip t) as [|c p1] eqn:Ep; [reflexivity|].
  assert (forall u, String.length u < String.length t ->
            drop_tokens ws1 ws2 ws3 u <> t)%nat as Hshort.
  { intros u Hlt E. pose proof (drop_tokens_length ws1 ws2 ws3 u).
    rewrite E in *. lia. }
  unfold lstrip in *. rewrite Et in Hfix, Hshort. rewrite !app_cons in *.
  simpl in Hfix |- *.
  destruct (ws1 c) eqn:E1.
  { exfalso. eapply Hshort; [|exact Hfix]. simpl; lia. }
  destruct p1 as [|d p2]; [reflexivity|].
  rewrite app_cons in *. destruct (ws2 c d) eqn:E2.
  { exfalso. eapply Hshort; [|exact Hfix]. simpl; lia. }
  destruct p2 as [|e p3]; [reflexivity|].
  rewrite app_cons in *. destruct (ws3 c d e) eqn:E3.
  { exfalso. eapply Hshort; [|exact Hfix]. simpl; lia. }
  reflexivity.
Qed.

Lemma strip_idem s : strip (strip s) = strip s.
Proof.
  unfold strip.
  rewrite (lstrip_rstrip_fixed (lstrip s) (lstrip_idem s)).
  apply rstrip_idem.
Qed.

Lemma strip_nil : strip "" = "".
Proof. reflexivity. Qed.

Lemma all_bytes_app test a b :
  all_bytes test (a +:+ b) = all_bytes test a && all_bytes test b.
Proof.
  induction a as [|c a IH]; [reflexivity|].
  rewrite app_cons. simpl. by rewrite IH, andb_assoc.
Qed.

Lemma all_bytes_rev test s : all_bytes test (String.rev s) = all_bytes test s.
Proof.
  induction s as [|c s IH]; [reflexivity|].
  rewrite rev_cons, all_bytes_app, IH. simpl.
  rewrite andb_true_r. apply andb_comm.
Qed.

(** A text of plain ASCII bytes has nothing to trim. *)
Lemma plain_keep t :
  all_bytes plain_byte t = true ->
  drop_tokens ws1 ws2 ws3 t = t
  /\ drop_tokens ws1 (fun d c => ws2 c d) (fun e d c => ws3 c d e) t = t.
Proof.
  { revert t. intros [|c t]; [done|]. simpl.
    intros [[Hws Hlt]%andb_true_iff _]%andb_true_iff.
    apply negb_true_iff in Hws. apply N.ltb_lt in Hlt. rewrite Hws.
    split.
    - destruct t as [|d t]; [reflexivity|].
      assert (ws2 c d = false) as -> by byte_false.
      destruct t as [|e t]; [reflexivity|].
      by assert (ws3 c d e = false) as -> by byte_false.
    - destruct t as [|d t]; [reflexivity|].
      assert (ws2 d c = false) as -> by byte_false.
      destruct t as [|e t]; [reflexivity|].
      by assert (ws3 e d c = false) as -> by byte_false. }
Qed.

Lemma plain_lstrip s : all_bytes plain_byte s = true -> lstrip s = s.
Proof. intros Hs. apply (plain_keep s Hs). Qed.

Lemma plain_rstrip s : all_bytes plain_byte s = true -> rstrip s = s.
Proof.
  intros Hs. unfold rstrip.
  destruct (plain_keep (String.rev s)) as [_ ->]; [by rewrite all_bytes_rev|].
  apply rev_involutive.
Qed.

Lemma plain_strip s : all_bytes plain_byte s = true -> strip s = s.
Proof.
  intros Hs. unfold strip. rewrite (plain_lstrip s Hs). by apply plain_rstrip.
Qed.

Lemma letter_plain c : letter_byte c = true -> plain_byte c = true.
Proof.
  unfold letter_byte, plain_byte. intros H.
  apply andb_true_iff. split.
  - apply negb_true_iff. byte_false.
  - apply N.ltb_lt. byte_facts; lia.
Qed.

(** A byte beyond ASCII is no letter. *)
Lemma domain_byte_ascii x :
  domain_byte x = true ->
  (97 <= N_of_ascii x <= 122 /\ N_of_ascii x <> 107)%N.
Proof.
  unfold domain_byte, byte_in, byte_is.
  intros [[H1 H2]%andb_true_iff H3%negb_true_iff]%andb_true_iff.
  apply N.leb_le in H1, H2. apply N.eqb_neq in H3. lia.
Qed.

(** The bytes of a code point are those of a lower-case ASCII letter only
    for such a letter. *)
Lemma encode_cp_domain c :
  all_bytes domain_byte (encode_cp c) = true ->
  (97 <= c <= 122 /\ c <> 107)%N.
Proof.
  unfold encode_cp.
  destruct (c <? 128)%N eqn:E1.
  { apply N.ltb_lt in E1. simpl. rewrite andb_true_r.
    intros H%domain_byte_ascii. rewrite N_ascii_embedding in H; lia. }
  intros H. exfalso.
  assert (forall n rest, (128 <= n < 256)%N ->
            all_bytes domain_byte (String (ascii_of_N n) rest) = true -> False)
    as Hhigh.
  { intros n rest Hn [Hx _]%andb_true_iff. apply domain_byte_ascii in Hx.
    rewrite N_ascii_embedding in Hx; lia. }
  destruct (c <? 2048)%N; [|destruct (c <? 65536)%N].
  - apply Hhigh in H; [exact H|].
    assert ((c / 64) mod 32 < 32)%N as Hm by (by apply N.mod_upper_bound).
    revert Hm. generalize ((c / 64) mod 32)%N. intros; lia.
  - apply Hhigh in H; [exact H|].
    assert ((c / 4096) mod 16 < 16)%N as Hm by (by apply N.mod_upper_bound).
    revert Hm. generalize ((c / 4096) mod 16)%N. intros; lia.
  - apply Hhigh in H; [exact H|].
    assert ((c / 262144) mod 8 < 8)%N as Hm by (by apply N.mod_upper_bound).
    revert Hm. generalize ((c / 262144) mod 8)%N. intros; lia.
Qed.

Lemma runs_plain : forallb run_plain lowercase_runs = true.
Proof. vm_compute. reflexivity. Qed.

(** Only an ASCII letter has a lower-case ASCII letter other than k as
    its lowercase form. *)
Lemma to_lower_full_letters c :
  all_bytes domain_byte (encode (to_lower_full c)) = true ->
  (65 <= c <= 90 \/ 97 <= c <= 122)%N.
Proof.
  unfold to_lower_full. destruct (c =? 304)%N.
  { intros H. vm_compute in H. discriminate H. }
  destruct (find (in_run c) lowercase_runs)
    as [[[[first last] step] target]|] eqn:Ef.
  - apply find_some in Ef as [Hin Hrun].
    pose proof (proj1 (forallb_forall _ _) runs_plain _ Hin) as Hp.
    cbn [encode]. rewrite all_bytes_app.
    intros [H _]%andb_true_iff. apply encode_cp_domain in H.
    unfold in_run in Hrun. unfold run_plain in Hp.
    apply andb_true_iff in Hrun as [[H1 H2]%andb_true_iff _].
    apply N.leb_le in H1, H2.
    apply orb_true_iff in Hp as [[Hp|Hp]%orb_true_iff|Hp].
    + apply N.ltb_lt in Hp. lia.
    + apply andb_true_iff in Hp as [H3 H4]. apply N.leb_le in H3, H4. lia.
    + apply andb_true_iff in Hp as [H3 H4]. apply N.eqb_eq in H3, H4. lia.
  - cbn [encode]. rewrite all_bytes_app.
    intros [H _]%andb_true_iff. apply encode_cp_domain in H. lia.
Qed.

(** A text whose lowercase form is made of lower-case ASCII letters other
    than k is made of ASCII letters. *)
Lemma lower_items_letters l prev :
  all_bytes domain_byte (lower_items prev l) = true -> Forall letter_item l.
Proof.
  revert prev. induction l as [|i l IH]; intros prev; [constructor|].
  cbn [lower_items]. rewrite all_bytes_app. intros [Hi Hl]%andb_true_iff.
  constructor; [|by eapply IH].
  destruct i as [c|b]; unfold lower_item in Hi.
  - destruct (c =? 931)%N.
    + exfalso. destruct (prev && negb _); vm_compute in Hi; discriminate Hi.
    + by apply to_lower_full_letters.
  - simpl in Hi. rewrite andb_true_r in Hi. unfold letter_item, letter_byte.
    apply andb_true_iff in Hi as [-> _]. apply orb_true_r.
Qed.

Lemma decode_letters s :
  Forall letter_item (decode s) -> all_bytes letter_byte s = true.
Proof.
  assert (forall a rest, byte_in 0 127 a = false ->
            Forall letter_item (Stray a :: rest) -> False) as Hstray.
  { intros a rest Ea H. inversion H as [|? ? Hl _]; subst.
    unfold letter_item, letter_byte, byte_in in *.
    apply andb_false_iff in Ea as [Ea|Ea]; apply N.leb_gt in Ea;
      apply orb_true_iff in Hl as [Hl|Hl];
      apply andb_true_iff in Hl as [H1 H2]; apply N.leb_le in H1, H2; lia. }
  assert (forall c rest, (128 <= c)%N ->
            Forall letter_item (Char c :: rest) -> False) as Hchar.
  { intros c rest Hc H. inversion H as [|? ? Hl _]; subst.
    unfold letter_item in Hl. lia. }
  induction s as [|a s1 IH]; [reflexivity|].
  cbn [decode]. destruct (byte_in 0 127 a) eqn:Ea.
  { intros H. inversion H as [|? ? Hl Hrest]; subst.
    cbn [all_bytes]. rewrite (IH Hrest), andb_true_r.
    unfold letter_item in Hl. unfold letter_byte, byte_in.
    destruct Hl as [[H1 H2]|[H1 H2]]; apply N.leb_le in H1, H2;
      rewrite H1, H2; [reflexivity|apply orb_true_r]. }
  destruct s1 as [|b s2]; [intros H; destruct (Hstray _ _ Ea H)|].
  destruct (lead2 a && cont b) eqn:E2.
  { intros H. exfalso. apply (Hchar _ _) in H; [exact H|].
    apply andb_true_iff in E2 as [E2 _].
    unfold lead2, byte_in in E2. apply andb_true_iff in E2 as [H1 _].
    apply N.leb_le in H1. unfold cp2. lia. }
  destruct s2 as [|c s3]; [intros H; destruct (Hstray _ _ Ea H)|].
  destruct (lead3 a b && cont c) eqn:E3.
  { intros H. exfalso. apply (Hchar _ _) in H; [exact H|].
    apply andb_true_iff in E3 as [E3 _].
    unfold lead3, cont, byte_in, byte_is in E3. unfold cp3.
    repeat match goal with
      | H : _ && _ = true |- _ => apply andb_true_iff in H; destruct H
      | H : _ || _ = true |- _ => apply orb_true_iff in H; destruct H
      | H : (_ <=? _)%N = true |- _ => apply N.leb_le in H
      | H : (_ =? _)%N = true |- _ => apply N.eqb_eq in H
      end; lia. }
  destruct s3 as [|d s4]; [intros H; destruct (Hstray _ _ Ea H)|].
  destruct (lead4 a b && cont c && cont d) eqn:E4;
    [|intros H; destruct (Hstray _ _ Ea H)].
  intros H. exfalso. apply (Hchar _ _) in H; [exact H|].
  apply andb_true_iff in E4 as [[E4 _]%andb_true_iff _].
  unfold lead4, cont, byte_in, byte_is in E4. unfold cp4.
  repeat match goal with
    | H : _ && _ = true |- _ => apply andb_true_iff in H; destruct H
    | H : _ || _ = true |- _ => apply orb_true_iff in H; destruct H
    | H : (_ <=? _)%N = true |- _ => apply N.leb_le in H
    | H : (_ =? _)%N = true |- _ => apply N.eqb_eq in H
    end; lia.
Qed.

Lemma all_bytes_impl (test1 test2 : ascii -> bool) s :
  (forall c, test1 c = true -> test2 c = true) ->
  all_bytes test1 s = true -> all_bytes test2 s = true.
Proof.
  intros Himp. induction s as [|c s IH]; [reflexivity|]. simpl.
  intros [Hc Hs]%andb_true_iff. by rewrite (Himp c Hc), IH.
Qed.

(** A text that lowers to lower-case ASCII letters other than k is made
    of ASCII letters: it has nothing to trim. *)
Lemma lower_letters s :
  all_bytes domain_byte (lower s) = true ->
  all_bytes plain_byte s = true.
Proof.
  intros H. apply (all_bytes_impl letter_byte); [apply letter_plain|].
  apply decode_letters. by apply (lower_items_letters _ false).
Qed.

Lemma valid_domain_letters d :
  d ∈ valid_domains ->
  all_bytes domain_byte d = true /\ d <> "".
Proof.
  unfold valid_domains. rewrite !elem_of_cons, elem_of_nil.
  intros [->|[->|[->|[->|[->|[]]]]]]; split; done.
Qed.

(** The five domains are in lower case already. *)
Lemma lower_valid_domain d : d ∈ valid_domains -> lower d = d.
Proof.
  unfold valid_domains. rewrite !elem_of_cons, elem_of_nil.
  intros [->|[->|[->|[->|[->|[]]]]]]; vm_compute; reflexivity.
Qed.

(** The list of the domains in the rejection message. *)
Lemma valid_domains_sorted_text :
  valid_domains_sorted = "cover, fan, light, sensor, switch".
Proof. vm_compute. reflexivity. Qed.

End StripFacts.

(** ** More on the validators *)

Lemma guard_empty host :
  negb (PyStr.truthy host) || negb (PyStr.truthy (PyStr.strip host)) = true
  <-> PyStr.whitespace_only host.
Proof.
  rewrite PyStrFacts.strip_whitespace_only. split.
  - intros [H|H]%orb_true_iff; apply negb_true_iff in H.
    + apply PyStrFacts.truthy_false in H. by subst.
    + by apply PyStrFacts.truthy_false.
  - intros ->. apply orb_true_r.
Qed.

Lemma guard_full host :
  negb (PyStr.truthy host) || negb (PyStr.truthy (PyStr.strip host)) = false
  <-> ~ PyStr.whitespace_only host.
Proof.
  rewrite <- guard_empty. by destruct (_ || _).
Qed.

(** X1.  What host validation returns is in normal form: it is an IP
    literal, it is not empty, trimming it changes nothing, and validating
    it again returns it unchanged. *)
Theorem validate_host_ip_normal_form (ip_address : string -> bool)
    (host h : string) :
  validate_host_ip ip_address host = Ok h ->
  ip_address h = true /\ h <> "" /\ PyStr.strip h = h
  /\ validate_host_ip ip_address h = Ok h.
Proof.
  unfold validate_host_ip, raise_new.
  destruct (_ || _) eqn:Eg; [discriminate|].
  destruct (ip_address (PyStr.strip host)) eqn:Eip; [|discriminate].
  intros [= <-].
  assert (PyStr.strip host <> "") as Hne.
  { apply guard_full in Eg. intros E. apply Eg.
    by apply PyStrFacts.strip_whitespace_only. }
  split; [exact Eip|]. split; [exact Hne|].
  split; [apply StripFacts.strip_idem|].
  assert (negb (PyStr.truthy (PyStr.strip host))
          || negb (PyStr.truthy (PyStr.strip (PyStr.strip host))) = false) as ->.
  { apply guard_full. intros Hw. apply PyStrFacts.strip_whitespace_only in Hw.
    rewrite StripFacts.strip_idem in Hw. contradiction. }
  by rewrite StripFacts.strip_idem, Eip.
Qed.

Lemma validate_host_ip_normal_form_witness :
  Demo.dotted_quad "192.168.1.1" = true /\ "192.168.1.1" <> ""
  /\ PyStr.strip "192.168.1.1" = "192.168.1.1"
  /\ validate_host_ip Demo.dotted_quad "192.168.1.1" = Ok "192.168.1.1".
Proof.
  apply (validate_host_ip_normal_form Demo.dotted_quad "  192.168.1.1  ").
  reflexivity.
Defined.

(** X2.  What domain validation returns is one of the five domains, it is
    the trimmed and lower-cased input, and validating it again returns it
    unchanged. *)
Theorem validate_domain_normal_form (domain d : string) :
  validate_domain domain = Ok d ->
  d ∈ valid_domains
  /\ d = PyStr.lower (PyStr.strip domain)
  /\ validate_domain d = Ok d.
Proof.
  unfold validate_domain at 1. unfold raise_new.
  destruct (_ || _) eqn:Eg; [discriminate|].
  case_bool_decide as Hin; [|discriminate]. intros [= <-].
  set (d := PyStr.lower (PyStr.strip domain)) in *.
  split; [exact Hin|]. split; [reflexivity|].
  destruct (StripFacts.valid_domain_letters d Hin) as [Hl Hne].
  pose proof (StripFacts.lower_valid_domain d Hin) as Hfix.
  assert (all_bytes plain_byte d = true) as Hp.
  { apply StripFacts.lower_letters. by rewrite Hfix. }
  unfold validate_domain.
  rewrite (StripFacts.plain_strip d Hp), Hfix.
  destruct d; [done|]. simpl. by rewrite bool_decide_true.
Qed.

Lemma validate_domain_normal_form_witness :
  "switch" ∈ valid_domains
  /\ "switch" = PyStr.lower (PyStr.strip "  SWITCH ")
  /\ validate_domain "switch" = Ok "switch".
Proof. apply (validate_domain_normal_form "  SWITCH "). reflexivity. Defined.

(** X3.  Domain validation ignores case and surrounding whitespace: a text
    whose lower-cased form is one of the five domains, wrapped in any
    whitespace, is accepted as that domain. *)
Theorem validate_domain_tolerant (pre s post : string) :
  PyStr.whitespace_only pre -> PyStr.whitespace_only post ->
  PyStr.lower s ∈ valid_domains ->
  validate_domain (pre +:+ s +:+ post) = Ok (PyStr.lower s).
Proof.
  intros Hpre Hpost Hin.
  destruct (StripFacts.valid_domain_letters _ Hin) as [Hl Hne].
  pose proof (StripFacts.lower_letters s Hl) as Hp.
  assert (s <> "") as Hs by (intros ->; by apply Hne).
  pose proof (PyStrFacts.strip_wrapped pre s post Hpre Hpost Hs
                (StripFacts.plain_lstrip s Hp) (StripFacts.plain_rstrip s Hp))
    as E.
  unfold validate_domain.
  assert (negb (PyStr.truthy (pre +:+ s +:+ post))
          || negb (PyStr.truthy (PyStr.strip (pre +:+ s +:+ post))) = false) as ->.
  { apply guard_full. intros Hw. apply PyStrFacts.strip_whitespace_only in Hw.
    congruence. }
  rewrite E. by rewrite bool_decide_true.
Qed.

Lemma validate_domain_tolerant_witness :
  validate_domain ("  " +:+ "Light" +:+ " ") = Ok (PyStr.lower "Light").
Proof.
  apply validate_domain_tolerant.
  - apply PyStrFacts.strip_whitespace_only. reflexivity.
  - apply PyStrFacts.strip_whitespace_only. reflexivity.
  - eapply (bool_decide_unpack _). vm_compute. exact I.
Defined.

(** X4.  Domain validation rejects the empty and the whitespace-only text
    with "Domain cannot be empty", and every other text whose trimmed,
    lower-cased form is not one of the five domains with a message that
    quotes that form and lists the valid domains in sorted order.  The
    lower-cased form is the one of [str.lower()], beyond ASCII too, and
    the list is [sorted(valid_domains)] joined with ", ". *)
Theorem validate_domain_rejects (domain : string) :
  (PyStr.whitespace_only domain ->
   validate_domain domain = raise_new ValidationError "Domain cannot be empty")
  /\ (~ PyStr.whitespace_only domain ->
      PyStr.lower (PyStr.strip domain) ∉ valid_domains ->
      validate_domain domain
      = raise_new ValidationError
          ("Invalid domain '" +:+ PyStr.lower (PyStr.strip domain)
           +:+ "'. Valid domains are: cover, fan, light, sensor, switch")).
Proof.
  unfold validate_domain. split.
  - intros Hw. apply guard_empty in Hw. by rewrite Hw.
  - intros Hw Hout. apply guard_full in Hw. rewrite Hw.
    rewrite bool_decide_false by exact Hout.
    by rewrite StripFacts.valid_domains_sorted_text.
Qed.

Lemma validate_domain_rejects_witness :
  validate_domain "   " = raise_new ValidationError "Domain cannot be empty"
  /\ validate_domain " Lights"
     = raise_new ValidationError
         "Invalid domain 'lights'. Valid domains are: cover, fan, light, sensor, switch"
  /\ validate_domain "LÜFTER"
     = raise_new ValidationError
         "Invalid domain 'lüfter'. Valid domains are: cover, fan, light, sensor, switch".
Proof.
  split; [|split].
  - apply (validate_domain_rejects "   ").
    apply PyStrFacts.strip_whitespace_only. reflexivity.
  - apply (validate_domain_rejects " Lights").
    + intros H. apply PyStrFacts.strip_whitespace_only in H. discriminate H.
    + eapply (bool_decide_unpack _). vm_compute. exact I.
  - apply (validate_domain_rejects "LÜFTER").
    + intros H. apply PyStrFacts.strip_whitespace_only in H. discriminate H.
    + eapply (bool_decide_unpack _). vm_compute. exact I.
Defined.

(** ** More on running computations *)

Lemma bind_raise {S A B} (m : M S A) (k : A -> M S B) s tr e s' tr' :
  bind m k s tr = (Raise e, s', tr') ->
  m s tr = (Raise e, s', tr')
  \/ exists a s1 tr1, m s tr = (Ok a, s1, tr1) /\ k a s1 tr1 = (Raise e, s', tr').
Proof.
  unfold bind. destruct (m s tr) as [[[a|e0] s1] tr1]; [eauto 10|].
  intros [= -> -> ->]. by left.
Qed.

Lemma try_except_raise {S A} (body : M S A) classes handler s tr e s' tr' :
  try_except body classes handler s tr = (Raise e, s', tr') ->
  (body s tr = (Raise e, s', tr')
   /\ existsb (isinstance_exc e) classes = false)
  \/ exists e0 s1 tr1,
       body s tr = (Raise e0, s1, tr1)
       /\ existsb (isinstance_exc e0) classes = true
       /\ handler e0 s1 tr1 = (Raise e, s', tr').
Proof.
  unfold try_except. destruct (body s tr) as [[[a|e0] s1] tr1]; [discriminate|].
  destruct (existsb _ _) eqn:E.
  - right. eauto 10.
  - intros [= -> -> ->]. by left.
Qed.

Lemma throw_inv {S A} c msg (s : S) tr (o : outcome A) s' tr' :
  throw c msg s tr = (o, s', tr') ->
  o = raise_new c msg /\ s' = s /\ tr' = tr.
Proof. unfold throw. by intros [= <- <- <-]. Qed.

Lemma ret_inv {S A} (a : A) (s : S) tr o s' tr' :
  ret a s tr = (o, s', tr') -> o = Ok a /\ s' = s /\ tr' = tr.
Proof. unfold ret. by intros [= <- <- <-]. Qed.

(** ** The certificate directory *)

Lemma validate_cert_directory_ok (P : Platform) {S : Type}
    (cert_dir p : string) (s s' : S) (tr tr' : trace) :
  validate_cert_directory P cert_dir s tr = (Ok p, s', tr') ->
  exists expanded resolved home0 home_dir tmp0 tmp_dir,
    let tr1 := tr ++ [EvExpanduser cert_dir] in
    let tr2 := tr1 ++ [EvResolve (path_str P expanded)] in
    let tr3 := tr2 ++ [EvHome] in
    let tr4 := tr3 ++ [EvResolve (path_str P home0)] in
    let tr5 := tr4 ++ [EvGettempdir] in
    ~ PyStr.whitespace_only cert_dir
    /\ expanduser P (path_new P cert_dir) tr = Ok expanded
    /\ resolve P expanded tr1 = Ok resolved
    /\ home P tr2 = Ok home0
    /\ resolve P home0 tr3 = Ok home_dir
    /\ gettempdir P tr4 = Ok tmp0
    /\ resolve P (path_new P tmp0) tr5 = Ok tmp_dir
    /\ (path_is_relative_to P resolved home_dir = true
        \/ path_is_relative_to P resolved tmp_dir = true)
    /\ p = path_str P resolved
    /\ s' = s.
Proof.
  unfold validate_cert_directory.
  destruct (_ || _) eqn:Eg;
    [intros H; apply throw_inv in H as (H & _); discriminate H|].
  intros Hrun.
  apply try_except_ok in Hrun as [Hrun|(e & s1 & tr1 & _ & _ & Hh)];
    [|apply throw_inv in Hh as (Hh & _); discriminate Hh].
  apply bind_ok in Hrun as (expanded & ? & ? & Hx & Hrun).
  apply extern_ok in Hx as (Hexp & -> & ->).
  apply bind_ok in Hrun as (resolved & ? & ? & Hx & Hrun).
  apply extern_ok in Hx as (Hres & -> & ->).
  apply bind_ok in Hrun as (home0 & ? & ? & Hx & Hrun).
  apply extern_ok in Hx as (Hhome & -> & ->).
  apply bind_ok in Hrun as (home_dir & ? & ? & Hx & Hrun).
  apply extern_ok in Hx as (Hhres & -> & ->).
  apply bind_ok in Hrun as (tmp0 & ? & ? & Hx & Hrun).
  apply extern_ok in Hx as (Htmp & -> & ->).
  apply bind_ok in Hrun as (tmp_dir & ? & ? & Hx & Hrun).
  apply extern_ok in Hx as (Htres & -> & ->).
  destruct (path_is_relative_to P resolved home_dir
            || path_is_relative_to P resolved tmp_dir) eqn:Erel;
    simpl in Hrun;
    [|apply throw_inv in Hrun as (Hrun & _); discriminate Hrun].
  apply ret_inv in Hrun as ([= ->] & -> & _).
  apply orb_true_iff in Erel.
  apply guard_full in Eg.
  exists expanded, resolved, home0, home_dir, tmp0, tmp_dir. simpl.
  repeat (split; [assumption|]). split; reflexivity.
Qed.


(** X5.  A directory accepted by [validate_cert_directory] is the text of
    the resolved path, and that path lies within the resolved home
    directory or the resolved temporary directory. *)
Theorem validate_cert_directory_safe (P : Platform) {S : Type}
    (cert_dir p : string) (s s' : S) (tr tr' : trace) :
  validate_cert_directory P cert_dir s tr = (Ok p, s', tr') ->
  exists expanded resolved home0 home_dir tmp0 tmp_dir,
    let tr1 := tr ++ [EvExpanduser cert_dir] in
    let tr2 := tr1 ++ [EvResolve (path_str P expanded)] in
    let tr3 := tr2 ++ [EvHome] in
    let tr4 := tr3 ++ [EvResolve (path_str P home0)] in
    let tr5 := tr4 ++ [EvGettempdir] in
    ~ PyStr.whitespace_only cert_dir
    /\ expanduser P (path_new P cert_dir) tr = Ok expanded
    /\ resolve P expanded tr1 = Ok resolved
    /\ home P tr2 = Ok home0
    /\ resolve P home0 tr3 = Ok home_dir
    /\ gettempdir P tr4 = Ok tmp0
    /\ resolve P (path_new P tmp0) tr5 = Ok tmp_dir
    /\ (path_is_relative_to P resolved home_dir = true
        \/ path_is_relative_to P resolved tmp_dir = true)
    /\ p = path_str P resolved
    /\ s' = s.
Proof. apply validate_cert_directory_ok. Qed.

Lemma validate_cert_directory_safe_witness :
  exists resolved home_dir tmp_dir : string,
    (Demo.starts_with home_dir resolved = true
     \/ Demo.starts_with tmp_dir resolved = true)
    /\ "/tmp/test_certs" = resolved.
Proof.
  destruct (validate_cert_directory_safe Demo.happy "/tmp/test_certs"
              "/tmp/test_certs" tt tt []
              [EvExpanduser "/tmp/test_certs"; EvResolve "/tmp/test_certs";
               EvHome; EvResolve "/home/user"; EvGettempdir; EvResolve "/tmp"]
              eq_refl)
    as (expanded & resolved & home0 & home_dir & tmp0 & tmp_dir & H).
  simpl in H. destruct H as (_ & _ & _ & _ & _ & _ & _ & Hrel & Hp & _).
  exists resolved, home_dir, tmp_dir. split; [exact Hrel|exact Hp].
Defined.

Lemma validate_cert_directory_raise (P : Platform) {S : Type}
    (cert_dir : string) (s s' : S) (tr tr' : trace) (e : exc) :
  validate_cert_directory P cert_dir s tr = (Raise e, s', tr') ->
  isinstance_exc e ValueError = true \/ isinstance_exc e OSError = true ->
  e = RaiseOf ValidationError "Certificate directory cannot be empty"
  \/ e = RaiseOf ValidationError
           ("Invalid certificate directory path: " +:+ cert_dir).
Proof.
  unfold validate_cert_directory.
  destruct (_ || _) eqn:Eg.
  { intros H _. apply throw_inv in H as ([= <-] & _). by left. }
  intros Hrun Hcls.
  apply try_except_raise in Hrun as [[_ Hnot]|(e0 & s1 & tr1 & _ & _ & Hh)].
  - exfalso. simpl in Hnot. rewrite orb_false_r in Hnot.
    apply orb_false_iff in Hnot as [Ho Hv]. destruct Hcls; congruence.
  - apply throw_inv in Hh as ([= <-] & _). by right.
Qed.


(** X6.  Whatever [validate_cert_directory] raises as a [ValueError] or an
    [OSError] is a [ValidationError] with one of two messages: the
    directory is empty, or "Invalid certificate directory path: " followed
    by the input.  The message of the location check ("must be within
    home directory or temp directory") is raised inside the [try] and is
    replaced by the second one. *)
Theorem validate_cert_directory_errors (P : Platform) {S : Type}
    (cert_dir : string) (s s' : S) (tr tr' : trace) (e : exc) :
  validate_cert_directory P cert_dir s tr = (Raise e, s', tr') ->
  isinstance_exc e ValueError = true \/ isinstance_exc e OSError = true ->
  e = RaiseOf ValidationError "Certificate directory cannot be empty"
  \/ e = RaiseOf ValidationError
           ("Invalid certificate directory path: " +:+ cert_dir).
Proof. apply validate_cert_directory_raise. Qed.

Lemma validate_cert_directory_errors_witness :
  RaiseOf ValidationError "Invalid certificate directory path: /etc/ssl"
  = RaiseOf ValidationError "Certificate directory cannot be empty"
  \/ RaiseOf ValidationError "Invalid certificate directory path: /etc/ssl"
     = RaiseOf ValidationError
         ("Invalid certificate directory path: " +:+ "/etc/ssl").
Proof.
  apply (validate_cert_directory_errors Demo.happy "/etc/ssl" tt tt []
           [EvExpanduser "/etc/ssl"; EvResolve "/etc/ssl"; EvHome;
            EvResolve "/home/user"; EvGettempdir; EvResolve "/tmp"]).
  - reflexivity.
  - left. reflexivity.
Defined.

(** X7.  A directory that resolves outside both the home and the temporary
    directory is rejected with "Invalid certificate directory path: "
    followed by the input, after the six path queries and nothing else. *)
Theorem validate_cert_directory_rejects_outside (P : Platform) {S : Type}
    (cert_dir : string) (s : S) (tr : trace)
    (expanded resolved home0 home_dir tmp_dir : Path P) (tmp0 : string) :
  let tr1 := tr ++ [EvExpanduser cert_dir] in
  let tr2 := tr1 ++ [EvResolve (path_str P expanded)] in
  let tr3 := tr2 ++ [EvHome] in
  let tr4 := tr3 ++ [EvResolve (path_str P home0)] in
  let tr5 := tr4 ++ [EvGettempdir] in
  let tr6 := tr5 ++ [EvResolve (path_str P (path_new P tmp0))] in
  ~ PyStr.whitespace_only cert_dir ->
  expanduser P (path_new P cert_dir) tr = Ok expanded ->
  resolve P expanded tr1 = Ok resolved ->
  home P tr2 = Ok home0 ->
  resolve P home0 tr3 = Ok home_dir ->
  gettempdir P tr4 = Ok tmp0 ->
  resolve P (path_new P tmp0) tr5 = Ok tmp_dir ->
  path_is_relative_to P resolved home_dir = false ->
  path_is_relative_to P resolved tmp_dir = false ->
  validate_cert_directory P cert_dir s tr
  = (raise_new ValidationError
       ("Invalid certificate directory path: " +:+ cert_dir), s, tr6).
Proof.
  intros tr1 tr2 tr3 tr4 tr5 tr6 Hw Hexp Hres Hhome Hhres Htmp Htres Hr1 Hr2.
  subst tr1 tr2 tr3 tr4 tr5 tr6.
  unfold validate_cert_directory. apply guard_full in Hw. rewrite Hw.
  unfold try_except, bind, extern, throw, ret.
  rewrite Hexp, Hres, Hhome, Hhres, Htmp, Htres, Hr1, Hr2. reflexivity.
Qed.

Lemma validate_cert_directory_rejects_outside_witness :
  validate_cert_directory Demo.happy "/etc/ssl" tt []
  = (raise_new ValidationError "Invalid certificate directory path: /etc/ssl",
     tt,
     [EvExpanduser "/etc/ssl"; EvResolve "/etc/ssl"; EvHome;
      EvResolve "/home/user"; EvGettempdir; EvResolve "/tmp"]).
Proof.
  apply (validate_cert_directory_rejects_outside Demo.happy "/etc/ssl" tt []
           "/etc/ssl" "/etc/ssl" "/home/user" "/home/user" "/tmp" "/tmp");
    try reflexivity.
  intros H. apply PyStrFacts.strip_whitespace_only in H. discriminate H.
Defined.

(** *** Computations that do not touch the state *)

Lemma stateless_ret {S A} (a : A) : stateless (@ret S A a).
Proof. intros s tr o s' tr' H. by apply ret_inv in H as (_ & -> & _). Qed.

Lemma stateless_throw {S A} c msg : stateless (@throw S A c msg).
Proof. intros s tr o s' tr' H. by apply throw_inv in H as (_ & -> & _). Qed.

Lemma stateless_lift {S A} (o : outcome A) : stateless (@lift S A o).
Proof. intros s tr o' s' tr'. unfold lift. by intros [= _ <- _]. Qed.

Lemma stateless_extern {S A} ev (answer : trace -> outcome A) :
  stateless (@extern S A ev answer).
Proof. intros s tr o s' tr'. unfold extern. by intros [= _ <- _]. Qed.

Lemma stateless_emit {S} ev : stateless (@emit S ev).
Proof. intros s tr o s' tr'. unfold emit. by intros [= _ <- _]. Qed.

Lemma stateless_getitem {S} d k : stateless (@getitem S d k).
Proof.
  unfold getitem. destruct (d !! k); [apply stateless_ret|apply stateless_throw].
Qed.

Lemma stateless_bind {S A B} (m : M S A) (k : A -> M S B) :
  stateless m -> (forall a, stateless (k a)) -> stateless (bind m k).
Proof.
  intros Hm Hk s tr o s' tr'. unfold bind.
  destruct (m s tr) as [[[a|e] s1] tr1] eqn:E.
  - intros H. apply Hk in H. apply Hm in E. congruence.
  - intros [= <- <- <-]. by apply Hm in E.
Qed.

Lemma stateless_try_except {S A} (body : M S A) classes handler :
  stateless body -> (forall e, stateless (handler e)) ->
  stateless (try_except body classes handler).
Proof.
  intros Hb Hh s tr o s' tr'. unfold try_except.
  destruct (body s tr) as [[[a|e] s1] tr1] eqn:E.
  - intros [= <- <- <-]. by apply Hb in E.
  - destruct (existsb _ _).
    + intros H. apply Hh in H. apply Hb in E. congruence.
    + intros [= <- <- <-]. by apply Hb in E.
Qed.

Lemma stateless_if {S A} (b : bool) (m1 m2 : M S A) :
  stateless m1 -> stateless m2 -> stateless (if b then m1 else m2).
Proof. by destruct b. Qed.

Ltac stateless_step :=
  first
    [ apply stateless_ret | apply stateless_throw | apply stateless_lift
    | apply stateless_extern | apply stateless_emit | apply stateless_getitem
    | apply stateless_if
    | apply stateless_bind; [|intros ?]
    | apply stateless_try_except; [|intros ?] ].

Ltac stateless := repeat stateless_step.

Lemma validate_cert_directory_stateless (P : Platform) {S} cert_dir :
  stateless (@validate_cert_directory P S cert_dir).
Proof. unfold validate_cert_directory. stateless. Qed.

Lemma get_cert_dir_stateless (P : Platform) {S} :
  stateless (@get_cert_dir P S).
Proof.
  unfold get_cert_dir. stateless.
Qed.

(** X8.  When validation of the configured directory fails, [get_cert_dir]
    does not fail: it logs two warnings, the cause first, and returns the
    default directory. *)
Theorem get_cert_dir_falls_back (P : Platform) {S : Type} (s s1 : S)
    (tr tr1 : trace) (e : exc) :
  validate_cert_directory P
    (default (DEFAULT_CERT_DIR P) (getenv P "LUTRON_CERT_DIR" tr)) s
    (tr ++ [EvGetenv "LUTRON_CERT_DIR"]) = (Raise e, s1, tr1) ->
  isinstance_exc e ValidationError = true ->
  get_cert_dir P s tr
  = (Ok (DEFAULT_CERT_DIR P), s1,
     tr1 ++ [EvLog WARNING
               ("Certificate directory validation failed: " +:+ exc_str e);
             EvLog WARNING
               ("Falling back to default directory: " +:+ DEFAULT_CERT_DIR P)]).
Proof.
  intros Hv He. unfold get_cert_dir. unfold bind at 1. unfold extern at 1.
  unfold try_except. rewrite Hv. simpl. rewrite He. simpl.
  unfold bind, emit, ret. by rewrite <- app_assoc.
Qed.

Lemma get_cert_dir_falls_back_witness :
  get_cert_dir
    (Demo.platform (true, Ok Demo.bundle) (Ok tt) (Ok tt)) tt []
  = get_cert_dir Demo.happy tt []
  /\ exists tr1,
       get_cert_dir Demo.stray tt []
       = (Ok "/home/user/.config/lutron-caseta-mcp", tt,
          tr1 ++ [EvLog WARNING
                    "Certificate directory validation failed: Invalid certificate directory path: /etc/ssl";
                  EvLog WARNING
                    "Falling back to default directory: /home/user/.config/lutron-caseta-mcp"]).
Proof.
  split; [reflexivity|]. eexists.
  apply (get_cert_dir_falls_back Demo.stray tt tt []
           _ (RaiseOf ValidationError
                "Invalid certificate directory path: /etc/ssl")
           eq_refl eq_refl).
Defined.

(** X9.  [get_cert_dir] returns either the default directory, when
    validation of the configured directory raised a [ValidationError], or
    the text of the path that the configured directory resolves to, and
    then this path lies within the resolved home directory or the resolved
    temporary directory.  It never raises a [ValueError] (so no
    [ValidationError]) nor an [OSError], and it leaves the state alone. *)
Theorem get_cert_dir_result (P : Platform) {S : Type} (s s' : S)
    (tr tr' : trace) (o : outcome string) :
  get_cert_dir P s tr = (o, s', tr') ->
  let cert_dir := default (DEFAULT_CERT_DIR P) (getenv P "LUTRON_CERT_DIR" tr) in
  let tr0 := tr ++ [EvGetenv "LUTRON_CERT_DIR"] in
  s' = s
  /\ (forall p, o = Ok p ->
        (p = DEFAULT_CERT_DIR P
         /\ exists e,
              result_of (validate_cert_directory P cert_dir s tr0) = Raise e
              /\ isinstance_exc e ValidationError = true)
        \/ exists expanded resolved home0 home_dir tmp0 tmp_dir,
             let tr1 := tr0 ++ [EvExpanduser cert_dir] in
             let tr2 := tr1 ++ [EvResolve (path_str P expanded)] in
             let tr3 := tr2 ++ [EvHome] in
             let tr4 := tr3 ++ [EvResolve (path_str P home0)] in
             let tr5 := tr4 ++ [EvGettempdir] in
             expanduser P (path_new P cert_dir) tr0 = Ok expanded
             /\ resolve P expanded tr1 = Ok resolved
             /\ home P tr2 = Ok home0
             /\ resolve P home0 tr3 = Ok home_dir
             /\ gettempdir P tr4 = Ok tmp0
             /\ resolve P (path_new P tmp0) tr5 = Ok tmp_dir
             /\ (path_is_relative_to P resolved home_dir = true
                 \/ path_is_relative_to P resolved tmp_dir = true)
             /\ p = path_str P resolved)
  /\ (forall e, o = Raise e ->
        isinstance_exc e ValueError = false
        /\ isinstance_exc e OSError = false).
Proof.
  intros Hrun cert_dir tr0. revert Hrun.
  unfold get_cert_dir. unfold bind at 1. unfold extern at 1.
  fold cert_dir tr0. unfold try_except, result_of.
  destruct (validate_cert_directory P cert_dir s tr0) as [[[p|e] s1] tr1] eqn:Ev.
  - intros [= <- <- <-].
    destruct (validate_cert_directory_ok P _ _ _ _ _ _ Ev)
      as (x & resolved & h0 & hd & t0 & td & H). cbv zeta in H.
    destruct H as (_ & Hexp & Hres & Hhome & Hhres & Htmp & Htres & Hrel & -> & ->).
    split; [reflexivity|]. split; [|discriminate].
    intros p' [= <-]. right. exists x, resolved, h0, hd, t0, td. cbv zeta.
    by repeat split.
  - pose proof (validate_cert_directory_stateless P cert_dir _ _ _ _ _ Ev) as ->.
    destruct (existsb _ _) eqn:Ec.
    + unfold bind, emit, ret. intros [= <- <- <-].
      split; [reflexivity|]. split; [|discriminate].
      intros p [= <-]. left. split; [reflexivity|]. exists e. simpl.
      split; [reflexivity|]. simpl in Ec. by rewrite orb_false_r in Ec.
    + intros [= <- <- <-]. split; [reflexivity|]. split; [discriminate|].
      intros e' [= <-]. simpl in Ec. rewrite orb_false_r in Ec.
      destruct (isinstance_exc e ValueError) eqn:E1.
      { destruct (validate_cert_directory_raise P _ _ _ _ _ _ Ev (or_introl E1))
          as [->| ->]; discriminate Ec. }
      destruct (isinstance_exc e OSError) eqn:E2; [|done].
      destruct (validate_cert_directory_raise P _ _ _ _ _ _ Ev (or_intror E2))
        as [->| ->]; discriminate Ec.
Qed.

Lemma get_cert_dir_result_witness :
  exists resolved home_dir tmp_dir : string,
    get_cert_dir Demo.configured tt [] 
    = (Ok resolved, tt,
       [EvGetenv "LUTRON_CERT_DIR"; EvExpanduser "/tmp/test_certs";
        EvResolve "/tmp/test_certs"; EvHome; EvResolve "/home/user";
        EvGettempdir; EvResolve "/tmp"])
    /\ resolved = "/tmp/test_certs"
    /\ home_dir = "/home/user" /\ tmp_dir = "/tmp"
    /\ (Demo.starts_with home_dir resolved = true
        \/ Demo.starts_with tmp_dir resolved = true).
Proof.
  destruct (get_cert_dir_result Demo.configured tt tt []
              [EvGetenv "LUTRON_CERT_DIR"; EvExpanduser "/tmp/test_certs";
               EvResolve "/tmp/test_certs"; EvHome; EvResolve "/home/user";
               EvGettempdir; EvResolve "/tmp"]
              (Ok "/tmp/test_certs") eq_refl)
    as (_ & H & _).
  destruct (H _ eq_refl) as [[Hd _]|(expanded & resolved & home0 & home_dir
                                     & tmp0 & tmp_dir & Hx)];
    [discriminate Hd|].
  cbv zeta in Hx.
  destruct Hx as (Hexp & Hres & Hhome & Hhres & Htmp & Htres & Hrel & Hp).
  exists resolved, home_dir, tmp_dir.
  injection Hhome as <-. injection Hhres as <-.
  injection Htmp as <-. injection Htres as <-.
  change ("/tmp/test_certs" = resolved) in Hp. destruct Hp.
  split; [reflexivity|]. split; [reflexivity|]. split; [reflexivity|].
  split; [reflexivity|]. exact Hrel.
Defined.

(** ** Environment variables *)

(** X10.  [validate_environment_variable] never returns the empty text: a
    value it returns is the trimmed value of the variable and is not
    empty, an unset or blank variable gives [None] when it is optional and
    a [ValidationError] when it is required.  It reads the variable once
    and changes nothing. *)
Theorem validate_environment_variable_spec (P : Platform) {S : Type}
    (var_name : string) (required : bool) (s : S) (tr : trace) :
  ~ PyStr.whitespace_only var_name ->
  let raw := getenv P var_name tr in
  let value := PyStr.strip (default "" raw) in
  validate_environment_variable P var_name required s tr
  = (if PyStr.truthy value then Ok (Some value)
     else if required then
       raise_new ValidationError
         (match raw with
          | Some _ => "Required environment variable cannot be empty: "
          | None => "Required environment variable not set: "
          end +:+ var_name)
     else Ok None,
     s, tr ++ [EvGetenv var_name])
  /\ (PyStr.truthy value = true -> value <> "" /\ PyStr.strip value = value).
Proof.
  intros Hname raw value. subst raw value. split.
  - unfold validate_environment_variable. apply guard_full in Hname.
    rewrite Hname. unfold bind, extern, throw, ret.
    destruct (getenv P var_name tr) as [raw|]; simpl.
    + destruct (PyStr.truthy (PyStr.strip raw)); simpl; [reflexivity|].
      by destruct required.
    + by destruct required.
  - intros Ht. split; [by intros E; rewrite E in Ht|].
    apply StripFacts.strip_idem.
Qed.

Lemma validate_environment_variable_spec_witness :
  validate_environment_variable Demo.stray "LUTRON_BRIDGE_IP" true tt []
  = (Ok (Some "192.168.1.100"), tt, [EvGetenv "LUTRON_BRIDGE_IP"])
  /\ validate_environment_variable Demo.stray "TEST_VAR" true tt []
     = (raise_new ValidationError
          "Required environment variable not set: TEST_VAR",
        tt, [EvGetenv "TEST_VAR"]).
Proof.
  split.
  - apply (validate_environment_variable_spec Demo.stray "LUTRON_BRIDGE_IP"
             true tt []).
    intros H. apply PyStrFacts.strip_whitespace_only in H. discriminate H.
  - apply (validate_environment_variable_spec Demo.stray "TEST_VAR" true tt []).
    intros H. apply PyStrFacts.strip_whitespace_only in H. discriminate H.
Defined.

(** ** More on the pairing flow *)

Lemma call_async_pair_stateless (P : Platform) {S} host cb :
  stateless (@call_async_pair P S host cb).
Proof.
  intros s tr o s' tr'. unfold call_async_pair.
  destruct (async_pair P host tr). by intros [= _ <- _].
Qed.

Lemma write_file_stateless (P : Platform) {S} p (text : M S string) :
  stateless text -> stateless (write_file P p text).
Proof.
  intros Ht. unfold write_file. apply stateless_bind; [apply stateless_extern|].
  intros _ s tr o s' tr'.
  destruct (bind text _ s tr) as [[r s1] tr1] eqn:E.
  assert (s1 = s) as ->.
  { revert E. apply stateless_bind; [exact Ht|]. intros t.
    apply stateless_extern. }
  destruct (file_close P p tr1); by intros [= _ <- _].
Qed.

Lemma pair_bridge_stateless (P : Platform) {S} host output_dir cb :
  stateless (@pair_bridge P S host output_dir cb).
Proof.
  unfold pair_bridge.
  repeat first
    [ apply call_async_pair_stateless
    | apply write_file_stateless
    | stateless_step ].
Qed.

(** X11.  [pair_bridge] never raises an instance of [Exception], whatever
    the primitive, pathlib and the filesystem do: every such failure comes
    back as a result with [success] false, no data, and a message made of
    "Pairing failed: " and the text of the cause.  It does not touch the
    state it runs on. *)
Theorem pair_bridge_never_raises (P : Platform) {S : Type}
    (host output_dir : string) (cb : option callable) (s s' : S)
    (tr tr' : trace) (o : outcome PairingResult) :
  pair_bridge P host output_dir cb s tr = (o, s', tr') ->
  s' = s
  /\ (forall e, o = Raise e -> isinstance_exc e Exception = false)
  /\ (forall r, o = Ok r -> success r = false ->
        data r = None
        /\ exists e, isinstance_exc e Exception = true
                     /\ message r = "Pairing failed: " +:+ exc_str e).
Proof.
  intros Hrun. split; [by apply pair_bridge_stateless in Hrun|].
  unfold pair_bridge in Hrun. split.
  - intros e ->.
    apply try_except_raise in Hrun as [[_ Hnot]|(e0 & s1 & tr1 & _ & _ & Hh)].
    + simpl in Hnot. by rewrite orb_false_r in Hnot.
    + apply ret_inv in Hh as (Hh & _). discriminate Hh.
  - intros r -> Hfail.
    apply try_except_ok in Hrun as [Hrun|(e & s1 & tr1 & _ & Hc & Hh)].
    + exfalso.
      repeat (apply bind_ok in Hrun as (? & ? & ? & _ & Hrun)).
      apply ret_inv in Hrun as ([= ->] & _). discriminate Hfail.
    + apply ret_inv in Hh as ([= ->] & _). split; [reflexivity|].
      exists e. split; [|reflexivity].
      simpl in Hc. by rewrite orb_false_r in Hc.
Qed.

Lemma pair_bridge_never_raises_witness :
  data {| success := false; message := "Pairing failed: Pairing timeout";
          data := None |} = None
  /\ exists e, isinstance_exc e Exception = true
               /\ "Pairing failed: Pairing timeout"
                  = "Pairing failed: " +:+ exc_str e.
Proof.
  destruct (pair_bridge_never_raises Demo.timeout "192.168.1.100" "/tmp/certs"
              None tt tt [] _ _ eq_refl) as (_ & _ & H).
  exact (H _ eq_refl eq_refl).
Defined.

(** *** Running a computation forwards *)

Lemma bind_step {S A B} (m : M S A) (k : A -> M S B) s tr a s1 tr1 :
  m s tr = (Ok a, s1, tr1) -> bind m k s tr = k a s1 tr1.
Proof. unfold bind. by intros ->. Qed.

Lemma bind_stop {S A B} (m : M S A) (k : A -> M S B) s tr e s1 tr1 :
  m s tr = (Raise e, s1, tr1) -> bind m k s tr = (Raise e, s1, tr1).
Proof. unfold bind. by intros ->. Qed.

Lemma extern_step {S A} ev (answer : trace -> outcome A) (s : S) tr o :
  answer tr = o -> extern ev answer s tr = (o, s, tr ++ [ev]).
Proof. unfold extern. by intros ->. Qed.

Lemma try_except_caught {S A} (body : M S A) classes handler s tr e s1 tr1 :
  body s tr = (Raise e, s1, tr1) ->
  existsb (isinstance_exc e) classes = true ->
  try_except body classes handler s tr = handler e s1 tr1.
Proof. unfold try_except. by intros -> ->. Qed.

Lemma try_except_passed {S A} (body : M S A) classes handler s tr a s1 tr1 :
  body s tr = (Ok a, s1, tr1) ->
  try_except body classes handler s tr = (Ok a, s1, tr1).
Proof. unfold try_except. by intros ->. Qed.

Lemma call_async_pair_step (P : Platform) {S} host cb (s : S) tr ready o :
  async_pair P host tr = (ready, o) ->
  call_async_pair P host cb s tr
  = (o, s, tr ++ EvAsyncPair host :: (if ready then _ready cb else [])).
Proof. unfold call_async_pair. by intros ->. Qed.

Lemma write_file_done (P : Platform) {S} (p : Path P) d k t (s : S) tr :
  d !! k = Some t ->
  open_w P p tr = Ok tt ->
  file_write P p t (tr ++ [EvOpen (path_str P p)]) = Ok tt ->
  file_close P p ((tr ++ [EvOpen (path_str P p)]) ++ [EvWrite (path_str P p) t])
  = Ok tt ->
  write_file P p (getitem d k) s tr
  = (Ok tt, s,
     ((tr ++ [EvOpen (path_str P p)]) ++ [EvWrite (path_str P p) t])
     ++ [EvClose (path_str P p)]).
Proof.
  intros Hk Hop Hwr Hcl.
  unfold write_file, bind, extern, getitem, ret. by rewrite Hop, Hk, Hwr, Hcl.
Qed.

Lemma write_file_missing (P : Platform) {S} (p : Path P) d k (s : S) tr :
  d !! k = None ->
  open_w P p tr = Ok tt ->
  file_close P p (tr ++ [EvOpen (path_str P p)]) = Ok tt ->
  write_file P p (getitem d k) s tr
  = (raise_new KeyError ("'" +:+ k +:+ "'"), s,
     (tr ++ [EvOpen (path_str P p)]) ++ [EvClose (path_str P p)]).
Proof.
  intros Hk Hop Hcl.
  unfold write_file, bind, extern, getitem, throw, raise_new.
  rewrite Hop, Hk. cbv beta iota zeta. by rewrite Hcl.
Qed.

Lemma write_file_unopened (P : Platform) {S} (p : Path P) text (s : S) tr e :
  open_w P p tr = Raise e ->
  write_file P p text s tr = (Raise e, s, tr ++ [EvOpen (path_str P p)]).
Proof.
  intros Hop. unfold write_file. apply bind_stop. by apply extern_step.
Qed.

(** X12.  A bundle without a "ca" entry makes [pair_bridge] fail with the
    message "Pairing failed: 'ca'".  By then the output directory has been
    made and the CA file has been opened for writing and closed: it is
    left empty, and the other two files are not touched. *)
Theorem pair_bridge_missing_entry (P : Platform) {S : Type}
    (host output_dir : string) (cb : option callable) (s : S) (tr : trace)
    (ready : bool) (bundle : gmap string string) (output_path : Path P) :
  let ca_path := path_div P output_path "caseta-bridge.crt" in
  let tr1 := tr ++ EvAsyncPair host :: (if ready then _ready cb else []) in
  let tr2 := tr1 ++ [EvExpanduser output_dir] in
  let tr3 := tr2 ++ [EvMkdir (path_str P output_path)] in
  let tr4 := tr3 ++ [EvOpen (path_str P ca_path)] in
  async_pair P host tr = (ready, Ok bundle) ->
  bundle !! "ca" = None ->
  expanduser P (path_new P output_dir) tr1 = Ok output_path ->
  mkdir P output_path tr2 = Ok tt ->
  open_w P ca_path tr3 = Ok tt ->
  file_close P ca_path tr4 = Ok tt ->
  pair_bridge P host output_dir cb s tr
  = (Ok {| success := false; message := "Pairing failed: 'ca'"; data := None |},
     s, tr4 ++ [EvClose (path_str P ca_path)]).
Proof.
  intros ca_path tr1 tr2 tr3 tr4 Hpair Hca Hexp Hmk Hop Hcl.
  subst ca_path tr1 tr2 tr3 tr4.
  unfold pair_bridge. etransitivity.
  { eapply try_except_caught.
    - erewrite bind_step by (by apply call_async_pair_step).
      erewrite bind_step by (by apply extern_step).
      erewrite bind_step by (by apply extern_step).
      apply bind_stop. by apply write_file_missing.
    - reflexivity. }
  reflexivity.
Qed.

Lemma pair_bridge_missing_entry_witness :
  pair_bridge (Demo.platform (false, Ok ∅) (Ok tt) (Ok tt))
    "192.168.1.100" "/tmp/certs" None tt []
  = (Ok {| success := false; message := "Pairing failed: 'ca'"; data := None |},
     tt,
     [EvAsyncPair "192.168.1.100"; EvExpanduser "/tmp/certs";
      EvMkdir "/tmp/certs"; EvOpen "/tmp/certs/caseta-bridge.crt";
      EvClose "/tmp/certs/caseta-bridge.crt"]).
Proof.
  apply (pair_bridge_missing_entry
           (Demo.platform (false, Ok ∅) (Ok tt) (Ok tt))
           "192.168.1.100" "/tmp/certs" None tt [] false ∅ "/tmp/certs");
    reflexivity.
Defined.

(** X13.  No rollback: when opening the client certificate file fails,
    [pair_bridge] reports the failure and stops, and the CA certificate
    written before stays on the filesystem with its full text. *)
Theorem pair_bridge_partial_write (P : Platform) {S : Type}
    (host output_dir : string) (cb : option callable) (s : S) (tr : trace)
    (ready : bool) (bundle : gmap string string) (output_path : Path P)
    (ca : string) (e : exc) :
  let ca_path := path_div P output_path "caseta-bridge.crt" in
  let cert_path := path_div P output_path "caseta.crt" in
  let tr1 := tr ++ EvAsyncPair host :: (if ready then _ready cb else []) in
  let tr2 := tr1 ++ [EvExpanduser output_dir] in
  let tr3 := tr2 ++ [EvMkdir (path_str P output_path)] in
  let tr4 := tr3 ++ [EvOpen (path_str P ca_path)] in
  let tr5 := tr4 ++ [EvWrite (path_str P ca_path) ca] in
  let tr6 := tr5 ++ [EvClose (path_str P ca_path)] in
  async_pair P host tr = (ready, Ok bundle) ->
  bundle !! "ca" = Some ca ->
  expanduser P (path_new P output_dir) tr1 = Ok output_path ->
  mkdir P output_path tr2 = Ok tt ->
  open_w P ca_path tr3 = Ok tt ->
  file_write P ca_path ca tr4 = Ok tt ->
  file_close P ca_path tr5 = Ok tt ->
  open_w P cert_path tr6 = Raise e ->
  isinstance_exc e Exception = true ->
  pair_bridge P host output_dir cb s tr
  = (Ok {| success := false;
           message := "Pairing failed: " +:+ exc_str e;
           data := None |},
     s, tr6 ++ [EvOpen (path_str P cert_path)])
  /\ forall create_mode fs,
       content <$> files (fs_run create_mode fs (added tr tr6))
                     !! path_str P ca_path
       = Some ca.
Proof.
  intros ca_path cert_path tr1 tr2 tr3 tr4 tr5 tr6
    Hpair Hca Hexp Hmk Hop Hwr Hcl Hfail Hexc.
  subst ca_path cert_path tr1 tr2 tr3 tr4 tr5 tr6. split.
  - unfold pair_bridge. etransitivity.
    { eapply try_except_caught.
      - erewrite bind_step by (by apply call_async_pair_step).
        erewrite bind_step by (by apply extern_step).
        erewrite bind_step by (by apply extern_step).
        erewrite bind_step by (by apply write_file_done).
        apply bind_stop. by apply write_file_unopened.
      - by apply caught_exception. }
    reflexivity.
  - intros create_mode fs. rewrite <- !app_assoc, added_app.
    unfold fs_run. rewrite fold_left_app.
    assert (forall evs f, existsb is_fs_write evs = false ->
              fold_left (fs_step create_mode) evs f = f) as Hskip.
    { induction evs as [|ev evs IH]; intros f; [reflexivity|]. simpl.
      intros [Hev Hevs]%orb_false_iff.
      assert (fs_step create_mode f ev = f) as ->
        by (destruct ev; try discriminate; reflexivity).
      by apply IH. }
    rewrite (Hskip (EvAsyncPair host :: (if ready then _ready cb else [])))
      by (simpl; apply ready_events_no_fs_write).
    simpl. rewrite lookup_insert_eq. simpl. by rewrite lookup_insert_eq.
Qed.

Lemma pair_bridge_partial_write_witness :
  pair_bridge Demo.read_only_cert "192.168.1.100" "/tmp/certs" None tt []
  = (Ok {| success := false;
           message := "Pairing failed: Permission denied";
           data := None |},
     tt,
     [EvAsyncPair "192.168.1.100"; EvExpanduser "/tmp/certs";
      EvMkdir "/tmp/certs"; EvOpen "/tmp/certs/caseta-bridge.crt";
      EvWrite "/tmp/certs/caseta-bridge.crt" "mock ca certificate";
      EvClose "/tmp/certs/caseta-bridge.crt"; EvOpen "/tmp/certs/caseta.crt"]).
Proof.
  apply (pair_bridge_partial_write Demo.read_only_cert "192.168.1.100"
           "/tmp/certs" None tt [] false Demo.bundle "/tmp/certs"
           "mock ca certificate" (RaiseOf OSError "Permission denied"));
    reflexivity.
Defined.

(** ** Presence of the credential files *)

Lemma all_present (a b c : bool) :
  bool_decide
    (map_Forall (fun (_ : string) (present : bool) => present = true)
       (<["ca" := a]> (<["cert" := b]> (<["key" := c]> ∅))))
  = a && b && c.
Proof.
  rewrite (bool_decide_ext _ (a = true /\ b = true /\ c = true)).
  - by destruct a, b, c.
  - rewrite !map_Forall_insert by (by simplify_map_eq).
    pose proof (@map_Forall_empty string (gmap string) _ _ _ _ _ _ _ _ _ bool
                  (fun _ present => present = true)).
    tauto.
Qed.



(** *** Files stay *)

Lemma fs_exists_step create_mode fs ev p :
  fs_exists fs p = true -> fs_exists (fs_step create_mode fs ev) p = true.
Proof.
  unfold fs_exists. intros [H|H]%orb_true_iff; apply bool_decide_eq_true in H.
  - apply orb_true_iff. left. apply bool_decide_eq_true.
    destruct ev; simpl; try assumption;
      repeat case_match; simpl; try assumption;
      apply lookup_insert_is_Some'; by right.
  - apply orb_true_iff. right. apply bool_decide_eq_true.
    destruct ev; simpl; try assumption;
      repeat case_match; simpl; try assumption.
    set_solver.
Qed.

Lemma fs_exists_run create_mode evs fs p :
  fs_exists fs p = true -> fs_exists (fs_run create_mode fs evs) p = true.
Proof.
  revert fs. induction evs as [|ev evs IH]; intros fs H; [exact H|].
  apply IH. by apply fs_exists_step.
Qed.

Lemma fs_exists_opened create_mode evs fs p :
  In (EvOpen p) evs -> fs_exists (fs_run create_mode fs evs) p = true.
Proof.
  revert fs. induction evs as [|ev evs IH]; intros fs; [intros []|].
  intros [->|Hin]; [|by apply IH].
  change (fs_run create_mode fs (EvOpen p :: evs))
    with (fs_run create_mode (fs_step create_mode fs (EvOpen p)) evs).
  apply fs_exists_run. unfold fs_exists. simpl.
  apply orb_true_iff. left. apply bool_decide_eq_true.
  rewrite lookup_insert_eq. eauto.
Qed.

(** A successful pairing run, read backwards (the trace part). *)
Lemma pair_bridge_ok_trace (P : Platform) {S : Type}
    (host output_dir : string) (cb : option callable) (s s' : S)
    (tr tr' : trace) (r : PairingResult) :
  pair_bridge P host output_dir cb s tr = (Ok r, s', tr') ->
  success r = true ->
  exists (ready : bool) output_path ca cert key,
    expanduser P (path_new P output_dir)
      (tr ++ EvAsyncPair host :: (if ready then _ready cb else []))
    = Ok output_path
    /\ added tr tr'
       = EvAsyncPair host :: (if ready then _ready cb else [])
         ++ persist_events P output_dir output_path ca cert key
         ++ [EvAbsolute (path_str P output_path)].
Proof.
  intros Hrun Hsucc. unfold pair_bridge in Hrun.
  apply try_except_ok in Hrun as [Hrun|(e & s1 & tr1 & _ & _ & Hh)];
    [|unfold ret in Hh; injection Hh as <- _ _; discriminate Hsucc].
  apply bind_ok in Hrun as (bundle & s1 & tr1 & Hpair & Hrun).
  unfold call_async_pair in Hpair.
  destruct (async_pair P host tr) as [ready result] eqn:Epair.
  injection Hpair as -> <- <-.
  apply bind_ok in Hrun as (output_path & s2 & tr2 & Hx & Hrun).
  apply extern_ok in Hx as (Hexp & -> & ->).
  apply bind_ok in Hrun as (u1 & s3 & tr3 & Hx & Hrun).
  apply extern_ok in Hx as (Hmk & -> & ->).
  apply bind_ok in Hrun as (u2 & s4 & tr4 & Hx & Hrun).
  apply write_file_ok in Hx as (ca & Hca & -> & ->).
  apply bind_ok in Hrun as (u3 & s5 & tr5 & Hx & Hrun).
  apply write_file_ok in Hx as (cert & Hcert & -> & ->).
  apply bind_ok in Hrun as (u4 & s6 & tr6 & Hx & Hrun).
  apply write_file_ok in Hx as (key & Hkey & -> & ->).
  apply bind_ok in Hrun as (u5 & s7 & tr7 & Hx & Hrun).
  apply extern_ok in Hx as (Hch & -> & ->).
  apply bind_ok in Hrun as (version & s8 & tr8 & Hx & Hrun).
  apply getitem_ok in Hx as (Hver & -> & ->).
  apply bind_ok in Hrun as (shown & s9 & tr9 & Hx & Hrun).
  apply extern_ok in Hx as (Habs & -> & ->).
  apply bind_ok in Hrun as (version' & s10 & tr10 & Hx & Hrun).
  apply getitem_ok in Hx as (Hver' & -> & ->).
  unfold ret in Hrun. injection Hrun as <- <- <-.
  exists ready, output_path, ca, cert, key. split; [exact Hexp|].
  unfold persist_events. rewrite <- !app_assoc. apply added_app.
Qed.

(** X15.  Pairing and the presence check agree: on the filesystem that a
    successful pairing run leaves behind, [certificates_exist] for the same
    directory answers true, provided the directory expands to the same
    path as during pairing. *)
Theorem paired_certificates_exist (P : Platform) {S T : Type}
    (host output_dir : string) (cb : option callable) (s s' : S)
    (tr tr' : trace) (r : PairingResult)
    (create_mode : Z) (fs : filesystem) (t : T) (later : trace) :
  pair_bridge P host output_dir cb s tr = (Ok r, s', tr') ->
  success r = true ->
  (forall earlier,
     expanduser P (path_new P output_dir) earlier
     = expanduser P (path_new P output_dir) later) ->
  certificates_exist P (fs_run create_mode fs (added tr tr')) output_dir t later
  = (Ok true, t, later ++ [EvExpanduser output_dir]).
Proof.
  intros Hrun Hsucc Hstable.
  destruct (pair_bridge_ok_trace P _ _ _ _ _ _ _ _ Hrun Hsucc)
    as (ready & output_path & ca & cert & key & Hexp & ->).
  rewrite Hstable in Hexp.
  unfold certificates_exist, check_certificates.
  erewrite bind_step;
    [|erewrite bind_step by (by apply extern_step); reflexivity].
  unfold ret. rewrite all_present.
  rewrite !fs_exists_opened; [reflexivity|..];
    unfold persist_events; apply in_cons, in_or_app; right;
    apply in_or_app; left; simpl; tauto.
Qed.

Lemma paired_certificates_exist_witness :
  certificates_exist Demo.happy
    (fs_run 420 {| dirs := ∅; files := ∅ |} (added [] Demo.paired_trace))
    "/tmp/certs" tt []
  = (Ok true, tt, [] ++ [EvExpanduser "/tmp/certs"]).
Proof.
  apply (paired_certificates_exist Demo.happy "192.168.1.100" "/tmp/certs"
           None tt tt [] Demo.paired_trace Demo.paired 420 _ tt []
           pair_happy eq_refl).
  reflexivity.
Defined.

(** ** More on the connection manager *)

Lemma try_bool_step {S} (call : M S unit) (s : S) tr answer tr1
    (render : string -> string) :
  call s tr = (answer, s, tr1) ->
  raises_only_exceptions answer ->
  try_except (run call; ret true) [Exception]
    (fun e => run emit (EvLog ERROR (render (exc_str e))); ret false) s tr
  = (Ok (succeeded answer), s, tr1 ++ failure_log render answer).
Proof.
  intros Hcall Honly. unfold try_except, bind. rewrite Hcall.
  destruct answer as [u|e]; simpl.
  - unfold ret. by rewrite app_nil_r.
  - rewrite (Honly e eq_refl). reflexivity.
Qed.

Lemma guarded_connected {A} (op : handle -> M LutronCasetaManager A) m b tr :
  connected m = true -> bridge m = Some b -> guarded op m tr = op b m tr.
Proof. intros Hc Hb. unfold guarded, bind, get. by rewrite Hc, Hb. Qed.

(** X16.  On a connected manager [turn_on] and [turn_off] call the bridge
    exactly once and return whether the call succeeded; an exception of
    the bridge is logged, not raised.  The manager is unchanged. *)
Theorem turn_on_off_report (P : Platform) (m : LutronCasetaManager)
    (b : handle) (device_id : string) (tr : trace) :
  connected m = true -> bridge m = Some b ->
  raises_only_exceptions (bridge_turn_on P b device_id tr) ->
  raises_only_exceptions (bridge_turn_off P b device_id tr) ->
  turn_on P device_id m tr
  = (Ok (succeeded (bridge_turn_on P b device_id tr)), m,
     tr ++ EvTurnOn b device_id
           :: failure_log (fun err => "Failed to turn on device " +:+ device_id
                                       +:+ ": " +:+ err)
                (bridge_turn_on P b device_id tr))
  /\ turn_off P device_id m tr
     = (Ok (succeeded (bridge_turn_off P b device_id tr)), m,
        tr ++ EvTurnOff b device_id
              :: failure_log (fun err => "Failed to turn off device " +:+ device_id
                                          +:+ ": " +:+ err)
                   (bridge_turn_off P b device_id tr)).
Proof.
  intros Hc Hb Hon Hoff. unfold turn_on, turn_off.
  rewrite !(guarded_connected _ m b tr Hc Hb). split.
  - erewrite (try_bool_step _ _ _ _ _
                (fun err => "Failed to turn on device " +:+ device_id
                            +:+ ": " +:+ err));
      [|by apply extern_step|exact Hon].
    by rewrite <- app_assoc.
  - erewrite (try_bool_step _ _ _ _ _
                (fun err => "Failed to turn off device " +:+ device_id
                            +:+ ": " +:+ err));
      [|by apply extern_step|exact Hoff].
    by rewrite <- app_assoc.
Qed.

Lemma turn_on_off_report_witness :
  turn_on Demo.stray "1" Demo.connected_manager []
  = (Ok false, Demo.connected_manager,
     [EvTurnOn 1%nat "1";
      EvLog ERROR "Failed to turn on device 1: bridge busy"])
  /\ turn_off Demo.stray "1" Demo.connected_manager []
     = (Ok true, Demo.connected_manager, [EvTurnOff 1%nat "1"]).
Proof.
  apply (turn_on_off_report Demo.stray Demo.connected_manager 1%nat "1" []
           eq_refl eq_refl).
  - intros e [= <-]. reflexivity.
  - intros e [=].
Defined.

(** X17.  On a connected manager [set_level] rejects a level outside
    [0, 100] with [ValueError] before any call to the bridge; a level
    inside is passed to the bridge exactly once, with the device id, and
    the result says whether that call succeeded. *)
Theorem set_level_checks_range (P : Platform) (m : LutronCasetaManager)
    (b : handle) (device_id : string) (level : pyint) (tr : trace) :
  connected m = true -> bridge m = Some b ->
  (~ (0 <= int_value level <= 100) ->
   set_level P device_id level m tr
   = (raise_new ValueError "Level must be between 0 and 100", m, tr))
  /\ (0 <= int_value level <= 100 ->
      raises_only_exceptions (bridge_set_value P b device_id level tr) ->
      set_level P device_id level m tr
      = (Ok (succeeded (bridge_set_value P b device_id level tr)), m,
         tr ++ EvSetValue b device_id level
               :: failure_log (fun err => "Failed to set value for device "
                                          +:+ device_id +:+ ": " +:+ err)
                    (bridge_set_value P b device_id level tr))).
Proof.
  intros Hc Hb. unfold set_level.
  rewrite !(guarded_connected _ m b tr Hc Hb). split.
  - intros Hout.
    destruct (0 <=? int_value level) eqn:E1; [|reflexivity].
    destruct (int_value level <=? 100) eqn:E2; [|reflexivity].
    apply Z.leb_le in E1, E2. lia.
  - intros [H1 H2] Honly. apply Z.leb_le in H1, H2. rewrite H1, H2.
    cbv beta iota delta [negb andb].
    erewrite (try_bool_step _ _ _ _ _
                (fun err => "Failed to set value for device " +:+ device_id
                            +:+ ": " +:+ err));
      [|by apply extern_step|exact Honly].
    by rewrite <- app_assoc.
Qed.

Lemma set_level_checks_range_witness :
  set_level Demo.happy "1" (IntObj 150) Demo.connected_manager []
  = (raise_new ValueError "Level must be between 0 and 100",
     Demo.connected_manager, [])
  /\ set_level Demo.happy "1" (IntObj 50) Demo.connected_manager []
     = (Ok true, Demo.connected_manager, [EvSetValue 1%nat "1" (IntObj 50)]).
Proof.
  destruct (set_level_checks_range Demo.happy Demo.connected_manager 1%nat "1"
              (IntObj 150) [] eq_refl eq_refl) as [Hout _].
  destruct (set_level_checks_range Demo.happy Demo.connected_manager 1%nat "1"
              (IntObj 50) [] eq_refl eq_refl) as [_ Hin].
  split.
  - apply Hout. simpl. lia.
  - apply Hin; [simpl; lia|]. intros e [=].
Defined.

(** X18.  On a connected manager [get_devices_by_domain] asks the bridge
    once and returns its list, the empty list when the bridge has none; an
    exception of the bridge is not caught here. *)
Theorem get_devices_never_none (P : Platform) (m : LutronCasetaManager)
    (b : handle) (domain : string) (tr : trace) :
  connected m = true -> bridge m = Some b ->
  get_devices_by_domain P domain m tr
  = (match bridge_get_devices P b domain tr with
     | Ok (Some devices) => Ok devices
     | Ok None => Ok []
     | Raise e => Raise e
     end, m, tr ++ [EvGetDevices b domain]).
Proof.
  intros Hc Hb. unfold get_devices_by_domain.
  rewrite (guarded_connected _ m b tr Hc Hb).
  unfold bind, extern, ret.
  by destruct (bridge_get_devices P b domain tr) as [[devices|]|e].
Qed.

Lemma get_devices_never_none_witness :
  get_devices_by_domain Demo.happy "light" Demo.connected_manager []
  = (Ok [], Demo.connected_manager, [EvGetDevices 1%nat "light"]).
Proof.
  apply (get_devices_never_none Demo.happy Demo.connected_manager 1%nat
           "light" [] eq_refl eq_refl).
Defined.

Lemma guarded_stateless {A} (op : handle -> M LutronCasetaManager A) :
  (forall b, stateless (op b)) -> stateless (guarded op).
Proof.
  intros Hop s tr o s' tr'. unfold guarded, bind, get.
  destruct (connected s); simpl; [|by intros [= _ <- _]].
  destruct (bridge s) as [b|]; [apply Hop|by intros [= _ <- _]].
Qed.

Lemma stateless_state_of {S A} (m : M S A) s tr :
  stateless m -> state_of (m s tr) = s.
Proof.
  intros Hm. destruct (m s tr) as [[o s'] tr'] eqn:E. simpl.
  by apply Hm in E.
Qed.

(** X19.  The manager keeps "connected implies a session is held": the
    constructor establishes it, [connect] and [disconnect] preserve it on
    every outcome, and the four device operations never change the
    manager at all. *)
Theorem manager_inv_kept (P : Platform) (m : LutronCasetaManager) (tr : trace)
    (domain device_id : string) (level : pyint) :
  manager_inv m ->
  manager_inv (state_of (connect P m tr))
  /\ manager_inv (state_of (disconnect P m tr))
  /\ state_of (get_devices_by_domain P domain m tr) = m
  /\ state_of (turn_on P device_id m tr) = m
  /\ state_of (turn_off P device_id m tr) = m
  /\ state_of (set_level P device_id level m tr) = m.
Proof.
  intros Hinv. split; [|split].
  - destruct (connect P m tr) as [[r m'] tr'] eqn:E.
    exact (connect_inv P m tr r m' tr' Hinv E).
  - destruct (disconnect P m tr) as [[r m'] tr'] eqn:E.
    exact (disconnect_inv P m tr r m' tr' Hinv E).
  - repeat split; apply stateless_state_of, guarded_stateless; intros b;
      stateless.
Qed.

Lemma manager_inv_kept_witness :
  manager_inv (state_of (connect Demo.refused Demo.manager []))
  /\ manager_inv (state_of (disconnect Demo.happy Demo.connected_manager []))
  /\ state_of (set_level Demo.happy "1" (IntObj 50) Demo.connected_manager [])
     = Demo.connected_manager.
Proof.
  destruct (manager_inv_kept Demo.refused Demo.manager [] "light" "1"
              (IntObj 50)) as (H1 & _); [intros H; discriminate H|].
  destruct (manager_inv_kept Demo.happy Demo.connected_manager [] "light" "1"
              (IntObj 50)) as (_ & H2 & _ & _ & _ & H6);
    [intros _; simpl; eauto|].
  split; [exact H1|]. split; [exact H2|exact H6].
Defined.

(** X20.  Connecting a new manager and disconnecting it closes the session
    that was opened: the bridge sees the TLS session built, the handshake
    and the close of the same session, in this order, and the manager ends
    disconnected, its device operations refused again. *)
Theorem connect_then_disconnect (P : Platform)
    (ip key cert ca : string) (b : handle) (tr : trace) :
  let m0 := new_manager ip key cert ca in
  let m1 := set_connected true (set_bridge b m0) in
  let tr1 := tr ++ [EvCreateTls ip key cert ca] in
  let tr2 := tr1 ++ [EvConnect b] in
  create_tls P ip key cert ca tr = Ok b ->
  bridge_connect P b tr1 = Ok tt ->
  bridge_close P b tr2 = Ok tt ->
  connect P m0 tr = (Ok true, m1, tr2)
  /\ disconnect P m1 tr2
     = (Ok tt, set_connected false m1, tr2 ++ [EvCloseBridge b])
  /\ forall device_id,
       turn_on P device_id (set_connected false m1) (tr2 ++ [EvCloseBridge b])
       = (raise_new RuntimeError not_connected_msg, set_connected false m1,
          tr2 ++ [EvCloseBridge b]).
Proof.
  intros m0 m1 tr1 tr2 Htls Hconn Hclose. subst m0 m1 tr1 tr2.
  split; [|split].
  - unfold connect, try_except, bind, get, put, extern, ret. simpl.
    by rewrite Htls, Hconn.
  - unfold disconnect, bind, get, put, extern, ret. simpl. by rewrite Hclose.
  - intros device_id. reflexivity.
Qed.

Lemma connect_then_disconnect_witness :
  connect Demo.happy Demo.manager [] 
  = (Ok true, Demo.connected_manager,
     [EvCreateTls "192.168.1.100" "/path/to/key" "/path/to/cert" "/path/to/ca";
      EvConnect 1%nat])
  /\ disconnect Demo.happy Demo.connected_manager
       [EvCreateTls "192.168.1.100" "/path/to/key" "/path/to/cert" "/path/to/ca";
        EvConnect 1%nat]
     = (Ok tt, set_connected false Demo.connected_manager,
        [EvCreateTls "192.168.1.100" "/path/to/key" "/path/to/cert" "/path/to/ca";
         EvConnect 1%nat; EvCloseBridge 1%nat]).
Proof.
  destruct (connect_then_disconnect Demo.happy "192.168.1.100" "/path/to/key"
              "/path/to/cert" "/path/to/ca" 1%nat [] eq_refl eq_refl eq_refl)
    as (H1 & H2 & _).
  split; [exact H1|exact H2].
Defined.

(** ** The server state *)

Lemma bind_get {S B} (k : S -> M S B) s tr : bind get k s tr = k s s tr.
Proof. reflexivity. Qed.

Lemma bind_put {S B} (k : unit -> M S B) s0 s tr :
  bind (put s0) k s tr = k tt s0 tr.
Proof. reflexivity. Qed.

Lemma bind_emit {S B} ev (k : unit -> M S B) s tr :
  bind (emit ev) k s tr = k tt s (tr ++ [ev]).
Proof. reflexivity. Qed.

Lemma bind_ret {S A B} (a : A) (k : A -> M S B) s tr :
  bind (ret a) k s tr = k a s tr.
Proof. reflexivity. Qed.

Lemma from_env_stateless (P : Platform) {S} : stateless (@from_env P S).
Proof. unfold from_env, get_cert_dir. stateless. Qed.

Lemma from_env_config (P : Platform) {S} (s s' : S) tr tr' c :
  from_env P s tr = (Ok c, s', tr') -> config_inv c.
Proof.
  unfold from_env. intros H.
  apply bind_ok in H as (cert_dir & ? & ? & _ & H).
  apply bind_ok in H as (ip & ? & ? & _ & H).
  apply ret_inv in H as ([= ->] & _). by repeat split.
Qed.

Lemma check_certificates_stateless (P : Platform) {S} fs cert_dir :
  stateless (@check_certificates P S fs cert_dir).
Proof. unfold check_certificates. stateless. Qed.

Lemma certificates_exist_stateless (P : Platform) {S} fs cert_dir :
  stateless (@certificates_exist P S fs cert_dir).
Proof. unfold certificates_exist, check_certificates. stateless. Qed.

(** [connect] on a manager that is not connected: the flag afterwards is
    the value returned. *)
Lemma connect_fresh P m tr ok m' tr' :
  connected m = false ->
  connect P m tr = (Ok ok, m', tr') ->
  connected m' = ok /\ (ok = true -> is_Some (bridge m'))
  /\ bridge_ip m' = bridge_ip m.
Proof.
  intros Hoff. unfold connect, try_except, bind, get, put, extern, emit, ret.
  destruct (create_tls P _ _ _ _ tr) as [b|e].
  - destruct (bridge_connect P b _) as [[]|e].
    + intros [= <- <- <-]. simpl. eauto.
    + destruct (existsb _ _); [|discriminate].
      intros [= <- <- <-]. simpl. by repeat split.
  - destruct (existsb _ _); [|discriminate].
    intros [= <- <- <-]. by repeat split.
Qed.

(** X21.  [initialize] gives up, returning false, as soon as the
    configuration read from the environment has no bridge address or no
    certificate directory, or when the credential files are not all there.
    In both cases it stores the configuration, logs two warnings, and
    leaves the manager and the connected flag as they were: the bridge is
    not contacted. *)
Theorem initialize_gives_up (P : Platform) (fs : filesystem)
    (st : MCPServerState) (tr tr1 : trace) (c : LutronConfig) :
  from_env P st tr = (Ok c, st, tr1) ->
  (is_complete c = false ->
   initialize P fs st tr
   = (Ok false, set_config (Some c) st,
      tr1 ++ [EvLog WARNING "LUTRON_BRIDGE_IP environment variable not set";
              EvLog WARNING
                "Bridge connection will not be established. Use pair_bridge tool to configure."]))
  /\ (is_complete c = true ->
      forall tr2,
        certificates_exist P fs (cfg_cert_dir c) (set_config (Some c) st) tr1
        = (Ok false, set_config (Some c) st, tr2) ->
        initialize P fs st tr
        = (Ok false, set_config (Some c) st,
           tr2 ++ [EvLog WARNING
                     ("Certificate files not found in " +:+ cfg_cert_dir c);
                   EvLog WARNING
                     "Use the pair_bridge tool or run the standalone pairing utility first."])).
Proof.
  intros Henv. split.
  - intros Hc. unfold initialize. rewrite (bind_step _ _ _ _ _ _ _ Henv).
    rewrite bind_get, bind_put, Hc. simpl. rewrite !bind_emit.
    unfold ret. by rewrite <- app_assoc.
  - intros Hc tr2 Hcerts. unfold initialize.
    rewrite (bind_step _ _ _ _ _ _ _ Henv).
    rewrite bind_get, bind_put, Hc. simpl.
    rewrite (bind_step _ _ _ _ _ _ _ Hcerts). simpl. rewrite !bind_emit.
    unfold ret. by rewrite <- app_assoc.
Qed.

Lemma initialize_gives_up_witness :
  exists c tr1,
    initialize Demo.happy {| dirs := ∅; files := ∅ |} new_server_state []
    = (Ok false, set_config (Some c) new_server_state,
       tr1 ++ [EvLog WARNING "LUTRON_BRIDGE_IP environment variable not set";
               EvLog WARNING
                 "Bridge connection will not be established. Use pair_bridge tool to configure."])
    /\ cfg_bridge_ip c = "".
Proof.
  eexists _, _. split.
  - eapply (initialize_gives_up Demo.happy {| dirs := ∅; files := ∅ |}
              new_server_state []).
    + vm_compute. reflexivity.
    + reflexivity.
  - reflexivity.
Defined.

(** X22.  When [initialize] on a new server state returns, the connected
    flag of the state is the value returned and the configuration is
    stored; if it returned true the state holds a connected manager, so
    the device tools pass their connection check. *)
Theorem initialize_result (P : Platform) (fs : filesystem)
    (tr tr' : trace) (ok : bool) (st' : MCPServerState) :
  initialize P fs new_server_state tr = (Ok ok, st', tr') ->
  state_connected st' = ok
  /\ (exists c, config st' = Some c /\ config_inv c
                /\ (ok = true -> is_complete c = true))
  /\ (ok = true -> tool_connected (Some st') = true)
  /\ server_inv (Some st').
Proof.
  intros H. unfold initialize in H.
  apply bind_ok in H as (c & s1 & tr1 & Henv & H).
  pose proof (from_env_config _ _ _ _ _ _ Henv) as Hcfg.
  apply from_env_stateless in Henv as ->.
  rewrite bind_get, bind_put in H.
  destruct (is_complete c) eqn:Hc; simpl in H.
  2:{ rewrite !bind_emit in H. apply ret_inv in H as ([= ->] & -> & _).
      simpl. split; [reflexivity|]. split; [eauto 10|].
      split; [discriminate|]. intros Hx. discriminate Hx. }
  apply bind_ok in H as (present & s2 & tr2 & Hce & H).
  apply certificates_exist_stateless in Hce as ->.
  destruct present; simpl in H.
  2:{ rewrite !bind_emit in H. apply ret_inv in H as ([= ->] & -> & _).
      simpl. split; [reflexivity|]. split; [eauto 10|].
      split; [discriminate|]. intros Hx. discriminate Hx. }
  rewrite bind_get, bind_put in H.
  apply bind_ok in H as (ok' & s3 & tr3 & Hz & H).
  unfold zoom in Hz. simpl in Hz.
  destruct (connect P _ tr2) as [[r m'] tr4] eqn:Econn.
  injection Hz as -> <- <-.
  destruct (connect_fresh P
              (new_manager (cfg_bridge_ip c) (cfg_key_path c)
                 (cfg_cert_path c) (cfg_ca_path c))
              tr2 ok' m' tr4 eq_refl Econn) as (Hflag & Hbr & _).
  rewrite bind_get, bind_put in H.
  apply bind_ok in H as (u & s4 & tr5 & Hlog & H).
  assert (s4 = set_state_connected ok'
                 (set_caseta_manager (Some m')
                    (set_caseta_manager
                       (Some (new_manager (cfg_bridge_ip c) (cfg_key_path c)
                                (cfg_cert_path c) (cfg_ca_path c)))
                       (set_config (Some c) new_server_state)))) as ->.
  { destruct ok'; unfold emit in Hlog; by injection Hlog as _ <- _. }
  apply ret_inv in H as ([= ->] & -> & _). simpl.
  split; [reflexivity|]. split; [eauto 10|]. split; [by intros ->|].
  intros ->. exists m'. eauto.
Qed.

Lemma initialize_result_witness :
  exists st',
    state_connected st' = false
    /\ (exists c, config st' = Some c /\ config_inv c
                  /\ (false = true -> is_complete c = true))
    /\ server_inv (Some st').
Proof.
  destruct (initialize_result Demo.happy {| dirs := ∅; files := ∅ |} []
              (snd (initialize Demo.happy {| dirs := ∅; files := ∅ |}
                      new_server_state []))
              false
              (state_of (initialize Demo.happy {| dirs := ∅; files := ∅ |}
                           new_server_state []))
              eq_refl) as (H1 & H2 & _ & H4).
  eexists. split; [exact H1|]. split; [exact H2|exact H4].
Defined.

(** After a [disconnect] that returned, another one is a no-op. *)
Lemma disconnect_settles P m tr u m' tr' t :
  disconnect P m tr = (Ok u, m', tr') ->
  disconnect P m' t = (Ok tt, m', t).
Proof.
  unfold disconnect, bind, get, put, extern, ret.
  destruct (bridge m) as [b|] eqn:Eb.
  - destruct (connected m) eqn:Ec.
    + destruct (bridge_close P b tr) as [[]|e]; [|discriminate].
      intros [= <- <-]. simpl. by rewrite Eb.
    + intros [= <- <-]. by rewrite Eb, Ec.
  - intros [= <- <-]. by rewrite Eb.
Qed.

(** X23.  After a [cleanup] that returned, the server is not connected:
    the flag is false and the device tools are refused; the configuration
    is kept.  A second [cleanup] returns too, changes nothing more, and
    makes no call to the bridge. *)
Theorem cleanup_idempotent (P : Platform) (st st' : MCPServerState)
    (tr tr' : trace) :
  cleanup P st tr = (Ok tt, st', tr') ->
  state_connected st' = false
  /\ tool_connected (Some st') = false
  /\ config st' = config st
  /\ exists tr'',
       cleanup P st' tr' = (Ok tt, st', tr'')
       /\ existsb is_bridge_call (added tr' tr'') = false.
Proof.
  unfold cleanup. rewrite bind_get.
  destruct (caseta_manager st) as [mg|] eqn:Emg.
  - intros H. apply bind_ok in H as (u1 & s1 & tr1 & H1 & H).
    apply bind_ok in H1 as (u2 & s2 & tr2 & Hz & Hlog).
    unfold zoom in Hz. rewrite Emg in Hz.
    destruct (disconnect P mg tr) as [[r mg'] tr3] eqn:Ed.
    injection Hz as -> <- <-.
    unfold emit in Hlog. injection Hlog as _ <- <-.
    rewrite bind_get in H. unfold put in H. injection H as <- <-.
    simpl. repeat (split; [reflexivity|]).
    eexists. split.
    + rewrite bind_get. simpl.
      erewrite bind_step.
      2:{ erewrite bind_step; [reflexivity|].
          unfold zoom. simpl.
          by rewrite (disconnect_settles P mg tr u2 mg' tr3 _ Ed). }
      rewrite bind_get. reflexivity.
    + by rewrite added_app.
  - rewrite bind_ret, bind_get. unfold put. intros [= <- <-].
    simpl. split; [reflexivity|]. rewrite Emg.
    split; [reflexivity|]. split; [reflexivity|].
    exists tr. split.
    + rewrite bind_get. simpl. rewrite Emg. reflexivity.
    + unfold added. by rewrite drop_all.
Qed.

Lemma cleanup_idempotent_witness :
  exists st' tr',
    cleanup Demo.happy
      {| config := None; caseta_manager := Some Demo.connected_manager;
         state_connected := true |} []
    = (Ok tt, st', tr')
    /\ state_connected st' = false
    /\ tool_connected (Some st') = false
    /\ exists tr'',
         cleanup Demo.happy st' tr' = (Ok tt, st', tr'')
         /\ existsb is_bridge_call (added tr' tr'') = false.
Proof.
  eexists _, _. split; [reflexivity|].
  destruct (cleanup_idempotent Demo.happy
              {| config := None; caseta_manager := Some Demo.connected_manager;
                 state_connected := true |} _ [] _ eq_refl)
    as (H1 & H2 & _ & H4).
  split; [exact H1|]. split; [exact H2|exact H4].
Defined.

Lemma update_config_raise_keeps P ip st tr e st' tr' :
  update_config P ip st tr = (Raise e, st', tr') -> st' = st.
Proof.
  unfold update_config. rewrite bind_get.
  destruct (config st) as [c0|] eqn:Ec.
  - rewrite bind_ret. unfold bind, zoom. rewrite Ec. simpl. discriminate.
  - intros H. apply bind_raise in H as [H|(u & s1 & tr1 & H1 & H)].
    + apply bind_raise in H as [H|(c & s1 & tr1 & _ & H)].
      * by apply from_env_stateless in H.
      * rewrite bind_get in H. discriminate H.
    + apply bind_ok in H1 as (c & s2 & tr2 & Henv & H1).
      apply from_env_stateless in Henv as ->.
      rewrite bind_get in H1. unfold put in H1. injection H1 as _ <- <-.
      revert H. unfold bind, zoom. simpl. discriminate.
Qed.

Lemma update_config_ok (P : Platform) (bridge_ip : string)
    (st st' : MCPServerState) (tr tr' : trace) (ok : bool) :
  update_config P bridge_ip st tr = (Ok ok, st', tr') ->
  ok = true
  /\ caseta_manager st' = caseta_manager st
  /\ state_connected st' = state_connected st
  /\ exists c,
       config st' = Some c /\ cfg_bridge_ip c = bridge_ip
       /\ (forall c0, config st = Some c0 ->
             c = set_cfg_bridge_ip bridge_ip c0 /\ tr' = tr
             /\ (config_inv c0 -> config_inv c))
       /\ (config st = None -> config_inv c).
Proof.
  unfold update_config. rewrite bind_get.
  destruct (config st) as [c0|] eqn:Ec.
  - rewrite bind_ret. unfold bind, zoom. rewrite Ec. simpl.
    unfold ret. intros [= <- <- <-]. simpl.
    repeat (split; [reflexivity|]).
    eexists. split; [reflexivity|]. split; [reflexivity|].
    split; [|discriminate]. intros c1 [= <-].
    split; [reflexivity|]. split; [reflexivity|]. intros H. exact H.
  - intros H. apply bind_ok in H as (u & s1 & tr1 & H1 & H).
    apply bind_ok in H1 as (c & s2 & tr2 & Henv & H1).
    pose proof (from_env_config _ _ _ _ _ _ Henv) as Hcfg.
    apply from_env_stateless in Henv as ->.
    rewrite bind_get in H1. unfold put in H1. injection H1 as _ <- <-.
    revert H. unfold bind, zoom. simpl. unfold ret. intros [= <- <- <-].
    simpl. repeat (split; [reflexivity|]).
    eexists. split; [reflexivity|]. split; [reflexivity|].
    split; [discriminate|]. intros _. exact Hcfg.
Qed.


(** X24.  [update_config] returns true and leaves the manager and the
    connected flag alone.  With a configuration in place it only replaces
    the bridge address, asking nothing of the environment; without one it
    first builds the configuration from the environment.  Either way the
    three credential paths stay the certificate directory joined with the
    fixed names. *)
Theorem update_config_sets_address (P : Platform) (bridge_ip : string)
    (st st' : MCPServerState) (tr tr' : trace) (ok : bool) :
  update_config P bridge_ip st tr = (Ok ok, st', tr') ->
  ok = true
  /\ caseta_manager st' = caseta_manager st
  /\ state_connected st' = state_connected st
  /\ exists c,
       config st' = Some c /\ cfg_bridge_ip c = bridge_ip
       /\ (forall c0, config st = Some c0 ->
             c = set_cfg_bridge_ip bridge_ip c0 /\ tr' = tr
             /\ (config_inv c0 -> config_inv c))
       /\ (config st = None -> config_inv c).
Proof. apply update_config_ok. Qed.

Lemma update_config_sets_address_witness :
  exists c,
    config (state_of (update_config Demo.happy "10.0.0.7" new_server_state []))
    = Some c
    /\ cfg_bridge_ip c = "10.0.0.7".
Proof.
  destruct (update_config_sets_address Demo.happy "10.0.0.7" new_server_state
              (state_of (update_config Demo.happy "10.0.0.7" new_server_state []))
              [] (snd (update_config Demo.happy "10.0.0.7" new_server_state []))
              true eq_refl) as (_ & _ & _ & c & Hc & Hip & _).
  exists c. split; [exact Hc|exact Hip].
Defined.

(** ** More on the tools *)

Lemma zoom_stateless {S T A} (field : S -> option T) (update : T -> S -> S)
    (m : M T A) :
  stateless m -> (forall s t, field s = Some t -> update t s = s) ->
  stateless (zoom field update m).
Proof.
  intros Hm Hup s tr o s' tr'. unfold zoom.
  destruct (field s) as [t|] eqn:Ef; [|by intros [= _ <- _]].
  destruct (m t tr) as [[r t'] tr1] eqn:Em. intros [= _ <- _].
  apply Hm in Em as ->. by apply Hup.
Qed.

Lemma on_manager_stateless {A} (m : M LutronCasetaManager A) :
  stateless m -> stateless (on_manager m).
Proof.
  intros Hm. unfold on_manager, on_state.
  apply zoom_stateless; [|by intros s t ->].
  apply zoom_stateless; [exact Hm|].
  intros [c mg f] t. simpl. by intros ->.
Qed.

Lemma require_connection_stateless : stateless require_connection.
Proof.
  intros g tr o g' tr'. unfold require_connection, bind, get, throw, ret.
  destruct g as [st|]; [|by intros [= _ <- _]].
  destruct (caseta_manager st); [|by intros [= _ <- _]].
  destruct (state_connected st); by intros [= _ <- _].
Qed.

Lemma manager_ops_stateless (P : Platform) domain device_id level :
  stateless (get_devices_by_domain P domain)
  /\ stateless (turn_on P device_id)
  /\ stateless (turn_off P device_id)
  /\ stateless (set_level P device_id level).
Proof.
  repeat split; apply guarded_stateless; intros b; stateless.
Qed.

(** X25.  The device tools never change the server state: whatever
    [list_devices], [turn_on_device], [turn_off_device] and
    [set_device_level] return or raise, the global state afterwards is the
    one they were called with. *)
Theorem device_tools_keep_state (P : Platform) (domain device_id : string)
    (level : pyval) :
  stateless (list_devices P domain)
  /\ stateless (turn_on_device P device_id)
  /\ stateless (turn_off_device P device_id)
  /\ stateless (set_device_level P device_id level).
Proof.
  unfold list_devices, turn_on_device, turn_off_device, set_device_level,
    revalidate.
  repeat split;
    repeat first
      [ apply require_connection_stateless
      | apply on_manager_stateless; apply guarded_stateless; intros ?
      | stateless_step ].
Qed.

(** X26.  On a connected server whose manager holds a session,
    [set_device_level] with a level in [0, 100] calls the bridge exactly
    once, with the device id and the level, and returns the device id, the
    action "set_level", the level, and whether the call succeeded. *)
Theorem set_device_level_delegates (P : Platform) (st : MCPServerState)
    (mg : LutronCasetaManager) (b : handle) (device_id : string)
    (level : pyint) (tr : trace) :
  caseta_manager st = Some mg -> state_connected st = true ->
  connected mg = true -> bridge mg = Some b ->
  0 <= int_value level <= 100 ->
  raises_only_exceptions (bridge_set_value P b device_id level tr) ->
  set_device_level P device_id (PyInt level) (Some st) tr
  = (Ok {| dr_device_id := device_id; dr_action := "set_level";
           dr_level := Some level;
           dr_success := succeeded (bridge_set_value P b device_id level tr) |},
     Some st,
     tr ++ EvSetValue b device_id level
           :: failure_log (fun err => "Failed to set value for device "
                                      +:+ device_id +:+ ": " +:+ err)
                (bridge_set_value P b device_id level tr)).
Proof.
  intros Hmg Hst Hc Hb [H1 H2] Honly.
  unfold set_device_level.
  erewrite bind_step
    by (apply require_connection_passes; simpl; by rewrite Hmg, Hst).
  erewrite bind_step.
  2:{ unfold revalidate, try_except, lift, validate_device_level.
      apply Z.leb_le in H1, H2. by rewrite H1, H2. }
  erewrite bind_step.
  2:{ unfold on_manager, on_state, zoom. simpl. rewrite Hmg.
      unfold set_level. rewrite (guarded_connected _ mg b tr Hc Hb).
      apply Z.leb_le in H1, H2. rewrite H1, H2.
      cbv beta iota delta [negb andb].
      erewrite (try_bool_step _ _ _ _ _
                  (fun err => "Failed to set value for device " +:+ device_id
                              +:+ ": " +:+ err));
        [|by apply extern_step|exact Honly].
      reflexivity. }
  unfold ret. rewrite <- app_assoc. simpl.
  destruct st as [c m f]. simpl in *. by subst.
Qed.

Lemma set_device_level_delegates_witness :
  set_device_level Demo.happy "1" (PyInt (BoolObj true)) Demo.connected_state []
  = (Ok {| dr_device_id := "1"; dr_action := "set_level";
           dr_level := Some (BoolObj true); dr_success := true |},
     Demo.connected_state, [EvSetValue 1%nat "1" (BoolObj true)]).
Proof.
  apply (set_device_level_delegates Demo.happy
           {| config := None; caseta_manager := Some Demo.connected_manager;
              state_connected := true |}
           Demo.connected_manager 1%nat "1" (BoolObj true) []
           eq_refl eq_refl eq_refl eq_refl).
  - simpl. lia.
  - intros e [=].
Defined.

(** X27.  On a connected server whose manager holds a session,
    [list_devices] passes the normalised domain to the bridge, trimmed and
    lower-cased, never the text it was given, and returns the bridge's list
    (empty when the bridge has none). *)
Theorem list_devices_normalises (P : Platform) (st : MCPServerState)
    (mg : LutronCasetaManager) (b : handle) (domain d : string) (tr : trace) :
  caseta_manager st = Some mg -> state_connected st = true ->
  connected mg = true -> bridge mg = Some b ->
  validate_domain domain = Ok d ->
  list_devices P domain (Some st) tr
  = (match bridge_get_devices P b d tr with
     | Ok (Some devices) => Ok devices
     | Ok None => Ok []
     | Raise e => Raise e
     end, Some st, tr ++ [EvGetDevices b d])
  /\ d = PyStr.lower (PyStr.strip domain).
Proof.
  intros Hmg Hst Hc Hb Hd. split.
  - unfold list_devices.
    erewrite bind_step
      by (apply require_connection_passes; simpl; by rewrite Hmg, Hst).
    erewrite bind_step
      by (unfold revalidate, try_except, lift; by rewrite Hd).
    assert (on_manager (get_devices_by_domain P d) (Some st) tr
            = (match bridge_get_devices P b d tr with
               | Ok (Some devices) => Ok devices
               | Ok None => Ok []
               | Raise e => Raise e
               end, Some st, tr ++ [EvGetDevices b d])) as Hrun.
    { unfold on_manager, on_state, zoom. simpl. rewrite Hmg.
      unfold get_devices_by_domain.
      rewrite (guarded_connected _ mg b tr Hc Hb).
      unfold bind, extern, ret.
      destruct st as [c m f]. simpl in *. subst.
      by destruct (bridge_get_devices P b d tr) as [[devices|]|e]. }
    unfold bind at 1. rewrite Hrun.
    by destruct (bridge_get_devices P b d tr) as [[devices|]|e].
  - revert Hd. unfold validate_domain, raise_new.
    repeat case_match; intros [= <-]; reflexivity.
Qed.

Lemma list_devices_normalises_witness :
  list_devices Demo.happy "  LIGHT " Demo.connected_state []
  = (Ok [], Demo.connected_state, [EvGetDevices 1%nat "light"]).
Proof.
  apply (list_devices_normalises Demo.happy
           {| config := None; caseta_manager := Some Demo.connected_manager;
              state_connected := true |}
           Demo.connected_manager 1%nat "  LIGHT " "light" []
           eq_refl eq_refl eq_refl eq_refl eq_refl).
Defined.

(** X28.  [check_connection] only reads: the server state is unchanged,
    the connected flag it reports is the one of the server state (false
    when there is none), the certificate map has the keys "ca", "cert" and
    "key", and the bridge address it reports is the one of the
    environment, not the one a pairing may have configured since. *)
Theorem check_connection_reads (P : Platform) (fs : filesystem)
    (g g' : Global) (tr tr' : trace) (r : ConnectionStatus) :
  check_connection P fs g tr = (Ok r, g', tr') ->
  g' = g
  /\ cs_connected r = match g with
                      | Some st => state_connected st
                      | None => false
                      end
  /\ cs_bridge_ip r = default "" (getenv P "LUTRON_BRIDGE_IP" tr)
  /\ dom (cs_certificates r) = ({["ca"; "cert"; "key"]} : gset string).
Proof.
  unfold check_connection. intros H.
  apply bind_ok in H as (ip & s1 & tr1 & Hx & H).
  apply extern_ok in Hx as ([= <-] & -> & ->).
  apply bind_ok in H as (cert_dir & s2 & tr2 & Hcd & H).
  apply get_cert_dir_stateless in Hcd as ->.
  apply bind_ok in H as (certs & s3 & tr3 & Hcc & H).
  pose proof Hcc as Hst. apply check_certificates_stateless in Hst as ->.
  unfold check_certificates in Hcc.
  apply bind_ok in Hcc as (q & s4 & tr4 & _ & Hcc).
  apply ret_inv in Hcc as ([= ->] & _).
  rewrite bind_get in H. apply ret_inv in H as ([= ->] & -> & _). simpl.
  repeat (split; [reflexivity|]).
  rewrite !dom_insert_L, dom_empty_L. set_solver.
Qed.

Example check_connection_happy :
  check_connection Demo.happy {| dirs := ∅; files := ∅ |}
    Demo.connected_state []
  = (Ok {| cs_bridge_ip := "";
           cs_cert_dir := "/home/user/.config/lutron-caseta-mcp";
           cs_certificates :=
             <["ca" := false]> (<["cert" := false]> (<["key" := false]> ∅));
           cs_connected := true |},
     Demo.connected_state,
     [EvGetenv "LUTRON_BRIDGE_IP"; EvGetenv "LUTRON_CERT_DIR";
      EvExpanduser "/home/user/.config/lutron-caseta-mcp";
      EvResolve "/home/user/.config/lutron-caseta-mcp";
      EvHome; EvResolve "/home/user"; EvGettempdir; EvResolve "/tmp";
      EvExpanduser "/home/user/.config/lutron-caseta-mcp"]).
Proof. vm_compute. reflexivity. Qed.

Lemma check_connection_reads_witness :
  Demo.connected_state = Demo.connected_state
  /\ true = true
  /\ "" = default "" (getenv Demo.happy "LUTRON_BRIDGE_IP" []).
Proof.
  destruct (check_connection_reads Demo.happy {| dirs := ∅; files := ∅ |}
              Demo.connected_state _ [] _ _ check_connection_happy)
    as (H1 & H2 & H3 & _).
  split; [exact H1|]. split; [exact H2|exact H3].
Defined.

(** *** The pair tool, read backwards *)

Lemma on_state_inv {A} (m : M MCPServerState A) g tr o g' tr' :
  on_state m g tr = (o, g', tr') ->
  (g = None /\ g' = None /\ exists e, o = Raise e)
  \/ exists st st', g = Some st /\ g' = Some st' /\ m st tr = (o, st', tr').
Proof.
  unfold on_state, zoom. destruct g as [st|].
  - destruct (m st tr) as [[r st'] tr1] eqn:E. intros [= <- <- <-].
    right. eauto.
  - intros [= <- <- <-]. left. unfold raise_new. eauto.
Qed.

Lemma connect_raise P m tr e m' tr' :
  connect P m tr = (Raise e, m', tr') -> isinstance_exc e Exception = false.
Proof.
  unfold connect. intros H.
  apply try_except_raise in H as [[_ Hnot]|(e0 & s1 & tr1 & _ & _ & Hh)].
  - simpl in Hnot. by rewrite orb_false_r in Hnot.
  - rewrite bind_emit in Hh. discriminate Hh.
Qed.

Opaque os_path_join.

(** The success branch of [pair_bridge_tool], after pairing. *)
Lemma promote_ok P h cert_dir result (st : MCPServerState) tr o g' tr' :
  (run on_state (update_config P h);
   run on_state
         (do st <- get;
          put (set_caseta_manager
                 (Some (new_manager h (os_path_join cert_dir "caseta.key")
                          (os_path_join cert_dir "caseta.crt")
                          (os_path_join cert_dir "caseta-bridge.crt")))
                 st));
   do connected <- on_manager (connect P);
   run on_state (do st <- get; put (set_state_connected connected st));
   ret {| pt_success := true;
          pt_message :=
            "✅ SUCCESS: Bridge paired successfully! " +:+ message result;
          pt_status := "Your Lutron Caseta bridge is now connected and ready to control lights.";
          pt_connected := connected;
          pt_certificate_files := Some (data result) |}) (Some st) tr
  = (o, g', tr') ->
  (exists e, o = Raise e
             /\ (isinstance_exc e Exception = true -> g' = Some st))
  \/ exists r st' mg c,
       o = Ok r /\ g' = Some st'
       /\ pt_success r = true
       /\ pt_certificate_files r = Some (data result)
       /\ caseta_manager st' = Some mg
       /\ bridge_ip mg = h
       /\ key_path mg = os_path_join cert_dir "caseta.key"
       /\ connected mg = pt_connected r
       /\ (pt_connected r = true -> is_Some (bridge mg))
       /\ state_connected st' = pt_connected r
       /\ config st' = Some c /\ cfg_bridge_ip c = h.
Proof.
  intros H. unfold bind at 1 in H.
  destruct (on_state (update_config P h) (Some st) tr)
    as [[o1 g1] tr1] eqn:E1.
  apply on_state_inv in E1 as [(Hn & _)|(st0 & st1 & [= <-] & -> & Hup)];
    [discriminate Hn|].
  destruct o1 as [ok|e].
  2:{ injection H as <- <- <-. left. exists e. split; [reflexivity|].
      intros _. f_equal. by apply update_config_raise_keeps in Hup. }
  destruct (update_config_ok P h st st1 tr tr1 ok Hup)
    as (_ & Hmg & Hfl & c & Hc & Hip & _).
  unfold bind at 1 in H. unfold on_state at 1, zoom at 1 in H.
  rewrite bind_get in H. unfold put at 1 in H.
  unfold bind at 1 in H.
  unfold on_manager at 1, on_state at 1, zoom at 1 2 in H. simpl in H.
  destruct (connect P _ tr1) as [[oc mg] tr2] eqn:Ec.
  destruct oc as [connected_|e].
  2:{ injection H as <- <- <-. left. exists e. split; [reflexivity|].
      intros He. apply connect_raise in Ec. congruence. }
  pose proof Ec as Ec'.
  apply connect_fresh in Ec' as (Hflag & Hbr & Hbip); [|reflexivity].
  unfold bind at 1 in H. unfold on_state at 1, zoom at 1 in H.
  rewrite bind_get in H. unfold put at 1 in H. unfold ret in H.
  injection H as <- <- <-. right.
  eexists _, _, mg, c. split; [reflexivity|]. split; [reflexivity|]. simpl.
  split; [reflexivity|]. split; [reflexivity|]. split; [reflexivity|].
  split; [exact Hbip|].
  split.
  { revert Ec. unfold connect, try_except, bind, get, put, extern, emit, ret.
    destruct (create_tls P _ _ _ _ tr1) as [b|e].
    - destruct (bridge_connect P b _) as [[]|e].
      + by intros [= _ <- _].
      + destruct (existsb _ _); [|discriminate]. by intros [= _ <- _].
    - destruct (existsb _ _); [|discriminate]. by intros [= _ <- _]. }
  split; [exact Hflag|]. split; [exact Hbr|].
  split; [reflexivity|]. split; [exact Hc|exact Hip].
Qed.

Lemma pair_bridge_tool_ok P host g tr r g' tr' :
  pair_bridge_tool P host g tr = (Ok r, g', tr') ->
  (pt_success r = false /\ pt_connected r = false
   /\ pt_certificate_files r = None /\ g' = g)
  \/ exists h st st' mg c result,
       validate_host_ip (ip_address P) host = Ok h
       /\ g = Some st /\ g' = Some st'
       /\ pt_success r = true
       /\ success result = true
       /\ pt_certificate_files r = Some (data result)
       /\ caseta_manager st' = Some mg
       /\ bridge_ip mg = h
       /\ connected mg = pt_connected r
       /\ (pt_connected r = true -> is_Some (bridge mg))
       /\ state_connected st' = pt_connected r
       /\ config st' = Some c /\ cfg_bridge_ip c = h.
Proof.
  intros H. unfold pair_bridge_tool in H.
  apply bind_ok in H as (checked & s1 & tr1 & H1 & H).
  assert (s1 = g) as ->.
  { revert H1. apply stateless_try_except; [|intros ?]; stateless. }
  apply try_except_ok in H1 as [H1|(e & s2 & tr2 & _ & _ & Hh)].
  2:{ apply ret_inv in Hh as ([= ->] & _ & _).
      apply ret_inv in H as ([= ->] & -> & _). left. by repeat split. }
  apply bind_ok in H1 as (h & s2 & tr2 & Hv & H1).
  unfold lift in Hv. injection Hv as Hv <- <-.
  apply ret_inv in H1 as ([= ->] & _ & ->).
  rewrite bind_get in H. destruct g as [st|].
  2:{ apply ret_inv in H as ([= ->] & -> & _). left. by repeat split. }
  apply bind_ok in H as (cert_dir & s3 & tr3 & Hcd & H).
  apply get_cert_dir_stateless in Hcd as ->.
  apply try_except_ok in H as [H|(e & s4 & tr4 & Hraise & Hc & Hh)].
  - apply bind_ok in H as (result & s5 & tr5 & Hpb & H).
    apply pair_bridge_stateless in Hpb as ->.
    destruct (success result) eqn:Hs.
    + apply promote_ok in H as [(e & [=] & _)|H].
      destruct H as (r' & st' & mg & c & [= <-] & -> & H).
      destruct H as (Hps & Hcf & Hm & Hbip & _ & Hcon & Hbr & Hfl & Hcfg & Hip).
      right. exists h, st, st', mg, c, result. by repeat split.
    + apply ret_inv in H as ([= ->] & -> & _). left. by repeat split.
  - apply ret_inv in Hh as ([= ->] & -> & _). left.
    repeat (split; [reflexivity|]).
    simpl in Hc. rewrite orb_false_r in Hc.
    apply bind_raise in Hraise as [Hpb|(result & s5 & tr5 & Hpb & Hrest)].
    + by apply pair_bridge_stateless in Hpb.
    + apply pair_bridge_stateless in Hpb as ->.
      destruct (success result) eqn:Hs.
      * apply promote_ok in Hrest as [(e' & [= <-] & Hkeep)|H]; [by apply Hkeep|].
        destruct H as (r' & ? & ? & ? & Hx & _). discriminate Hx.
      * apply ret_inv in Hrest as (Hx & _). discriminate Hx.
Qed.

(** X29.  A call of [pair_bridge_tool] that reports failure leaves the
    server state exactly as it was, whether the host was invalid, the
    server state missing, the pairing refused, or an exception caught on
    the way; the result then says not connected and carries no
    certificate files. *)
Theorem pair_bridge_tool_failure_keeps_state (P : Platform) (host : string)
    (g g' : Global) (tr tr' : trace) (r : PairToolResult) :
  pair_bridge_tool P host g tr = (Ok r, g', tr') ->
  pt_success r = false ->
  g' = g /\ pt_connected r = false /\ pt_certificate_files r = None.
Proof.
  intros H Hf.
  apply pair_bridge_tool_ok in H as [(_ & Hc & Hcf & Hg)|H]; [done|].
  destruct H as (? & ? & ? & ? & ? & ? & _ & _ & _ & Hs & _). congruence.
Qed.

Lemma pair_bridge_tool_failure_keeps_state_witness :
  exists r tr',
    pair_bridge_tool Demo.timeout "192.168.1.100" Demo.connected_state []
    = (Ok r, Demo.connected_state, tr')
    /\ pt_connected r = false /\ pt_certificate_files r = None.
Proof.
  eexists _, _. split; [vm_compute; reflexivity|].
  eapply (pair_bridge_tool_failure_keeps_state Demo.timeout "192.168.1.100"
            Demo.connected_state Demo.connected_state []).
  - vm_compute. reflexivity.
  - reflexivity.
Defined.

(** X30.  A call of [pair_bridge_tool] that reports success has replaced
    the manager by a new one for the validated (trimmed) host and stored
    that host in the configuration.  The connected flag of the result, of
    the server state and of the new manager agree, and the state satisfies
    the server invariant: the device tools pass their check exactly when
    the result says connected. *)
Theorem pair_bridge_tool_success_promotes (P : Platform) (host : string)
    (g g' : Global) (tr tr' : trace) (r : PairToolResult) :
  pair_bridge_tool P host g tr = (Ok r, g', tr') ->
  pt_success r = true ->
  exists st' mg c,
    g' = Some st'
    /\ validate_host_ip (ip_address P) host = Ok (bridge_ip mg)
    /\ caseta_manager st' = Some mg
    /\ connected mg = pt_connected r
    /\ state_connected st' = pt_connected r
    /\ config st' = Some c /\ cfg_bridge_ip c = bridge_ip mg
    /\ tool_connected g' = pt_connected r
    /\ server_inv g'.
Proof.
  intros H Hs.
  apply pair_bridge_tool_ok in H as [(Hf & _)|H]; [congruence|].
  destruct H as (h & st & st' & mg & c & result & Hv & -> & -> & _ & _ & _
                 & Hm & <- & Hcon & Hbr & Hfl & Hcfg & Hip).
  exists st', mg, c. repeat (split; [assumption || reflexivity|]).
  split.
  - simpl. by rewrite Hm.
  - simpl. intros Hon. exists mg. rewrite Hfl in Hon.
    split; [exact Hm|]. split; [congruence|by apply Hbr].
Qed.

Lemma pair_bridge_tool_success_promotes_witness :
  exists st' mg c,
    validate_host_ip Demo.dotted_quad " 192.168.1.100 " = Ok (bridge_ip mg)
    /\ caseta_manager st' = Some mg
    /\ connected mg = true
    /\ state_connected st' = true
    /\ config st' = Some c /\ cfg_bridge_ip c = bridge_ip mg
    /\ server_inv (Some st').
Proof.
  destruct (pair_bridge_tool_success_promotes Demo.happy " 192.168.1.100 "
              Demo.idle_state
              (state_of (pair_bridge_tool Demo.happy " 192.168.1.100 "
                           Demo.idle_state []))
              []
              (snd (pair_bridge_tool Demo.happy " 192.168.1.100 "
                      Demo.idle_state []))
              {| pt_success := true;
                 pt_message :=
                   "✅ SUCCESS: Bridge paired successfully! Successfully paired with 1.0.0. Certificate files saved to: /home/user/.config/lutron-caseta-mcp";
                 pt_status := "Your Lutron Caseta bridge is now connected and ready to control lights.";
                 pt_connected := true;
                 pt_certificate_files :=
                   Some (Some (<["version" := "1.0.0"]>
                                (<["ca_path" := "/home/user/.config/lutron-caseta-mcp/caseta-bridge.crt"]>
                                  (<["cert_path" := "/home/user/.config/lutron-caseta-mcp/caseta.crt"]>
                                    (<["key_path" := "/home/user/.config/lutron-caseta-mcp/caseta.key"]> ∅))))) |})
    as (st' & mg & c & Hg & Hv & Hm & Hcon & Hfl & Hcfg & Hip & _ & Hinv).
  - vm_compute. reflexivity.
  - reflexivity.
  - exists st', mg, c. rewrite Hg in Hinv. by repeat split.
Defined.

Transparent os_path_join.
